(** * The Creator Station: the MP4 assembly routine (src/render.js)

    A shallow embedding of [renderMp4] and of the helpers it is built
    from: the zod schema [Manifest], the subprocess wrapper [run], and
    the Node.js file-system calls the routine makes.  The routine is
    effectful (temporary directory, subprocesses, exceptions), so it is
    written in a small state-and-exception monad over a file-system map
    and a log of the effects a caller can observe. *)

From Stdlib Require Import QArith Qminmax Ascii String DecimalString DecimalNat Permutation Sorted.
From stdpp Require Import gmap strings list fin_maps.

#[local] Set Warnings "-register-all".

Local Open Scope Z_scope.

(** ** JSON values, as JSON.parse returns them

    Numbers are IEEE doubles in the source; the routine only compares
    them with 1 and 60 and prints them, so they are kept as rationals.
    (A literal that overflows to an infinity lies outside [1, 60] and
    is rejected by the schema like any other out-of-range number.)
    An object is the list of its own properties; JSON.parse keeps one
    entry per key. *)

Inductive json : Type :=
| JNull
| JBool (b : bool)
| JNum (q : Q)
| JStr (s : string)
| JArr (items : list json)
| JObj (props : list (string * json)).

(** [data[key]] on a parsed object: [None] is JavaScript's [undefined]. *)
Fixpoint prop (key : string) (props : list (string * json)) : option json :=
  match props with
  | [] => None
  | (k, v) :: rest => if String.eqb k key then Some v else prop key rest
  end.

(** ** The zod combinators used by the schema

    A schema reads an input that may be [undefined] and either yields
    the parsed value or fails with a ZodError ([None]). *)

Module z.

Definition ZodType (A : Type) : Type := option json -> option A.

Definition number : ZodType Q := fun i =>
  match i with Some (JNum q) => Some q | _ => None end.

Definition min (c : Q) (s : ZodType Q) : ZodType Q := fun i =>
  match s i with
  | Some q => if Qle_bool c q then Some q else None
  | None => None
  end.

Definition max (c : Q) (s : ZodType Q) : ZodType Q := fun i =>
  match s i with
  | Some q => if Qle_bool q c then Some q else None
  | None => None
  end.

Definition boolean : ZodType bool := fun i =>
  match i with Some (JBool b) => Some b | _ => None end.

(** [.optional()]: [undefined] passes through, anything else goes to
    the inner schema. *)
Definition optional {A} (s : ZodType A) : ZodType (option A) := fun i =>
  match i with
  | None => Some None
  | Some _ => match s i with Some a => Some (Some a) | None => None end
  end.

(** [.default(d)]: [undefined] is replaced by [d] before the inner
    schema runs, so the output is never [undefined]. *)
Definition default {A} (d : json) (s : ZodType (option A)) : ZodType A := fun i =>
  match s (Some (match i with Some j => j | None => d end)) with
  | Some (Some a) => Some a
  | _ => None
  end.

Fixpoint each {A} (el : ZodType A) (items : list json) : option (list A) :=
  match items with
  | [] => Some []
  | j :: rest =>
      match el (Some j) with
      | Some a => match each el rest with Some l => Some (a :: l) | None => None end
      | None => None
      end
  end.

Definition array {A} (el : ZodType A) : ZodType (list A) := fun i =>
  match i with Some (JArr items) => each el items | _ => None end.

(** [.min(n)] on an array schema. *)
Definition min_items {A} (n : nat) (s : ZodType (list A)) : ZodType (list A) := fun i =>
  match s i with
  | Some l => if (n <=? length l)%nat then Some l else None
  | None => None
  end.

(** [z.object({k1: s1})] and [z.object({k1: s1, k2: s2})]: the input
    must be a plain object (not an array, not null); unknown keys are
    dropped. *)
Definition object1 {A C} (k1 : string) (s1 : ZodType A) (mk : A -> C) : ZodType C := fun i =>
  match i with
  | Some (JObj props) =>
      match s1 (prop k1 props) with Some a => Some (mk a) | None => None end
  | _ => None
  end.

Definition object2 {A B C} (k1 : string) (s1 : ZodType A)
    (k2 : string) (s2 : ZodType B) (mk : A -> B -> C) : ZodType C := fun i =>
  match i with
  | Some (JObj props) =>
      match s1 (prop k1 props), s2 (prop k2 props) with
      | Some a, Some b => Some (mk a b)
      | _, _ => None
      end
  | _ => None
  end.

End z.

(** ** The manifest schema (render.js, lines 11-16) *)

Record Scene : Type := { duration_sec : Q; hasAudio : bool }.
Record ManifestT : Type := { scenes : list Scene }.

(** The element schema of lines 12-15. *)
Definition scene_schema : z.ZodType Scene :=
  z.object2
    "duration_sec" (z.max (60 # 1) (z.min (1 # 1) z.number))
    "hasAudio" (z.default (JBool false) (z.optional z.boolean))
    Build_Scene.

Definition Manifest : z.ZodType ManifestT :=
  z.object1 "scenes" (z.min_items 1 (z.array scene_schema)) Build_ManifestT.

(** ** Strings the routine builds *)

(** [String(n)] and a template hole [${n}] for a non-negative integer. *)
Definition String_of_nat (n : nat) : string :=
  NilZero.string_of_uint (Nat.to_uint n).

(** A template hole [${code}] for an exit code; [null] is the code of
    a process that was killed by a signal. *)
Definition String_of_code (code : option Z) : string :=
  match code with
  | Some c => NilZero.string_of_int (Z.to_int c)
  | None => "null"
  end.

Fixpoint repeat_char (n : nat) (c : Ascii.ascii) : string :=
  match n with
  | O => EmptyString
  | S k => String c (repeat_char k c)
  end.

(** [s.padStart(n, c)] for a one-character filler. *)
Definition padStart (n : nat) (c : Ascii.ascii) (s : string) : string :=
  repeat_char (n - String.length s) c +:+ s.

(** [s.replace(/'/g, "'\\''")]: every single quote becomes the four
    characters quote, backslash, quote, quote. *)
Fixpoint replace_quotes (s : string) : string :=
  match s with
  | EmptyString => EmptyString
  | String c rest =>
      if Ascii.eqb c "'"%char
      then "'\''" +:+ replace_quotes rest
      else String c (replace_quotes rest)
  end.

Definition newline : string := String "010"%char EmptyString.

(** [path.join(a, b)] for a directory [a] without a trailing slash and
    a plain name [b], which is how the routine calls it. *)
Definition path_join (a b : string) : string := a +:+ "/" +:+ b.

(** ** Array.prototype.sort with a comparator

    The sort is stable; with a consistent comparator every conforming
    implementation returns the list computed here. *)

Section Sort.
Context {A : Type} (cmp : A -> A -> Z).

Fixpoint insert_sorted (x : A) (l : list A) : list A :=
  match l with
  | [] => [x]
  | y :: rest =>
      if cmp x y <=? 0 then x :: y :: rest else y :: insert_sorted x rest
  end.

Definition sort (l : list A) : list A := foldr insert_sorted [] l.
End Sort.

(** ** The world the routine runs in *)

Inductive node : Type :=
| File (data : string)
| Dir.

(** The file system: absolute path to node. *)
Abbreviation FS := (gmap string node).

(** A command-line argument: a literal string, or [String(q)] for a
    number [q], whose decimal rendering is left to the JavaScript
    runtime. *)
Inductive arg : Type :=
| Lit (s : string)
| Num (q : Q).

(** What the routine does to the outside: the processes it spawns (with
    the exit code and stderr text each one came back with) and the
    files it writes itself. *)
Inductive Event : Type :=
| Spawned (cmd : string) (args : list arg) (cwd : string)
          (code : option Z) (stderr : string)
| Wrote (file : string) (data : string).

Record State : Type := { fs : FS; log : list Event }.

Inductive JsError : Type :=
| SyntaxError                   (* JSON.parse *)
| ZodError                      (* Manifest.parse *)
| TypeError                     (* property read on undefined *)
| SystemError (code : string)   (* a failed fs call: ENOENT, EEXIST, EISDIR *)
| Error (message : string).     (* new Error(message) *)

Inductive Completion (A : Type) : Type :=
| Return (a : A)
| Throw (e : JsError).
Arguments Return {A} a.
Arguments Throw {A} e.

(** The parts of the platform the routine calls into. *)
Record Host : Type := {
  (** [JSON.parse]; [None] when it throws a SyntaxError. *)
  JSON_parse : string -> option json;
  (** [a.localeCompare(b)]: negative, zero or positive. *)
  localeCompare : string -> string -> Z;
  (** [os.tmpdir()]. *)
  tmpdir : string;
  (** The characters [mkdtemp] appends to the prefix it is given, or
      [None] when the directory cannot be allocated. *)
  mkdtemp_suffix : FS -> string -> option string;
  (** A subprocess that was started and ran to completion: its exit
      code ([None] for JavaScript's [null], a process ended by a
      signal), what it printed on stderr, and the data it left at its
      output path, if any.  (A program that cannot be started at all
      raises an event [run] does not listen for; that is not a return
      of [renderMp4] and lies outside this model.) *)
  spawn : string -> list arg -> string -> FS -> option Z * string * option string
}.

(** ** A state-and-exception monad for the routine *)

Definition M (A : Type) : Type := State -> Completion A * State.

Definition ret {A} (a : A) : M A := fun st => (Return a, st).
Definition throw {A} (e : JsError) : M A := fun st => (Throw e, st).

Definition bind {A B} (m : M A) (k : A -> M B) : M B := fun st =>
  match m st with
  | (Return a, st') => k a st'
  | (Throw e, st') => (Throw e, st')
  end.

(** [try { body } catch {}]: whatever [body] did to the state stays
    done, the exception is dropped. *)
Definition try_catch_ignore (body : M unit) : M unit := fun st =>
  (Return tt, snd (body st)).

Declare Scope js_scope.
Delimit Scope js_scope with js.
Notation "x <- c ;; k" := (bind c (fun x => k))
  (at level 100, c at next level, right associativity) : js_scope.
Notation "c ;;; k" := (bind c (fun _ => k))
  (at level 100, right associativity) : js_scope.
Local Open Scope js_scope.

(** [a[i]] followed by a property read: a TypeError when the element is
    undefined. *)
Definition element {A} (a : list A) (i : nat) : M A :=
  match a !! i with
  | Some x => ret x
  | None => throw TypeError
  end.

(** ** The fs calls *)

(** [p] is [dir] itself or lies below it. *)
Definition under (dir p : string) : bool :=
  String.eqb dir p || String.prefix (dir +:+ "/") p.

(** ** What the caller hands over *)

Record UploadedFile : Type := { originalname : string; path : string }.

(** [req.files] as the upload middleware fills it in: one array per
    form field, missing when the field had no file. *)
Record Files : Type := {
  images : option (list UploadedFile);
  audios : option (list UploadedFile)
}.

Section Render.
Context (h : Host).

Definition mkdtempSync (prefix : string) : M string := fun st =>
  match mkdtemp_suffix h (fs st) prefix with
  | None => (Throw (SystemError "ENOENT"), st)
  | Some sfx =>
      let p := prefix +:+ sfx in
      match fs st !! p with
      | Some _ => (Throw (SystemError "EEXIST"), st)
      | None => (Return p, {| fs := <[p := Dir]> (fs st); log := log st |})
      end
  end.

(** Non-recursive [mkdirSync] below a directory that exists. *)
Definition mkdirSync (p : string) : M unit := fun st =>
  match fs st !! p with
  | Some _ => (Throw (SystemError "EEXIST"), st)
  | None => (Return tt, {| fs := <[p := Dir]> (fs st); log := log st |})
  end.

Definition writeFileSync (p data : string) : M unit := fun st =>
  match fs st !! p with
  | Some Dir => (Throw (SystemError "EISDIR"), st)
  | _ => (Return tt, {| fs := <[p := File data]> (fs st);
                        log := log st ++ [Wrote p data] |})
  end.

Definition readFileSync (p : string) : M string := fun st =>
  match fs st !! p with
  | Some (File data) => (Return data, st)
  | Some Dir => (Throw (SystemError "EISDIR"), st)
  | None => (Throw (SystemError "ENOENT"), st)
  end.

Definition unlinkSync (p : string) : M unit := fun st =>
  match fs st !! p with
  | Some (File _) => (Return tt, {| fs := delete p (fs st); log := log st |})
  | Some Dir => (Throw (SystemError "EISDIR"), st)
  | None => (Throw (SystemError "ENOENT"), st)
  end.

(** [rmSync(dir, { recursive: true, force: true })]. *)
Definition rmSync (dir : string) : M unit := fun st =>
  (Return tt, {| fs := filter (fun kv => under dir kv.1 = false) (fs st);
                 log := log st |}).

(** ** [run] (render.js, lines 18-28)

    The subprocess leaves its output, if it produces one, at the path
    that ends its command line, and touches nothing else.  The
    promise resolves on exit code 0 and rejects otherwise. *)

Definition output_path (args : list arg) : option string :=
  match last args with
  | Some (Lit p) => Some p
  | _ => None
  end.

(** [code === 0]. *)
Definition exit_ok (code : option Z) : bool :=
  match code with
  | Some 0 => true
  | _ => false
  end.

(** The message of line 25. *)
Definition failure_message (code : option Z) (stderr : string) : string :=
  "ffmpeg failed (" +:+ String_of_code code +:+ "): " +:+ stderr.

Definition after_spawn (args : list arg) (written : option string) (m : FS) : FS :=
  match written, output_path args with
  | Some data, Some p => <[p := File data]> m
  | _, _ => m
  end.

Definition run (cmd : string) (args : list arg) (cwd : string) : M unit := fun st =>
  let '(code, stderr, written) := spawn h cmd args cwd (fs st) in
  let st' := {| fs := after_spawn args written (fs st);
                log := log st ++ [Spawned cmd args cwd code stderr] |} in
  if exit_ok code
  then (Return tt, st')
  else (Throw (Error (failure_message code stderr)), st').

(** ** [renderMp4] (render.js, lines 30-101) *)

(** The comparator of lines 40-41. *)
Definition by_originalname (a b : UploadedFile) : Z :=
  localeCompare h (originalname a) (originalname b).

(** [x || []]. *)
Definition or_empty {A} (x : option (list A)) : list A :=
  match x with Some l => l | None => [] end.

Definition vf : string :=
  "scale=1280:720:force_original_aspect_ratio=decrease,pad=1280:720:(ow-iw)/2:(oh-ih)/2,format=yuv420p".

(** Line 52. *)
Definition seg_path (tmp : string) (i : nat) : string :=
  path_join tmp ("seg_" +:+ padStart 3 "0"%char (String_of_nat i) +:+ ".mp4").

(** Line 55: [audios[i] ? audios[i].path : null], and the truth test
    of line 58, which an empty path fails as [null] does. *)
Definition audioFile (audios : list UploadedFile) (i : nat) : option string :=
  match audios !! i with
  | Some a => if String.eqb (path a) "" then None else Some (path a)
  | None => None
  end.

(** Lines 58-79. *)
Definition segment_args (imgPath : string) (audio : option string)
    (dur : Q) (seg : string) : list arg :=
  match audio with
  | Some audioFile =>
      [ Lit "-y";
        Lit "-loop"; Lit "1";
        Lit "-i"; Lit imgPath;
        Lit "-i"; Lit audioFile;
        Lit "-t"; Num dur;
        Lit "-vf"; Lit vf;
        Lit "-shortest";
        Lit "-r"; Lit "30";
        Lit "-c:v"; Lit "libx264";
        Lit "-c:a"; Lit "aac";
        Lit seg ]
  | None =>
      [ Lit "-y";
        Lit "-loop"; Lit "1";
        Lit "-i"; Lit imgPath;
        Lit "-t"; Num dur;
        Lit "-vf"; Lit vf;
        Lit "-r"; Lit "30";
        Lit "-c:v"; Lit "libx264";
        Lit seg ]
  end.

(** Line 90. *)
Definition concat_args (listFile out : string) : list arg :=
  [ Lit "-y"; Lit "-f"; Lit "concat"; Lit "-safe"; Lit "0";
    Lit "-i"; Lit listFile; Lit "-c"; Lit "copy"; Lit out ].

(** Line 87: the text written to list.txt. *)
Definition list_entry (f : string) : string :=
  "file '" +:+ replace_quotes f +:+ "'".

Definition list_text (segmentFiles : list string) : string :=
  String.concat newline (map list_entry segmentFiles).

(** Line 44. *)
Definition count_message (nimages nscenes : nat) : string :=
  "Images count (" +:+ String_of_nat nimages +:+ ") must match scenes ("
    +:+ String_of_nat nscenes +:+ ").".

(** The loop of lines 49-83, over the indices it visits; the array
    [segmentFiles] it pushes to is threaded through. *)
Fixpoint encode_scenes (tmp : string) (manifest : ManifestT)
    (imgs auds : list UploadedFile)
    (indices : list nat) (segmentFiles : list string) : M (list string) :=
  match indices with
  | [] => ret segmentFiles
  | i :: rest =>
      scene <- element (scenes manifest) i ;;
      let dur := duration_sec scene in
      image <- element imgs i ;;
      let imgPath := path image in
      let seg := seg_path tmp i in
      let args := segment_args imgPath (audioFile auds i) dur seg in
      run "ffmpeg" args tmp ;;;
      encode_scenes tmp manifest imgs auds rest (segmentFiles ++ [seg])
  end.

(** Lines 95-98, inside the [try]. *)
Fixpoint unlink_each (fl : list UploadedFile) : M unit :=
  match fl with
  | [] => ret tt
  | f :: rest => unlinkSync (path f) ;;; unlink_each rest
  end.

Definition cleanup (tmp : string) (imgs auds : list UploadedFile) : M unit :=
  try_catch_ignore (unlink_each (imgs ++ auds) ;;; rmSync tmp).

(** Lines 39-100: staging, the count check, the scenes, the concat
    run and the cleanup, inside the workspace [tmp]. *)
Definition render_in (tmp : string) (files : option Files)
    (manifest : ManifestT) : M string :=
  fl <- match files with Some fl => ret fl | None => throw TypeError end ;;
  let imgs := sort by_originalname (or_empty (images fl)) in
  let auds := sort by_originalname (or_empty (audios fl)) in
  if negb (length imgs =? length (scenes manifest))%nat
  then throw (Error (count_message (length imgs) (length (scenes manifest))))
  else
    segmentFiles <-
      encode_scenes tmp manifest imgs auds (seq 0 (length (scenes manifest))) [] ;;
    let listFile := path_join tmp "list.txt" in
    writeFileSync listFile (list_text segmentFiles) ;;;
    let out := path_join tmp "output.mp4" in
    run "ffmpeg" (concat_args listFile out) tmp ;;;
    buf <- readFileSync out ;;
    cleanup tmp imgs auds ;;;
    ret buf.

(** Lines 33-100, once the manifest is parsed: the workspace is
    allocated, then the rest runs in it. *)
Definition render (files : option Files) (manifest : ManifestT) : M string :=
  tmp <- mkdtempSync (path_join (tmpdir h) "creator-station-") ;;
  let imgDir := path_join tmp "imgs" in
  let audDir := path_join tmp "aud" in
  mkdirSync imgDir ;;;
  mkdirSync audDir ;;;
  render_in tmp files manifest.

(** Line 31, then the rest.  [manifestJson] reaches JSON.parse as a
    string ([undefined] is coerced to one that does not parse). *)
Definition renderMp4 (files : option Files) (manifestJson : string) : M string :=
  match JSON_parse h manifestJson with
  | None => throw SyntaxError
  | Some j =>
      match Manifest (Some j) with
      | None => throw ZodError
      | Some manifest => render files manifest
      end
  end.

End Render.

(** * The specification's reading of a manifest *)

(** The acceptance condition in the words of the specification: a JSON
    object with a [scenes] array of length at least 1, each element an
    object with a numeric [duration_sec] in the closed range [1, 60]
    and an optional boolean [hasAudio]. *)

Definition spec_duration_ok (v : option json) : bool :=
  match v with
  | Some (JNum q) => Qle_bool (1 # 1) q && Qle_bool q (60 # 1)
  | _ => false
  end.

Definition spec_hasAudio_ok (v : option json) : bool :=
  match v with
  | None => true
  | Some (JBool _) => true
  | Some _ => false
  end.

Definition spec_scene_ok (j : json) : bool :=
  match j with
  | JObj props =>
      spec_duration_ok (prop "duration_sec" props)
      && spec_hasAudio_ok (prop "hasAudio" props)
  | _ => false
  end.

Definition spec_accepts (j : json) : bool :=
  match j with
  | JObj props =>
      match prop "scenes" props with
      | Some (JArr items) => (1 <=? length items)%nat && forallb spec_scene_ok items
      | _ => false
      end
  | _ => false
  end.

(** The manifest an accepted document denotes: the duration as given,
    [hasAudio] as given or [false] when absent. *)
Definition spec_scene (j : json) : Scene :=
  match j with
  | JObj props =>
      {| duration_sec :=
           match prop "duration_sec" props with Some (JNum q) => q | _ => 0%Q end;
         hasAudio :=
           match prop "hasAudio" props with Some (JBool b) => b | _ => false end |}
  | _ => {| duration_sec := 0%Q; hasAudio := false |}
  end.

Definition spec_manifest (j : json) : ManifestT :=
  match j with
  | JObj props =>
      match prop "scenes" props with
      | Some (JArr items) => {| scenes := map spec_scene items |}
      | _ => {| scenes := [] |}
      end
  | _ => {| scenes := [] |}
  end.

(** The manifest [renderMp4] works from, if line 31 yields one. *)
Definition manifest_of (h : Host) (manifestJson : string) : option ManifestT :=
  match JSON_parse h manifestJson with
  | Some j => Manifest (Some j)
  | None => None
  end.


(** * Vocabulary for the properties *)

(** The prefix handed to [mkdtempSync] on line 33, and the directory
    the call allocates from a given file system, when it can. *)
Definition workspace_prefix (h : Host) : string :=
  path_join (tmpdir h) "creator-station-".

Definition workspace (h : Host) (m : FS) : option string :=
  match mkdtemp_suffix h m (workspace_prefix h) with
  | Some sfx => Some (workspace_prefix h +:+ sfx)
  | None => None
  end.

(** Nothing exists at or below [dir]. *)
Definition vacant (m : FS) (dir : string) : Prop :=
  forall p, under dir p = true -> m !! p = None.

(** The two sequences of lines 40-41. *)
Definition staged_images (h : Host) (fl : Files) : list UploadedFile :=
  sort (by_originalname h) (or_empty (images fl)).

Definition staged_audios (h : Host) (fl : Files) : list UploadedFile :=
  sort (by_originalname h) (or_empty (audios fl)).

(** A log entry that is not a failed subprocess. *)
Definition succeeded (e : Event) : bool :=
  match e with
  | Spawned _ _ _ code _ => exit_ok code
  | Wrote _ _ => true
  end.

(** [e] is the encoder run of scene [i]: the command line of lines
    58-79 for the [i]-th scene, the [i]-th image and the [i]-th audio
    file if there is one, run in the workspace. *)
Definition scene_spawn (tmp : string) (manifest : ManifestT)
    (imgs auds : list UploadedFile) (i : nat) (e : Event) : Prop :=
  exists scene image code stderr,
    scenes manifest !! i = Some scene /\
    imgs !! i = Some image /\
    e = Spawned "ffmpeg"
          (segment_args (path image) (audioFile auds i)
             (duration_sec scene) (seg_path tmp i))
          tmp code stderr.

(** How a run can end, seen from its log: every entry succeeded, or the
    last entry is a subprocess that failed, everything before it
    succeeded, and the run threw the error [run] builds from it. *)
Inductive run_shape {A : Type} : Completion A -> list Event -> Prop :=
| shape_clean r evs :
    Forall (fun e => succeeded e = true) evs ->
    run_shape r evs
| shape_failed evs cmd args cwd code stderr :
    Forall (fun e => succeeded e = true) evs ->
    exit_ok code = false ->
    run_shape (Throw (Error (failure_message code stderr)))
              (evs ++ [Spawned cmd args cwd code stderr]).

(** The log of a run of [render] that got past the count check: the
    encoder runs of scenes 0, 1, ... in this order, as far as the loop
    went, and, when the loop went through and list.txt could be written,
    that write followed by the concat run. *)
Definition render_events (tmp : string) (manifest : ManifestT)
    (imgs auds : list UploadedFile) (evs : list Event) : Prop :=
  let n := length (scenes manifest) in
  exists evs1 evs2,
    evs = evs1 ++ evs2 /\
    Forall2 (scene_spawn tmp manifest imgs auds) (take (length evs1) (seq 0 n)) evs1 /\
    (evs2 = [] \/
     length evs1 = n /\
     exists code stderr,
       evs2 = [ Wrote (path_join tmp "list.txt")
                  (list_text (map (seg_path tmp) (seq 0 n)));
                Spawned "ffmpeg"
                  (concat_args (path_join tmp "list.txt") (path_join tmp "output.mp4"))
                  tmp code stderr ]).

(** A run of lines 39-100 in the workspace [tmp] that ended with [r]
    and added [evs] to the log: the log has the shape of [run_shape],
    and either the run threw before the first scene and logged nothing,
    or the count check passed and the log is as [render_events] says,
    complete when the run returned. *)
Definition render_summary (h : Host) (tmp : string) (files : option Files)
    (manifest : ManifestT) (r : Completion string) (evs : list Event) : Prop :=
  run_shape r evs /\
  ((evs = [] /\ forall buf, r <> Return buf) \/
   exists fl,
     files = Some fl /\
     length (staged_images h fl) = length (scenes manifest) /\
     render_events tmp manifest (staged_images h fl) (staged_audios h fl) evs /\
     (forall buf, r = Return buf -> length evs = (length (scenes manifest) + 2)%nat)).

(** Every subprocess exits with code 0 and leaves its output. *)
Definition reliable (h : Host) : Prop :=
  forall cmd args cwd m,
    exists stderr data, spawn h cmd args cwd m = (Some 0, stderr, Some data).

(** * The encoder's contract *)




(** * Statements the properties below settle *)

(** An error thrown for a failed scene tells which scene it was: some
    reading of the error recovers the index of the scene whose encoder
    run failed. *)
Definition error_tells_scene : Prop :=
  exists index_of : JsError -> nat,
    forall (h : Host) files manifestJson manifest st e st' evs cmd args cwd code stderr,
      manifest_of h manifestJson = Some manifest ->
      renderMp4 h files manifestJson st = (Throw e, st') ->
      log st' = log st ++ evs ++ [Spawned cmd args cwd code stderr] ->
      code <> Some 0 ->
      (length evs < length (scenes manifest))%nat ->
      index_of e = length evs.


(** [a] comes no later than [b] under the comparator [cmp]. *)
Definition cmp_le {A : Type} (cmp : A -> A -> Z) (a b : A) : Prop := cmp a b <= 0.

(** No two different files of [l] have names that tie under the
    platform's comparison. *)
Definition no_ties (h : Host) (l : list UploadedFile) : Prop :=
  forall a b, a ∈ l -> b ∈ l ->
    by_originalname h a b <= 0 -> by_originalname h b a <= 0 -> a = b.

(** Comparison of the code units, one of the orders [localeCompare] may
    implement. *)
Definition bytewise (a b : string) : Z :=
  match String.compare a b with
  | Lt => -1
  | Eq => 0
  | Gt => 1
  end.

(** Staging as the specification words it, in two parts: on every
    platform each staged sequence is in byte-wise order of the original
    names; and it is the same whatever order the uploads arrived in. *)
Definition staged_in_byte_order : Prop :=
  forall (h : Host) (arrival : list UploadedFile),
    Sorted (fun a b => bytewise (originalname a) (originalname b) <= 0)
           (sort (by_originalname h) arrival).

Definition staged_whatever_arrival : Prop :=
  forall (h : Host) (arrival arrival' : list UploadedFile),
    arrival ≡ₚ arrival' ->
    sort (by_originalname h) arrival = sort (by_originalname h) arrival'.

(** * Sample platforms and requests *)

Definition dq : string := String "034"%char EmptyString.
Definition quoted (s : string) : string := dq +:+ s +:+ dq.

(** Two scenes of 5 and 8 seconds; only the second says [hasAudio]. *)
Definition two_scenes_text : string :=
  "{" +:+ quoted "scenes" +:+ ":[{" +:+ quoted "duration_sec" +:+ ":5},{"
    +:+ quoted "duration_sec" +:+ ":8," +:+ quoted "hasAudio" +:+ ":true}]}".

Definition two_scenes : json :=
  JObj [("scenes",
         JArr [ JObj [("duration_sec", JNum (5 # 1))];
                JObj [("duration_sec", JNum (8 # 1)); ("hasAudio", JBool true)] ])].

(** The same durations with the [hasAudio] values the other way round. *)
Definition two_scenes_flipped_text : string :=
  "{" +:+ quoted "scenes" +:+ ":[{" +:+ quoted "duration_sec" +:+ ":5,"
    +:+ quoted "hasAudio" +:+ ":true},{" +:+ quoted "duration_sec" +:+ ":8,"
    +:+ quoted "hasAudio" +:+ ":false}]}".

Definition two_scenes_flipped : json :=
  JObj [("scenes",
         JArr [ JObj [("duration_sec", JNum (5 # 1)); ("hasAudio", JBool true)];
                JObj [("duration_sec", JNum (8 # 1)); ("hasAudio", JBool false)] ])].

(** A scene of 0 seconds: well-formed JSON that the schema refuses. *)
Definition zero_duration_text : string :=
  "{" +:+ quoted "scenes" +:+ ":[{" +:+ quoted "duration_sec" +:+ ":0}]}".

Definition zero_duration : json :=
  JObj [("scenes", JArr [ JObj [("duration_sec", JNum (0 # 1))] ])].

(** JSON.parse on the documents above; any other text is taken not to
    parse. *)
Definition sample_parse (s : string) : option json :=
  if String.eqb s two_scenes_text then Some two_scenes
  else if String.eqb s two_scenes_flipped_text then Some two_scenes_flipped
  else if String.eqb s zero_duration_text then Some zero_duration
  else None.

(** An order that ignores the case of ASCII letters, as locale-aware
    collations do at first: "a.png" comes before "B.png". *)
Definition lower (c : ascii) : ascii :=
  let n := nat_of_ascii c in
  if (65 <=? n)%nat && (n <=? 90)%nat then ascii_of_nat (n + 32) else c.

Fixpoint fold_case (s : string) : string :=
  match s with
  | EmptyString => EmptyString
  | String c rest => String (lower c) (fold_case rest)
  end.

Definition caseless (a b : string) : Z := bytewise (fold_case a) (fold_case b).

(** A platform whose temporary directory is /tmp/creator-station-AbC123
    and whose encoder succeeds, except on the scene named by [failing],
    where it exits with code 1 after printing "boom". *)
Definition sample_host (compare : string -> string -> Z) (failing : option nat) : Host := {|
  JSON_parse := sample_parse;
  localeCompare := compare;
  tmpdir := "/tmp";
  mkdtemp_suffix := fun _ _ => Some "AbC123";
  spawn := fun _ args cwd _ =>
    match failing, output_path args with
    | Some k, Some out =>
        if String.eqb out (seg_path cwd k)
        then (Some 1, "boom", None)
        else (Some 0, "", Some "mp4")
    | _, _ => (Some 0, "", Some "mp4")
    end
|}.





Definition upload (name file : string) : UploadedFile :=
  {| originalname := name; path := file |}.

(** Two images, uploaded second scene first, and one narration. *)
Definition sample_files : Files := {|
  images := Some [ upload "02.png" "/tmp/uploads/f1"; upload "01.png" "/tmp/uploads/f2" ];
  audios := Some [ upload "01.mp3" "/tmp/uploads/f3" ]
|}.

(** One image only. *)
Definition short_files : Files := {|
  images := Some [ upload "01.png" "/tmp/uploads/f2" ];
  audios := None
|}.

Definition sample_fs : FS :=
  <["/tmp/uploads/f1" := File "png 2"]>
    (<["/tmp/uploads/f2" := File "png 1"]>
       (<["/tmp/uploads/f3" := File "mp3 1"]> ∅)).

Definition sample_state : State := {| fs := sample_fs; log := [] |}.


(** The same two images in the other order of arrival. *)
Definition sample_files_swapped : Files := {|
  images := Some [ upload "01.png" "/tmp/uploads/f2"; upload "02.png" "/tmp/uploads/f1" ];
  audios := Some [ upload "01.mp3" "/tmp/uploads/f3" ]
|}.

(** Two uploads under one name. *)
Definition twin_a : UploadedFile := upload "scene.png" "/tmp/uploads/f1".
Definition twin_b : UploadedFile := upload "scene.png" "/tmp/uploads/f2".


(** * The render endpoint (server.js, app.post('/api/render-video')) *)

(** What the handler puts into the response itself. *)
Inductive ResponseBody : Type :=
| Sent (data : string)   (* res.send(buf) *)
| Json (j : json).       (* res.json(value) *)

Record Response : Type := {
  status : nat;
  headers : list (string * string);
  body : ResponseBody
}.

(** The request as the upload middleware leaves it: [req.files], and
    the text field [manifest] of [req.body], [None] when the form has no
    such field. *)
Record RenderRequest : Type := {
  req_files : option Files;
  req_manifest : option string
}.

(** [e.message].  An [Error] carries the message it was built with; the
    text of the errors the runtime and the libraries build is theirs. *)
Definition message (runtime_text : JsError -> string) (e : JsError) : string :=
  match e with
  | Error m => m
  | _ => runtime_text e
  end.

(** [s || fallback] for strings. *)
Definition or_else (s fallback : string) : string :=
  if String.eqb s "" then fallback else s.

(** The handler: the status is 200 unless [res.status] is called.
    [JSON.parse] turns a missing manifest into the text "undefined"
    before it parses. *)
Definition render_video (h : Host) (runtime_text : JsError -> string)
    (req : RenderRequest) (st : State) : Response * State :=
  let manifestJson :=
    match req_manifest req with Some s => s | None => "undefined" end in
  match renderMp4 h (req_files req) manifestJson st with
  | (Return buf, st') =>
      ({| status := 200;
          headers := [ ("Content-Type", "video/mp4");
                       ("Content-Disposition",
                        "attachment; filename=" +:+ String "034"%char "creator-station.mp4"
                          +:+ String "034"%char "") ];
          body := Sent buf |}, st')
  | (Throw e, st') =>
      ({| status := 400;
          headers := [];
          body := Json (JObj [ ("ok", JBool false);
                               ("error", JStr (or_else (message runtime_text e)
                                                  "Render failed")) ]) |}, st')
  end.

(** * The client's export (App.jsx, exportMp4)

    A scene of the analysis as the export reads it: [duration_sec] is a
    number or missing, the two assets are base64 text, empty until they
    are generated. *)

Record ClientScene : Type := {
  scene_duration : option Q;
  imageBase64 : string;
  audioBase64 : string
}.

Record Analysis : Type := { analysis_scenes : option (list ClientScene) }.

(** [clamp(n, a, b)]: [Math.max(a, Math.min(b, n))]. *)
Definition clamp (n a b : Q) : Q := Qmax a (Qmin b n).

(** [!!s] for a string. *)
Definition truthy (s : string) : bool := negb (String.eqb s "").

(** [Number(s.duration_sec || timingRuleSeconds)]: a missing or zero
    duration gives way to the timing rule. *)
Definition duration_or_rule (s : ClientScene) (timingRuleSeconds : Q) : Q :=
  match scene_duration s with
  | Some q => if Qeq_bool q 0 then timingRuleSeconds else q
  | None => timingRuleSeconds
  end.

(** The object handed to JSON.stringify. *)
Definition client_manifest (scenes : list ClientScene) (timingRuleSeconds : Q) : json :=
  JObj [("scenes",
         JArr (map (fun s =>
                      JObj [ ("duration_sec",
                              JNum (clamp (duration_or_rule s timingRuleSeconds)
                                      (1 # 1) (60 # 1)));
                             ("hasAudio", JBool (truthy (audioBase64 s))) ])
                   scenes))].

Definition image_name (i : nat) : string :=
  "scene_" +:+ padStart 3 "0"%char (String_of_nat i) +:+ ".png".

Definition audio_name (i : nat) : string :=
  "scene_" +:+ padStart 3 "0"%char (String_of_nat i) +:+ ".mp3".

(** A part of the multipart form: the file name and the content. *)
Record FormFile : Type := { filename : string; content : string }.

(** The loop that appends the files: every scene gives an image part,
    and an audio part only when it has audio. *)
Fixpoint form_files (i : nat) (scenes : list ClientScene)
    : list FormFile * list FormFile :=
  match scenes with
  | [] => ([], [])
  | s :: rest =>
      let '(imgs, auds) := form_files (S i) rest in
      ({| filename := image_name i; content := imageBase64 s |} :: imgs,
       if truthy (audioBase64 s)
       then {| filename := audio_name i; content := audioBase64 s |} :: auds
       else auds)
  end.

Inductive ExportOutcome : Type :=
| NothingToDo
| Alerted (msg : string)
| Posted (manifest : json) (images audios : list FormFile).

(** [exportMp4] up to the request it sends. *)
Definition exportMp4 (analysis : option Analysis) (timingRuleSeconds : Q) : ExportOutcome :=
  match analysis with
  | None => NothingToDo
  | Some a =>
      let scenes := or_empty (analysis_scenes a) in
      let images := filter (fun s => truthy (imageBase64 s) = true) scenes in
      if negb (length images =? length scenes)%nat
      then Alerted "Generate all images first (MP4 needs one image per scene)."
      else
        let '(imgs, auds) := form_files 0 scenes in
        Posted (client_manifest scenes timingRuleSeconds) imgs auds
  end.

(** The limit [maxCount: 200] that [upload.fields] puts on each of the
    two form fields (server.js, line 135). *)
Definition maxCount : nat := 200.

(** What the upload middleware makes of the parts of one form field.
    With more than [maxCount] parts it fails, the handler is never
    called and the request is answered by the framework's own error
    response.  Otherwise the handler gets the uploads in the order of
    the parts, each stored under a path of the server's choosing, and
    no array at all when the field has no part. *)
Inductive Field : Type :=
| TooMany
| Received (files : option (list UploadedFile)).

Definition received (parts : list FormFile) (paths : list string) : Field :=
  if (maxCount <? length parts)%nat then TooMany
  else
    Received
      match parts with
      | [] => None
      | _ => Some (zip_with (fun part file => upload (filename part) file) parts paths)
      end.

(** The indices, counted from [i], of the scenes that have audio. *)
Fixpoint audio_indices (i : nat) (scenes : list ClientScene) : list nat :=
  match scenes with
  | [] => []
  | s :: rest =>
      if truthy (audioBase64 s)
      then i :: audio_indices (S i) rest
      else audio_indices (S i) rest
  end.

(** The names [name 0], ..., [name n] are in ascending byte order, each
    next to its successor. *)
Definition ascending_upto (name : nat -> string) (n : nat) : bool :=
  forallb (fun i => bytewise (name i) (name (S i)) <=? 0) (seq 0 n).

(** A platform on which the manifest text of a request parses to [j],
    with the sample platform's workspace and encoder. *)
Definition echo_host (j : json) : Host := {|
  JSON_parse := fun _ => Some j;
  localeCompare := bytewise;
  tmpdir := "/tmp";
  mkdtemp_suffix := fun _ _ => Some "AbC123";
  spawn := fun _ _ _ _ => (Some 0, "", Some "mp4")
|}.

(** Two scenes; only the second has narration. *)
Definition second_narrated : list ClientScene :=
  [ {| scene_duration := Some (5 # 1); imageBase64 := "aW1nMA=="; audioBase64 := "" |};
    {| scene_duration := Some (8 # 1); imageBase64 := "aW1nMQ=="; audioBase64 := "YXVkMQ==" |} ].

(** * JavaScript values and strings, as the request handlers use them

    A string is the sequence of its UTF-16 code units, and [length]
    counts them.  The strings of this development are those whose code
    units are below 256, one character each. *)

(** [!!v]: [undefined] ([None]), [null], [false], zero and the empty
    string are falsy. *)
Definition ToBoolean (v : option json) : bool :=
  match v with
  | None | Some JNull => false
  | Some (JBool b) => b
  | Some (JNum q) => negb (Qeq_bool q 0)
  | Some (JStr s) => negb (String.eqb s "")
  | Some (JArr _) | Some (JObj _) => true
  end.

(** [a ?? b]: [b] stands in for [undefined] and [null] only. *)
Definition nullish_or (a : option json) (b : option json) : option json :=
  match a with
  | None | Some JNull => b
  | Some _ => a
  end.

(** [v?.key] for a key that is no built-in property of arrays, strings,
    numbers or booleans: only an object can have it. *)
Definition get (key : string) (v : option json) : option json :=
  match v with
  | Some (JObj props) => prop key props
  | _ => None
  end.

(** [v?.[0]]: the first element of an array, the first character of a
    string, the property "0" of an object. *)
Definition first (v : option json) : option json :=
  match v with
  | Some (JArr items) => head items
  | Some (JStr (String c _)) => Some (JStr (String c EmptyString))
  | Some (JObj props) => prop "0" props
  | _ => None
  end.

(** White space and line terminators, the characters [trim] removes and
    [\s] matches (below 256). *)
Definition is_space (c : ascii) : bool :=
  match N_of_ascii c with
  | 9 | 10 | 11 | 12 | 13 | 32 | 160 => true
  | _ => false
  end%N.

Fixpoint trimStart (s : string) : string :=
  match s with
  | EmptyString => EmptyString
  | String c rest => if is_space c then trimStart rest else s
  end.

Fixpoint trimEnd (s : string) : string :=
  match s with
  | EmptyString => EmptyString
  | String c rest =>
      match trimEnd rest with
      | EmptyString => if is_space c then EmptyString else String c EmptyString
      | kept => String c kept
      end
  end.

Definition trim (s : string) : string := trimEnd (trimStart s).

(** [s.indexOf(c)] and [s.lastIndexOf(c)] for a one-character [c];
    [None] is the result -1. *)
Fixpoint indexOf (c : ascii) (s : string) : option nat :=
  match s with
  | EmptyString => None
  | String d rest =>
      if Ascii.eqb d c then Some 0%nat
      else match indexOf c rest with Some i => Some (S i) | None => None end
  end.

Fixpoint lastIndexOf (c : ascii) (s : string) : option nat :=
  match s with
  | EmptyString => None
  | String d rest =>
      match lastIndexOf c rest with
      | Some i => Some (S i)
      | None => if Ascii.eqb d c then Some 0%nat else None
      end
  end.

(** [s.slice(a, b)] for indices that are not negative. *)
Definition slice (a b : nat) (s : string) : string := String.substring a (b - a) s.

(** [s.includes(t)]. *)
Fixpoint includes (t s : string) : bool :=
  String.prefix t s ||
  match s with
  | EmptyString => false
  | String _ rest => includes t rest
  end.

(** [s.toLowerCase()]: the letters A-Z, and the capital letters of the
    Latin-1 range (192-222 without the multiplication sign 215). *)
Definition toLowerCase_char (c : ascii) : ascii :=
  let n := N_of_ascii c in
  if ((65 <=? n) && (n <=? 90) || (192 <=? n) && (n <=? 222) && negb (n =? 215))%N
  then ascii_of_N (n + 32) else c.

Fixpoint toLowerCase (s : string) : string :=
  match s with
  | EmptyString => EmptyString
  | String c rest => String (toLowerCase_char c) (toLowerCase rest)
  end.

(** A JavaScript number that need not come from JSON. *)
Inductive double : Type :=
| NaN
| Infinity (negative : bool)
| Finite (q : Q).

(** [Math.min(a, b)]. *)
Definition Math_min (a b : double) : double :=
  match a, b with
  | NaN, _ | _, NaN => NaN
  | Infinity true, _ | _, Infinity true => Infinity true
  | Infinity false, x | x, Infinity false => x
  | Finite p, Finite q => Finite (Qmin p q)
  end.

(** What the runtime and its libraries compute, taken as given: the
    decimal text of a number, the number a text denotes,
    [JSON.stringify], and the two encodings of [Buffer]. *)
Record Runtime : Type := {
  Number_toString : Q -> string;
  StringToNumber : string -> double;
  JSON_stringify : json -> string;
  base64 : string -> string;
  utf8 : string -> string
}.

(** [items.map(f)] for an [f] that may throw. *)
Definition map_throwing {A B} (f : A -> Completion B) : list A -> Completion (list B) :=
  fix go (items : list A) : Completion (list B) :=
    match items with
    | [] => Return []
    | x :: rest =>
        match f x with
        | Throw e => Throw e
        | Return y =>
            match go rest with
            | Throw e => Throw e
            | Return ys => Return (y :: ys)
            end
        end
    end.

(** [String(v)].  An array prints its elements separated by commas,
    [null] elements as nothing.  An object is printed by the [toString]
    it finds: the inherited one gives "[object Object]"; an own
    property of that name, which in a JSON value is never a function,
    leaves the conversion without a method (the inherited [valueOf]
    returns the object itself), and it throws a TypeError. *)
Fixpoint ToString (rt : Runtime) (v : json) : Completion string :=
  match v with
  | JNull => Return "null"
  | JBool true => Return "true"
  | JBool false => Return "false"
  | JNum q => Return (Number_toString rt q)
  | JStr s => Return s
  | JArr items =>
      match map_throwing
              (fun x => match x with JNull => Return EmptyString | _ => ToString rt x end)
              items with
      | Return texts => Return (String.concat "," texts)
      | Throw e => Throw e
      end
  | JObj props =>
      match prop "toString" props with
      | Some _ => Throw TypeError
      | None => Return "[object Object]"
      end
  end.

(** [Number(v)].  An array or an object is first turned into a
    primitive, which ends in the [toString] above: the [valueOf] an
    object has is either the inherited one, which returns the object,
    or an own property that is no function. *)
Definition ToNumber (rt : Runtime) (v : json) : Completion double :=
  match v with
  | JNull => Return (Finite 0)
  | JBool true => Return (Finite 1)
  | JBool false => Return (Finite 0)
  | JNum q => Return (Finite q)
  | JStr s => Return (StringToNumber rt s)
  | JArr _ | JObj _ =>
      match ToString rt v with
      | Return s => Return (StringToNumber rt s)
      | Throw e => Throw e
      end
  end.

(** [JSON.stringify] of a number: [NaN] and the infinities print as
    [null]. *)
Definition json_of_double (d : double) : json :=
  match d with
  | Finite q => JNum q
  | _ => JNull
  end.

(** ** More of zod: strings, enumerations, integers, larger objects *)

Module zs.

Definition string : z.ZodType string := fun i =>
  match i with Some (JStr s) => Some s | _ => None end.

(** [.min(n)] on a string schema. *)
Definition min_length (n : nat) (s : z.ZodType String.string) : z.ZodType String.string := fun i =>
  match s i with
  | Some t => if (n <=? String.length t)%nat then Some t else None
  | None => None
  end.

(** [z.enum([...])]. *)
Definition enum (values : list String.string) : z.ZodType String.string := fun i =>
  match i with
  | Some (JStr s) => if existsb (String.eqb s) values then Some s else None
  | _ => None
  end.

(** [.int()]: [Number.isInteger], the denominator divides the numerator. *)
Definition int (s : z.ZodType Q) : z.ZodType Q := fun i =>
  match s i with
  | Some q => if (Qnum q mod Zpos (Qden q) =? 0)%Z then Some q else None
  | None => None
  end.

(** [.default(d)] on a schema that is not optional. *)
Definition default {A} (d : json) (s : z.ZodType A) : z.ZodType A := fun i =>
  s (Some (match i with Some j => j | None => d end)).

Definition object3 {A B C R} (k1 : String.string) (s1 : z.ZodType A)
    (k2 : String.string) (s2 : z.ZodType B) (k3 : String.string) (s3 : z.ZodType C)
    (mk : A -> B -> C -> R) : z.ZodType R := fun i =>
  match i with
  | Some (JObj props) =>
      match s1 (prop k1 props), s2 (prop k2 props), s3 (prop k3 props) with
      | Some a, Some b, Some c => Some (mk a b c)
      | _, _, _ => None
      end
  | _ => None
  end.

Definition object4 {A B C D R} (k1 : String.string) (s1 : z.ZodType A)
    (k2 : String.string) (s2 : z.ZodType B) (k3 : String.string) (s3 : z.ZodType C)
    (k4 : String.string) (s4 : z.ZodType D)
    (mk : A -> B -> C -> D -> R) : z.ZodType R := fun i =>
  match i with
  | Some (JObj props) =>
      match s1 (prop k1 props), s2 (prop k2 props), s3 (prop k3 props), s4 (prop k4 props) with
      | Some a, Some b, Some c, Some d => Some (mk a b c d)
      | _, _, _, _ => None
      end
  | _ => None
  end.

End zs.

(** * Configuration from the environment (src/vertex.js)

    [process.env]: the variables that are set; one that is not set
    reads as [undefined]. *)

Abbreviation Env := (gmap string string).

(** [a || b] for strings that may be undefined. *)
Definition or_undefined (a b : option string) : option string :=
  match a with
  | Some s => if String.eqb s "" then b else a
  | None => b
  end.

(** [a || d] with a literal [d]. *)
Definition or_default (a : option string) (d : string) : string :=
  match a with
  | Some s => or_else s d
  | None => d
  end.

Module vertex.

(** The client is fixed by the project and the location it is built
    for. *)
Record VertexClient : Type := { project : string; location : string }.

Definition missing_project : string :=
  "Missing GCP_PROJECT_ID (or GOOGLE_CLOUD_PROJECT). Set it as an env var.".

Definition getVertexClient (env : Env) : Completion VertexClient :=
  let project := or_undefined (env !! "GCP_PROJECT_ID") (env !! "GOOGLE_CLOUD_PROJECT") in
  let location := or_default (env !! "GCP_LOCATION") "us-central1" in
  match project with
  | Some p =>
      if String.eqb p "" then Throw (Error missing_project)
      else Return {| project := p; location := location |}
  | None => Throw (Error missing_project)
  end.

Definition getGeminiModelId (env : Env) : string :=
  or_default (env !! "VERTEX_GEMINI_MODEL") "gemini-1.5-flash-002".

Definition getImagenModelId (env : Env) : string :=
  or_default (env !! "VERTEX_IMAGEN_MODEL") "imagen-3.0-generate-001".

End vertex.

(** * Speech (src/tts.js) *)

Module tts.

Record TTSReqT : Type := { text : string; voice : string; speakingRate : Q }.

(** The doubles the literals 0.7 and 1.3 denote. *)
Definition d0_7 : Q := 3152519739159347 # 4503599627370496.
Definition d1_3 : Q := 5854679515581645 # 4503599627370496.

Definition TTSReq : z.ZodType TTSReqT :=
  zs.object3
    "text" (zs.min_length 1 zs.string)
    "voice" (z.default (JStr "Default")
               (z.optional (zs.enum ["Fenrir"; "Puck"; "Zephyr"; "Nova"; "Default"])))
    "speakingRate" (z.default (JNum 1) (z.optional (z.max d1_3 (z.min d0_7 z.number))))
    Build_TTSReqT.

Record Voice : Type := { languageCode : string; name : string }.

(** The own properties of [VOICE_MAP].  (The names an object inherits,
    such as [constructor], are not among the voices of the schema.) *)
Definition VOICE_MAP : list (string * Voice) :=
  [ ("Default", {| languageCode := "en-US"; name := "en-US-Neural2-D" |});
    ("Fenrir", {| languageCode := "en-US"; name := "en-US-Neural2-D" |});
    ("Puck", {| languageCode := "en-US"; name := "en-US-Neural2-A" |});
    ("Zephyr", {| languageCode := "en-US"; name := "en-US-Neural2-F" |});
    ("Nova", {| languageCode := "en-US"; name := "en-US-Neural2-C" |}) ].

Fixpoint lookup_voice (key : string) (m : list (string * Voice)) : option Voice :=
  match m with
  | [] => None
  | (k, v) :: rest => if String.eqb k key then Some v else lookup_voice key rest
  end.

(** The argument of [client.synthesizeSpeech]. *)
Record SynthesisRequest : Type := {
  input_text : string;
  voice_languageCode : string;
  voice_name : string;
  audioEncoding : string;
  audio_speakingRate : Q
}.

(** [response.audioContent]: nothing ([undefined] or [null]), a string,
    or bytes, in a [Buffer] or in a plain [Uint8Array]. *)
Inductive AudioContent : Type :=
| NoContent
| Text (s : string)
| Bytes (isBuffer : bool) (data : string).

Definition disabled : json :=
  JObj [ ("ok", JBool false);
         ("error", JStr "TTS disabled by server env var DISABLE_TTS=1") ].

Definition no_audio : json :=
  JObj [ ("ok", JBool false); ("error", JStr "No audio generated.") ].

(** [generateSpeech(body)]: the completion, and the requests made to
    the speech service on the way.  [synthesizeSpeech] is the service:
    it resolves with a response or rejects. *)
Definition generateSpeech (rt : Runtime) (env : Env)
    (synthesizeSpeech : SynthesisRequest -> Completion AudioContent)
    (body : option json) : Completion json * list SynthesisRequest :=
  if bool_decide (env !! "DISABLE_TTS" = Some "1") then (Return disabled, [])
  else
    match TTSReq body with
    | None => (Throw ZodError, [])
    | Some r =>
        let v :=
          match lookup_voice (voice r) VOICE_MAP with
          | Some v => Some v
          | None => lookup_voice "Default" VOICE_MAP
          end in
        match v with
        | None => (Throw TypeError, [])
        | Some v =>
            let request :=
              {| input_text := text r;
                 voice_languageCode := languageCode v;
                 voice_name := name v;
                 audioEncoding := "MP3";
                 audio_speakingRate := speakingRate r |} in
            (match synthesizeSpeech request with
             | Throw e => Throw e
             | Return audioContent =>
                 match audioContent with
                 | NoContent => Return no_audio
                 | Text EmptyString => Return no_audio
                 | Text s =>
                     Return (JObj [ ("ok", JBool true);
                                    ("audioBase64", JStr (base64 rt (utf8 rt s)));
                                    ("mime", JStr "audio/mpeg") ])
                 | Bytes _ data =>
                     Return (JObj [ ("ok", JBool true);
                                    ("audioBase64", JStr (base64 rt data));
                                    ("mime", JStr "audio/mpeg") ])
                 end
             end, [request])
        end
    end.

End tts.

(** * The JSON endpoints (server.js)

    [try { res.json(data) } catch (e) { res.status(400).json(...) }]:
    the status is 200 unless [res.status] is called. *)
Definition answer (runtime_text : JsError -> string) (fallback : string)
    (c : Completion json) : Response :=
  match c with
  | Return data => {| status := 200; headers := []; body := Json data |}
  | Throw e =>
      {| status := 400; headers := [];
         body := Json (JObj [ ("ok", JBool false);
                              ("error", JStr (or_else (message runtime_text e) fallback)) ]) |}
  end.

(** [app.post('/api/generate-speech', ...)]. *)
Definition generate_speech (rt : Runtime) (runtime_text : JsError -> string) (env : Env)
    (synthesizeSpeech : tts.SynthesisRequest -> Completion tts.AudioContent)
    (body : option json) : Response :=
  answer runtime_text "TTS failed" (fst (tts.generateSpeech rt env synthesizeSpeech body)).

(** A variable that is not set, or set to the empty string. *)
Definition unset_or_empty (v : option string) : Prop := v = None \/ v = Some EmptyString.

(** * The client's speech requests (App.jsx, generateAllAudio) *)

Definition VOICES : list string := ["Fenrir"; "Puck"; "Zephyr"; "Nova"; "Default"].

(** The double the literal 1.15 denotes. *)
Definition d1_15 : Q := 2589569785738035 # 2251799813685248.

(** The body posted for one scene; [None] when the scene is skipped
    because its narration is blank. *)
Definition speech_body (narration voice presetId : string) : option json :=
  let text := trim narration in
  if negb (truthy text) then None
  else Some (JObj [ ("text", JStr text);
                    ("voice", JStr voice);
                    ("speakingRate",
                     JNum (if String.eqb presetId "productivity-sketch" then d1_15 else 1)) ]).

(** A speech service that answers every request with the same content. *)
Definition constant_service (c : tts.AudioContent)
    : tts.SynthesisRequest -> Completion tts.AudioContent :=
  fun _ => Return c.

(** A runtime whose encodings leave the data as it is; numbers are not
    printed. *)
Definition plain_runtime : Runtime := {|
  Number_toString := fun _ => "0";
  StringToNumber := fun _ => NaN;
  JSON_stringify := fun _ => "{}";
  base64 := fun s => s;
  utf8 := fun s => s
|}.

(** * The generative model behind the image and analysis routines

    The argument of [model.generateContent]: the client and model id
    the model object was made from, the texts of the parts of the one
    user message, and the generation settings. *)
Record GenerateRequest : Type := {
  client : vertex.VertexClient;
  model : string;
  parts : list string;
  temperature : Q;
  maxOutputTokens : nat
}.

(** The model service: it resolves with a response ([None] when the
    response is [undefined]) or rejects. *)
Abbreviation Model := (GenerateRequest -> Completion (option json)).

(** [resp?.response?.candidates?.[0]?.content?.parts]. *)
Definition response_parts (resp : option json) : option json :=
  get "parts" (get "content" (first (get "candidates" (get "response" resp)))).

(** * Images (src/imagen.js) *)

Module imagen.

Record ImageReqT : Type := { prompt : string; suffix : string; aspect : string }.

Definition ImageReq : z.ZodType ImageReqT :=
  zs.object3
    "prompt" (zs.min_length 5 zs.string)
    "suffix" (z.default (JStr "") (z.optional zs.string))
    "aspect" (z.default (JStr "16:9") (z.optional (zs.enum ["16:9"; "1:1"; "9:16"])))
    Build_ImageReqT.

Record Size : Type := { width : Z; height : Z }.

Definition aspectToSize (aspect : string) : Size :=
  if String.eqb aspect "1:1" then {| width := 1024; height := 1024 |}
  else if String.eqb aspect "9:16" then {| width := 768; height := 1365 |}
  else {| width := 1280; height := 720 |}.

(** The template of line 66. *)
Definition fullPrompt (prompt suffix : string) : string :=
  trim (prompt +:+ (if truthy suffix then " " +:+ suffix else EmptyString)).

(** The object whose JSON text is the one part of the request. *)
Definition image_order (fullPrompt : string) (size : Size) : json :=
  JObj [ ("prompt", JStr fullPrompt);
         ("image", JObj [ ("width", JNum (inject_Z (width size)));
                          ("height", JNum (inject_Z (height size))) ]);
         ("safetySettings", JStr "default") ].

(** The double the literal 0.2 denotes. *)
Definition d0_2 : Q := 3602879701896397 # 18014398509481984.

(** [p.text || ''] for a part [p], as [join] then prints it; reading a
    property of [null] throws. *)
Definition part_text (rt : Runtime) (p : json) : Completion string :=
  match p with
  | JNull => Throw TypeError
  | _ =>
      let t := get "text" (Some p) in
      if ToBoolean t
      then match t with Some v => ToString rt v | None => Return EmptyString end
      else Return EmptyString
  end.

(** Lines 80-81: the texts of the parts, one per line.  A value that is
    truthy but no array has no [map]. *)
Definition joined (rt : Runtime) (resp : option json) : Completion string :=
  let parts := response_parts resp in
  match (if ToBoolean parts then parts else Some (JArr [])) with
  | Some (JArr items) =>
      match map_throwing (part_text rt) items with
      | Return texts => Return (String.concat newline texts)
      | Throw e => Throw e
      end
  | _ => Throw TypeError
  end.

(** ** The two patterns of line 85

    [strip p s]: the rest of [s] after the prefix [p]. *)
Fixpoint strip (p s : string) : option string :=
  match p, s with
  | EmptyString, _ => Some s
  | String a p', String b s' => if Ascii.eqb a b then strip p' s' else None
  | String _ _, EmptyString => None
  end.

(** The longest prefix of characters that satisfy [ok], and the rest. *)
Fixpoint span (ok : ascii -> bool) (s : string) : string * string :=
  match s with
  | EmptyString => (EmptyString, EmptyString)
  | String c rest =>
      if ok c
      then let '(run, tail) := span ok rest in (String c run, tail)
      else (EmptyString, s)
  end.

Definition is_quote (c : ascii) : bool := Ascii.eqb c "034"%char.

(** The first pattern, tried at the start of [s]: the word data in
    double quotes, white space, a colon, white space, a double quote,
    one or more characters other than a double quote (the group), a
    double quote.  The result is the group.  Each greedy repetition is
    followed by a character it cannot match itself, so backing off
    never helps. *)
Definition data_here (s : string) : option string :=
  match strip (quoted "data") s with
  | None => None
  | Some r1 =>
      match trimStart r1 with
      | String ":"%char r2 =>
          match trimStart r2 with
          | String c r3 =>
              if is_quote c
              then match span (fun c => negb (is_quote c)) r3 with
                   | (String a run, String _ _) => Some (String a run)
                   | _ => None
                   end
              else None
          | EmptyString => None
          end
      | _ => None
      end
  end.

Definition is_base64_char (c : ascii) : bool :=
  let n := N_of_ascii c in
  ((65 <=? n) && (n <=? 90) || (97 <=? n) && (n <=? 122) || (48 <=? n) && (n <=? 57)
   || (n =? 43) || (n =? 47) || (n =? 61))%N.

(** The second pattern, tried at the start of [s]: the text base64 and
    a comma, then one or more characters of the base64 alphabet (the
    group). *)
Definition base64_here (s : string) : option string :=
  match strip "base64," s with
  | None => None
  | Some r =>
      match span is_base64_char r with
      | (String a run, _) => Some (String a run)
      | _ => None
      end
  end.

(** [s.match(re)] for a pattern without the global flag: the leftmost
    position at which the pattern matches. *)
Fixpoint leftmost (here : string -> option string) (s : string) : option string :=
  match here s with
  | Some g => Some g
  | None =>
      match s with
      | EmptyString => None
      | String _ rest => leftmost here rest
      end
  end.

Definition b64Match (joined : string) : option string :=
  match leftmost data_here joined with
  | Some g => Some g
  | None => leftmost base64_here joined
  end.

Definition no_image : string := "No image data found in response. Check model id/region.".

(** [generateImage(body)]: the completion, and the requests made to the
    model on the way. *)
Definition generateImage (rt : Runtime) (env : Env) (generateContent : Model)
    (body : option json) : Completion json * list GenerateRequest :=
  match ImageReq body with
  | None => (Throw ZodError, [])
  | Some r =>
      match vertex.getVertexClient env with
      | Throw e => (Throw e, [])
      | Return vertexAI =>
          let size := aspectToSize (aspect r) in
          let request :=
            {| client := vertexAI;
               model := vertex.getImagenModelId env;
               parts := [JSON_stringify rt
                           (image_order (fullPrompt (prompt r) (suffix r)) size)];
               temperature := d0_2;
               maxOutputTokens := 1024 |} in
          (match generateContent request with
           | Throw e => Throw e
           | Return resp =>
               match joined rt resp with
               | Throw e => Throw e
               | Return joined =>
                   match b64Match joined with
                   | None =>
                       Return (JObj [ ("ok", JBool false);
                                      ("error", JStr no_image);
                                      ("raw", JStr joined) ])
                   | Some g =>
                       Return (JObj [ ("ok", JBool true); ("imageBase64", JStr g) ])
                   end
               end
           end, [request])
      end
  end.

End imagen.

(** [app.post('/api/generate-image', ...)]. *)
Definition generate_image (rt : Runtime) (runtime_text : JsError -> string) (env : Env)
    (generateContent : Model) (body : option json) : Response :=
  answer runtime_text "Image failed" (fst (imagen.generateImage rt env generateContent body)).

(** The body the client posts for one scene (App.jsx, generateAllImages);
    [None] when the scene is skipped because its prompt is blank. *)
Definition image_body (image_prompt preset_suffix : string) : option json :=
  let prompt := trim image_prompt in
  if negb (truthy prompt) then None
  else Some (JObj [ ("prompt", JStr prompt);
                    ("suffix", JStr preset_suffix);
                    ("aspect", JStr "16:9") ]).

(** A model that answers every request with one part carrying [text]. *)
Definition text_model (text : string) : Model :=
  fun _ =>
    Return (Some (JObj [("response",
      JObj [("candidates",
        JArr [JObj [("content",
          JObj [("parts", JArr [JObj [("text", JStr text)]])])]])])])).

(** An environment that names a project and nothing else. *)
Definition project_env : Env := {[ "GCP_PROJECT_ID" := "station" ]}.

(** [g] is a piece of [s]. *)
Definition piece (g s : string) : Prop := exists before after, s = before +:+ g +:+ after.

(** * Script analysis (src/analyze.js) *)

Module analyze.

Record AnalyzeReqT : Type := {
  script : string;
  styleName : option string;
  timingRuleSeconds : Q;
  visualPromptSuffix : string
}.

Definition AnalyzeReq : z.ZodType AnalyzeReqT :=
  zs.object4
    "script" (zs.min_length 10 zs.string)
    "styleName" (z.optional zs.string)
    "timingRuleSeconds" (zs.default (JNum 13) (z.max 30 (z.min 4 (zs.int z.number))))
    "visualPromptSuffix" (z.default (JStr "") (z.optional zs.string))
    Build_AnalyzeReqT.

(** The instructions of lines 610-634. *)
Definition system : string :=
  trim (String.concat newline
    [ "";
      "You are a YouTube production assistant. Convert the user's script into a scene plan.";
      "";
      "Output STRICT JSON ONLY with this schema:";
      "{";
      "  " +:+ quoted "title" +:+ ": string,";
      "  " +:+ quoted "summary" +:+ ": string,";
      "  " +:+ quoted "scenes" +:+ ": [";
      "    {";
      "      " +:+ quoted "scene_id" +:+ ": number,";
      "      " +:+ quoted "duration_sec" +:+ ": number, // <= TIMING_RULE_SECONDS";
      "      " +:+ quoted "narration" +:+ ": string,";
      "      " +:+ quoted "on_screen_text" +:+ ": string,";
      "      " +:+ quoted "image_prompt" +:+ ": string, // MUST describe the scene visually";
      "      " +:+ quoted "keywords" +:+ ": string[]";
      "    }";
      "  ]";
      "}";
      "";
      "Rules:";
      "- Split into scenes so each scene duration is <= TIMING_RULE_SECONDS.";
      "- Keep narration short and punchy for each scene.";
      "- image_prompt MUST NOT include the visual suffix. The server will append it later.";
      "- Avoid markdown, avoid commentary, JSON only.";
      "" ]).

(** The message of lines 636-642. *)
Definition prompt (rt : Runtime) (r : AnalyzeReqT) : string :=
  trim (String.concat newline
    [ "";
      "STYLE_NAME: " +:+ or_default (styleName r) "Unknown";
      "TIMING_RULE_SECONDS: " +:+ Number_toString rt (timingRuleSeconds r);
      "";
      "SCRIPT:";
      script r;
      "" ]).

(** The double the literal 0.4 denotes. *)
Definition d0_4 : Q := 3602879701896397 # 9007199254740992.

(** [p.text] for a part [p]; reading a property of [null] throws. *)
Definition part_text (p : json) : Completion (option json) :=
  match p with
  | JNull => Throw TypeError
  | _ => Return (get "text" (Some p))
  end.

(** [join('')] prints [undefined] and [null] as nothing. *)
Definition join_item (rt : Runtime) (v : option json) : Completion string :=
  match v with
  | None | Some JNull => Return EmptyString
  | Some x => ToString rt x
  end.

(** Line 654: the text of the answer.  Parts that are missing or [null]
    give the empty text; any other value that is no array has no
    [map]. *)
Definition answer_text (rt : Runtime) (resp : option json) : Completion string :=
  match response_parts resp with
  | None | Some JNull => Return EmptyString
  | Some (JArr items) =>
      match map_throwing part_text items with
      | Return texts =>
          match map_throwing (join_item rt) texts with
          | Return pieces => Return (String.concat EmptyString pieces)
          | Throw e => Throw e
          end
      | Throw e => Throw e
      end
  | Some _ => Throw TypeError
  end.

(** Lines 656-659: from the first opening brace to the last closing
    brace. *)
Definition jsonStr (text : string) : Completion string :=
  match indexOf "{"%char text, lastIndexOf "}"%char text with
  | Some start, Some end_ => Return (slice start (end_ + 1) text)
  | _, _ => Throw (Error "Model did not return JSON.")
  end.

(** A scene as lines 670-677 rebuild it. *)
Record PlannedScene : Type := {
  scene_id : double;
  duration_sec : double;
  narration : string;
  on_screen_text : string;
  image_prompt : string;
  keywords : list string
}.

(** [String(s.key ?? '')]. *)
Definition text_field (rt : Runtime) (key : string) (s : json) : Completion string :=
  match nullish_or (get key (Some s)) (Some (JStr EmptyString)) with
  | Some v => ToString rt v
  | None => Return EmptyString
  end.

(** [Number(s.key ?? fallback)]. *)
Definition number_field (rt : Runtime) (key : string) (s : json) (fallback : Q)
    : Completion double :=
  match nullish_or (get key (Some s)) (Some (JNum fallback)) with
  | Some v => ToNumber rt v
  | None => Return NaN
  end.

(** [Array.isArray(s.keywords) ? s.keywords.map(String).slice(0, 12) : []]. *)
Definition keywords_field (rt : Runtime) (s : json) : Completion (list string) :=
  match get "keywords" (Some s) with
  | Some (JArr items) =>
      match map_throwing (ToString rt) items with
      | Return texts => Return (take 12 texts)
      | Throw e => Throw e
      end
  | _ => Return []
  end.

(** [c >>= k] for the conversions of one scene, any of which may
    throw. *)
Definition and_then {A B} (c : Completion A) (k : A -> Completion B) : Completion B :=
  match c with
  | Return a => k a
  | Throw e => Throw e
  end.

(** The object literal of lines 670-677, its fields computed in the
    order they are written. *)
Definition plan_scene (rt : Runtime) (timingRuleSeconds : Q) (s : json) (idx : nat)
    : Completion PlannedScene :=
  match s with
  | JNull => Throw TypeError
  | _ =>
      and_then (number_field rt "scene_id" s (inject_Z (Z.of_nat idx + 1))) (fun id =>
      and_then (number_field rt "duration_sec" s timingRuleSeconds) (fun d =>
      and_then (text_field rt "narration" s) (fun narration =>
      and_then (text_field rt "on_screen_text" s) (fun on_screen_text =>
      and_then (text_field rt "image_prompt" s) (fun image_prompt =>
      and_then (keywords_field rt s) (fun keywords =>
        Return
          {| scene_id := id;
             duration_sec := Math_min d (Finite timingRuleSeconds);
             narration := narration;
             on_screen_text := on_screen_text;
             image_prompt := image_prompt;
             keywords := keywords |}))))))
  end.

(** [scenes.map((s, idx) => ...)], the index counted from [idx]. *)
Fixpoint plan_scenes (rt : Runtime) (timingRuleSeconds : Q) (idx : nat) (scenes : list json)
    : Completion (list PlannedScene) :=
  match scenes with
  | [] => Return []
  | s :: rest =>
      match plan_scene rt timingRuleSeconds s idx with
      | Throw e => Throw e
      | Return p =>
          match plan_scenes rt timingRuleSeconds (S idx) rest with
          | Throw e => Throw e
          | Return ps => Return (p :: ps)
          end
      end
  end.

(** The value [analyzeScript] returns: the parsed document as it is, or
    the properties of the parsed object with a new value for [scenes]. *)
Inductive Data : Type :=
| AsParsed (data : json)
| Planned (props : list (string * json)) (scenes : list PlannedScene).

(** Lines 669-680. *)
Definition enforce (rt : Runtime) (timingRuleSeconds : Q) (data : json) : Completion Data :=
  match data with
  | JNull => Throw TypeError
  | JObj props =>
      match prop "scenes" props with
      | Some (JArr scenes) =>
          match plan_scenes rt timingRuleSeconds 0 scenes with
          | Return ps => Return (Planned props ps)
          | Throw e => Throw e
          end
      | _ => Return (AsParsed data)
      end
  | _ => Return (AsParsed data)
  end.

(** [analyzeScript(body)]: the completion, and the requests made to the
    model on the way. *)
Definition analyzeScript (h : Host) (rt : Runtime) (env : Env) (generateContent : Model)
    (body : option json) : Completion Data * list GenerateRequest :=
  match AnalyzeReq body with
  | None => (Throw ZodError, [])
  | Some r =>
      match vertex.getVertexClient env with
      | Throw e => (Throw e, [])
      | Return vertexAI =>
          let request :=
            {| client := vertexAI;
               model := vertex.getGeminiModelId env;
               parts := [system; prompt rt r];
               temperature := d0_4;
               maxOutputTokens := 2048 |} in
          (match generateContent request with
           | Throw e => Throw e
           | Return resp =>
               match answer_text rt resp with
               | Throw e => Throw e
               | Return text =>
                   match jsonStr text with
                   | Throw e => Throw e
                   | Return str =>
                       match JSON_parse h str with
                       | None => Throw (Error "Failed to parse model JSON. Try again.")
                       | Some data => enforce rt (timingRuleSeconds r) data
                       end
                   end
               end
           end, [request])
      end
  end.

(** The data as [res.json] prints it. *)
Definition scene_json (p : PlannedScene) : json :=
  JObj [ ("scene_id", json_of_double (scene_id p));
         ("duration_sec", json_of_double (duration_sec p));
         ("narration", JStr (narration p));
         ("on_screen_text", JStr (on_screen_text p));
         ("image_prompt", JStr (image_prompt p));
         ("keywords", JArr (map JStr (keywords p))) ].

Fixpoint set_prop (key : string) (v : json) (props : list (string * json))
    : list (string * json) :=
  match props with
  | [] => [(key, v)]
  | (k, x) :: rest =>
      if String.eqb k key then (k, v) :: rest else (k, x) :: set_prop key v rest
  end.

Definition data_json (d : Data) : json :=
  match d with
  | AsParsed data => data
  | Planned props scenes => JObj (set_prop "scenes" (JArr (map scene_json scenes)) props)
  end.

End analyze.

(** [app.post('/api/analyze-script', ...)] of the server that imports
    analyze.js. *)
Definition analyze_script (h : Host) (rt : Runtime) (runtime_text : JsError -> string)
    (env : Env) (generateContent : Model) (body : option json) : Response :=
  answer runtime_text "Analyze failed"
    (match fst (analyze.analyzeScript h rt env generateContent body) with
     | Return data => Return (JObj [ ("ok", JBool true); ("data", analyze.data_json data) ])
     | Throw e => Throw e
     end).

(** No number above [t]: what [Math.min(x, t)] can be. *)
Definition at_most (t : Q) (d : double) : Prop :=
  match d with
  | NaN => True
  | Infinity negative => negative = true
  | Finite q => (q <= t)%Q
  end.

(** A platform whose [JSON.parse] yields [j] for every text. *)
Definition parse_host (j : json) : Host := echo_host j.

(** A plan of two scenes as a model might answer it: the first too
    long, the second without an id or a duration and with thirteen
    keywords. *)
Definition long_plan_props : list (string * json) :=
  [ ("title", JStr "Focus");
    ("scenes",
     JArr [ JObj [ ("scene_id", JNum 1); ("duration_sec", JNum 45);
                   ("narration", JStr "Start here.") ];
            JObj [ ("narration", JStr "Then this.");
                   ("keywords",
                    JArr (map JStr ["a"; "b"; "c"; "d"; "e"; "f"; "g";
                                    "h"; "i"; "j"; "k"; "l"; "m"])) ] ]) ].

Definition long_plan : json := JObj long_plan_props.

(** What the routine makes of it under a timing rule of 8 seconds. *)
Definition long_plan_enforced : list analyze.PlannedScene :=
  [ {| analyze.scene_id := Finite 1;
       analyze.duration_sec := Finite 8;
       analyze.narration := "Start here.";
       analyze.on_screen_text := EmptyString;
       analyze.image_prompt := EmptyString;
       analyze.keywords := [] |};
    {| analyze.scene_id := Finite 2;
       analyze.duration_sec := Finite 8;
       analyze.narration := "Then this.";
       analyze.on_screen_text := EmptyString;
       analyze.image_prompt := EmptyString;
       analyze.keywords := ["a"; "b"; "c"; "d"; "e"; "f"; "g"; "h"; "i"; "j"; "k"; "l"] |} ].

Definition analyze_body_sample : option json :=
  Some (JObj [ ("script", JStr "Focus is a skill you can train.");
               ("timingRuleSeconds", JNum 8) ]).

(** * The client's presets (client/src/styles.js) *)

Module styles.

Record Preset : Type := {
  id : string;
  name : string;
  target : string;
  suffix : string;
  timing : Z;
  accent : string;
  voiceDefault : string
}.

Definition PRESETS : list Preset :=
  [ {| id := "digital-futurism";
       name := "Digital Futurism";
       target := "Tomorrow's Problem";
       suffix := ", minimalist hand-drawn black ink sketch, bright ORANGE SCARF (#FF6B35), PURE BLACK VOID (#000000), high contrast, editorial illustration.";
       timing := 13;
       accent := "#FF6B35";
       voiceDefault := "Fenrir" |};
    {| id := "productivity-sketch";
       name := "Productivity Sketch";
       target := "The Smart Friend";
       suffix := ", rough pencil sketch on CRUMPLED GRAPH PAPER (#FFFFFF), Graphite Black ink (#333333), Highlighter YELLOW (#FAFF00) accents, messy lines.";
       timing := 8;
       accent := "#FAFF00";
       voiceDefault := "Puck" |};
    {| id := "bible-stories";
       name := "Bible Stories";
       target := "Bible Stories";
       suffix := ", biblical era oil painting, golden light, ancient robes, desert landscape, cinematic 8k, dramatic lighting.";
       timing := 13;
       accent := "#D4AF37";
       voiceDefault := "Default" |} ].

Definition autoDetectPresetId (script : string) : string :=
  let s := toLowerCase script in
  if includes "dopamine" s || includes "focus" s then "digital-futurism"
  else if includes "productivity" s || includes "system" s then "productivity-sketch"
  else if includes "god" s || includes "jesus" s then "bible-stories"
  else "digital-futurism".

End styles.

(** ** The active preset and the analysis request (App.jsx)

    The custom style as [saveCustom] stores it: a name and a suffix. *)
Record CustomStyle : Type := { custom_name : string; custom_suffix : string }.

(** [PRESETS.find(p => p.id === presetId)]. *)
Definition find_preset (presetId : string) : option styles.Preset :=
  find (fun p => String.eqb (styles.id p) presetId) styles.PRESETS.

(** Lines 67-80. *)
Definition activePreset (presetId : string) (customStyle : option CustomStyle)
    : styles.Preset :=
  match (if String.eqb presetId "custom" then customStyle else None) with
  | Some c =>
      {| styles.id := "custom";
         styles.name := custom_name c;
         styles.target := "Custom";
         styles.suffix := custom_suffix c;
         styles.timing := 13;
         styles.accent := "#7C3AED";
         styles.voiceDefault := "Default" |}
  | None =>
      match find_preset presetId with
      | Some p => p
      | None =>
          match styles.PRESETS with
          | p :: _ => p
          | [] => {| styles.id := EmptyString; styles.name := EmptyString;
                     styles.target := EmptyString; styles.suffix := EmptyString;
                     styles.timing := 0; styles.accent := EmptyString;
                     styles.voiceDefault := EmptyString |}
          end
      end
  end.

(** The body [onAnalyze] posts. *)
Definition analyze_body (script : string) (p : styles.Preset) : json :=
  JObj [ ("script", JStr script);
         ("styleName", JStr (styles.name p));
         ("timingRuleSeconds", JNum (inject_Z (styles.timing p)));
         ("visualPromptSuffix", JStr (styles.suffix p)) ].

(** * The Cloud Run server (server.js with its own text generation) *)

Module cloudrun.

Record FetchRequest : Type := {
  url : string;
  authorization : string;
  content_type : string;
  (** The value whose JSON text is the body. *)
  request_body : json
}.

(** [r.ok], [r.status], and what [r.json()] resolves with, [None] when
    it rejects. *)
Record FetchResponse : Type := {
  ok : bool;
  status_code : nat;
  json_body : option json
}.

(** The services [generateText] talks to.  Each call resolves or
    rejects. *)
Record Services : Type := {
  (** Whether the import of the API-key library succeeded. *)
  GoogleGenerativeAI : bool;
  (** [model.generateContent(prompt)] of that library for a key and a
      model name, followed by [resp?.response?.text?.()]; [None] when
      one of the links is missing. *)
  gemini_text : string -> string -> string -> Completion (option string);
  (** [auth.getClient()] and [client.getAccessToken()], followed by
      [tokenResp?.token]. *)
  getAccessToken : Completion (option string);
  fetch : FetchRequest -> Completion FetchResponse;
  encodeURIComponent : string -> string
}.

Inductive Call : Type :=
| AskedGemini (apiKey modelName prompt : string)
| AskedToken
| Fetched (req : FetchRequest).

(** The constants of lines 54-60, read from the environment. *)
Definition GCP_PROJECT_ID (env : Env) : string :=
  or_default (or_undefined (env !! "GCP_PROJECT_ID") (env !! "GOOGLE_CLOUD_PROJECT"))
    EmptyString.

Definition GCP_LOCATION (env : Env) : string :=
  or_default (or_undefined (env !! "GCP_LOCATION") (env !! "GOOGLE_CLOUD_REGION"))
    "us-central1".

Definition MODEL_ANALYZE (env : Env) : string :=
  or_default (env !! "MODEL_ANALYZE") "gemini-1.5-flash-002".

Definition MODEL_IMAGE (env : Env) : string :=
  or_default (env !! "MODEL_IMAGE") "imagen-3.0-generate-001".

Definition MODEL_TTS (env : Env) : string :=
  or_default (env !! "MODEL_TTS") "gemini-2.5-flash-preview-tts".

(** The double the literal 0.6 denotes. *)
Definition d0_6 : Q := 5404319552844595 # 9007199254740992.

Definition endpoint (sv : Services) (env : Env) : string :=
  "https://" +:+ GCP_LOCATION env +:+ "-aiplatform.googleapis.com/v1/projects/"
    +:+ encodeURIComponent sv (GCP_PROJECT_ID env)
    +:+ "/locations/" +:+ encodeURIComponent sv (GCP_LOCATION env)
    +:+ "/publishers/google/models/" +:+ encodeURIComponent sv (MODEL_ANALYZE env)
    +:+ ":generateContent".

Definition generate_body (prompt : string) : json :=
  JObj [ ("contents",
          JArr [ JObj [ ("role", JStr "user");
                        ("parts", JArr [ JObj [("text", JStr prompt)] ]) ] ]);
         ("generationConfig",
          JObj [ ("temperature", JNum d0_6); ("maxOutputTokens", JNum 2048) ]) ].

(** [p?.text || ''] for a part [p], as [join] then prints it. *)
Definition part_text (rt : Runtime) (p : json) : Completion string :=
  let t := get "text" (Some p) in
  if ToBoolean t
  then match t with Some v => ToString rt v | None => Return EmptyString end
  else Return EmptyString.

(** Lines 215-216.  Parts that are missing or [null] give the empty
    text; any other value that is no array has no [map]. *)
Definition response_text (rt : Runtime) (json : json) : Completion string :=
  match get "parts" (get "content" (first (get "candidates" (Some json)))) with
  | None | Some JNull => Return EmptyString
  | Some (JArr items) =>
      match map_throwing (part_text rt) items with
      | Return texts => Return (String.concat EmptyString texts)
      | Throw e => Throw e
      end
  | Some _ => Throw TypeError
  end.

(** [generateText(prompt)]: the completion, and the calls made on the
    way, in order. *)
Definition generateText (rt : Runtime) (sv : Services) (env : Env) (prompt : string)
    : Completion string * list Call :=
  let apiKey := or_default (or_undefined (env !! "GOOGLE_API_KEY") (env !! "GEMINI_API_KEY"))
                  EmptyString in
  if truthy apiKey && GoogleGenerativeAI sv then
    let modelName := or_default (env !! "GEMINI_API_MODEL") "gemini-1.5-flash" in
    (match gemini_text sv apiKey modelName prompt with
     | Throw e => Throw e
     | Return t =>
         let text := match t with Some s => s | None => EmptyString end in
         if negb (truthy text)
         then Throw (Error "Empty response from Gemini API key flow.")
         else Return text
     end, [AskedGemini apiKey modelName prompt])
  else if negb (truthy (GCP_PROJECT_ID env)) then
    (Throw (Error "Missing GCP_PROJECT_ID. Set it in Cloud Run Variables & secrets."), [])
  else
    match getAccessToken sv with
    | Throw e => (Throw e, [AskedToken])
    | Return t =>
        let accessToken := match t with Some s => s | None => EmptyString end in
        if negb (truthy accessToken)
        then (Throw (Error "Could not obtain access token via ADC."), [AskedToken])
        else
          let req :=
            {| url := endpoint sv env;
               authorization := "Bearer " +:+ accessToken;
               content_type := "application/json";
               request_body := generate_body prompt |} in
          (match fetch sv req with
           | Throw e => Throw e
           | Return r =>
               let json := match json_body r with Some j => j | None => JObj [] end in
               if negb (ok r)
               then Throw (Error ("Vertex AI returned " +:+ String_of_nat (status_code r)))
               else
                 match response_text rt json with
                 | Throw e => Throw e
                 | Return text =>
                     if negb (truthy text)
                     then Throw (Error "Vertex AI response did not include text.")
                     else Return text
                 end
           end, [AskedToken; Fetched req])
    end.

(** [body?.a ?? body?.b ?? ''] and [body?.a ?? '']. *)
Definition field (key : string) (body : option json) : option json :=
  nullish_or (get key body) (Some (JStr EmptyString)).

Definition script_of (body : option json) : option json :=
  nullish_or (get "script" body) (field "text" body).

(** [String(v)] for a value that may be [undefined]. *)
Definition String_of (rt : Runtime) (v : option json) : Completion string :=
  match v with
  | Some x => ToString rt x
  | None => Return "undefined"
  end.

(** [s.trim().length === 0]. *)
Definition blank (s : string) : bool := (String.length (trim s) =? 0)%nat.

(** [s.length] as a JSON number. *)
Definition chars (s : string) : json := JNum (inject_Z (Z.of_nat (String.length s))).

(** The lines before the script in the prompt.  (The dash of the
    fourth line is not a Latin-1 character; it stands here as the
    three bytes of its UTF-8 form.  Nothing looks inside these lines.) *)
Definition instructions : list string :=
  [ "You are a YouTube production assistant.";
    "Analyze the script and return:";
    "1) a short summary";
    "2) suggested scenes split by timing rules (assume 8–13 seconds max per scene)";
    "3) for each scene: scene title + narration text + image prompt";
    "";
    "SCRIPT:" ].

Definition respond (status : nat) (j : json) : Response :=
  {| status := status; headers := []; body := Json j |}.

Definition analyze_failed : json :=
  JObj [("error", JStr "Analyze failed. Check Cloud Run logs for details.")].

(** [app.post('/api/analyze-script', ...)]: the response, and the calls
    made on the way.  [String(script)] is written three times (lines
    71, 81 and 94) and gives the same text each time, or throws the
    first time, inside the [try]; a falsy script is refused before it
    is converted. *)
Definition analyze_script (rt : Runtime) (sv : Services) (env : Env) (body : option json)
    : Response * list Call :=
  let script := script_of body in
  let empty :=
    respond 400 (JObj [("error", JStr "Script is empty. Send JSON: { script: '...' }")]) in
  if negb (ToBoolean script) then (empty, [])
  else
    match String_of rt script with
    | Throw _ => (respond 500 analyze_failed, [])
    | Return text =>
        if blank text then (empty, [])
        else if bool_decide (env !! "ANALYZE_DRY_RUN" = Some "true") then
          (respond 200
             (JObj [ ("ok", JBool true);
                     ("dryRun", JBool true);
                     ("receivedChars", chars text);
                     ("message",
                      JStr "Body parsing works. Turn off ANALYZE_DRY_RUN to call Gemini.") ]),
           [])
        else
          let prompt := String.concat newline (instructions ++ [text]) in
          match generateText rt sv env prompt with
          | (Return outputText, calls) =>
              (respond 200 (JObj [ ("ok", JBool true); ("result", JStr outputText) ]), calls)
          | (Throw _, calls) => (respond 500 analyze_failed, calls)
          end
    end.

(** The two placeholders.  They have no [try]: when [String(v)] throws,
    the handler's promise rejects and no response is sent ([Throw]). *)
Definition placeholder (rt : Runtime) (v : option json) (empty wired : string)
    (model_key : string) (model : string) (chars_key : string) : Completion Response :=
  if negb (ToBoolean v) then Return (respond 400 (JObj [("error", JStr empty)]))
  else
    match String_of rt v with
    | Throw e => Throw e
    | Return text =>
        if blank text then Return (respond 400 (JObj [("error", JStr empty)]))
        else
          Return (respond 501
                    (JObj [ ("error", JStr wired);
                            (model_key, JStr model);
                            (chars_key, chars text) ]))
    end.

Definition generate_image (rt : Runtime) (env : Env) (body : option json)
    : Completion Response :=
  placeholder rt (field "prompt" body)
    "Prompt is empty. Send JSON: { prompt: '...' }"
    "Image generation not wired in this server.js template. (Your deployment is OK.)"
    "model" (MODEL_IMAGE env) "receivedPromptChars".

Definition generate_speech (rt : Runtime) (env : Env) (body : option json)
    : Completion Response :=
  placeholder rt (field "text" body)
    "Text is empty. Send JSON: { text: '...' }"
    "TTS not wired in this server.js template. (Your deployment is OK.)"
    "model" (MODEL_TTS env) "receivedTextChars".

End cloudrun.

(** Services that are never reached in a run that must not call them:
    every call rejects. *)
Definition no_services : cloudrun.Services := {|
  cloudrun.GoogleGenerativeAI := false;
  cloudrun.gemini_text := fun _ _ _ => Throw TypeError;
  cloudrun.getAccessToken := Throw TypeError;
  cloudrun.fetch := fun _ => Throw TypeError;
  cloudrun.encodeURIComponent := fun s => s
|}.

(** Services with the API-key library loaded; it answers every prompt
    with [text]. *)
Definition key_services (text : string) : cloudrun.Services := {|
  cloudrun.GoogleGenerativeAI := true;
  cloudrun.gemini_text := fun _ _ _ => Return (Some text);
  cloudrun.getAccessToken := Throw TypeError;
  cloudrun.fetch := fun _ => Throw TypeError;
  cloudrun.encodeURIComponent := fun s => s
|}.
(** * Manifest validation *)

Lemma scene_schema_spec (j : json) :
  scene_schema (Some j) = if spec_scene_ok j then Some (spec_scene j) else None.
Proof.
  destruct j as [| | | | |props]; try reflexivity.
  unfold scene_schema, z.object2, spec_scene_ok, spec_scene.
  destruct (prop "duration_sec" props) as [[| | q | | |]|]; try reflexivity.
  unfold z.max, z.min, z.number, z.default, z.optional, z.boolean, spec_duration_ok.
  destruct (Qle_bool (1 # 1) q); [|reflexivity].
  destruct (Qle_bool q (60 # 1)); [|reflexivity].
  destruct (prop "hasAudio" props) as [[| b | | | |]|]; reflexivity.
Qed.

Lemma each_scene_spec (items : list json) :
  z.each scene_schema items =
  if forallb spec_scene_ok items then Some (map spec_scene items) else None.
Proof.
  induction items as [|j items IH]; [reflexivity|].
  cbn [z.each forallb map]. rewrite scene_schema_spec, IH.
  destruct (spec_scene_ok j); [|reflexivity].
  destruct (forallb spec_scene_ok items); reflexivity.
Qed.

(** C5. The schema accepts a parsed document exactly when it has the
    shape the specification asks for (an object whose [scenes] is an
    array of at least one element, every element an object with a
    numeric [duration_sec] between 1 and 60 inclusive and a [hasAudio]
    that is absent or a boolean); an accepted document yields its scenes
    in order, with [hasAudio] read as [false] where it is absent; every
    other document is refused with a ZodError. *)
Theorem Manifest_accepts_iff_spec (j : json) :
  Manifest (Some j) =
  if spec_accepts j then Some (spec_manifest j) else None.
Proof.
  destruct j as [| | | | |props]; try reflexivity.
  unfold Manifest, z.object1, z.min_items, spec_accepts, spec_manifest.
  destruct (prop "scenes" props) as [[| | | | items |]|]; try reflexivity.
  cbn [z.array]. rewrite each_scene_spec.
  destruct (forallb spec_scene_ok items).
  - rewrite length_map. destruct (1 <=? length items)%nat; reflexivity.
  - rewrite andb_false_r. reflexivity.
Qed.

Example Manifest_two_scenes :
  Manifest (Some two_scenes)
  = Some {| scenes := [ {| duration_sec := 5 # 1; hasAudio := false |};
                        {| duration_sec := 8 # 1; hasAudio := true |} ] |}.
Proof. reflexivity. Qed.

Example Manifest_bounds_inclusive :
  Manifest (Some (JObj [("scenes", JArr [ JObj [("duration_sec", JNum (1 # 1))];
                                          JObj [("duration_sec", JNum (60 # 1))] ])]))
  = Some {| scenes := [ {| duration_sec := 1 # 1; hasAudio := false |};
                        {| duration_sec := 60 # 1; hasAudio := false |} ] |}.
Proof. reflexivity. Qed.

Example Manifest_refuses :
  Manifest (Some zero_duration) = None /\
  Manifest (Some (JObj [("scenes", JArr [ JObj [("duration_sec", JNum (121 # 2))] ])])) = None /\
  Manifest (Some (JObj [("scenes", JArr [])])) = None /\
  Manifest (Some (JObj [("scenes", JArr [ JObj [("duration_sec", JStr "5")] ])])) = None /\
  Manifest (Some (JObj [("scenes",
     JArr [ JObj [("duration_sec", JNum (5 # 1)); ("hasAudio", JNull)] ])])) = None /\
  Manifest (Some (JArr [])) = None.
Proof. repeat split; reflexivity. Qed.

(** * Failures before the workspace exists *)

(** C10. When the manifest text does not parse, or parses to a document
    the schema refuses, [renderMp4] throws (a SyntaxError, respectively
    a ZodError) from the state it was called in: no directory has been
    created, nothing was written and no process was spawned. *)
Theorem renderMp4_bad_manifest_no_effect
    (h : Host) (files : option Files) (manifestJson : string) (st : State) :
  manifest_of h manifestJson = None ->
  renderMp4 h files manifestJson st =
  (Throw (match JSON_parse h manifestJson with
          | Some _ => ZodError
          | None => SyntaxError
          end), st).
Proof.
  unfold manifest_of, renderMp4. intros Hbad.
  destruct (JSON_parse h manifestJson) as [j|]; [|reflexivity].
  rewrite Hbad. reflexivity.
Qed.

(** * Paths *)

Lemma length_append (a b : string) :
  String.length (a +:+ b) = (String.length a + String.length b)%nat.
Proof.
  induction a as [|c a IH]; [reflexivity|].
  change (S (String.length (a +:+ b)) = S (String.length a + String.length b)).
  now rewrite IH.
Qed.

Lemma append_assoc (a b c : string) : (a +:+ b) +:+ c = a +:+ (b +:+ c).
Proof.
  induction a as [|x a IH]; [reflexivity|].
  change (String x ((a +:+ b) +:+ c) = String x (a +:+ (b +:+ c))).
  now rewrite IH.
Qed.

Lemma prefix_append (a b : string) : String.prefix a (a +:+ b) = true.
Proof.
  induction a as [|c a IH].
  - now destruct b.
  - change (String.prefix (String c a) (String c (a +:+ b)) = true). cbn.
    destruct (ascii_dec c c) as [_|Hne]; [exact IH | now destruct Hne].
Qed.

Lemma path_join_ne (dir name : string) : path_join dir name <> dir.
Proof.
  intros Heq. apply (f_equal String.length) in Heq.
  unfold path_join in Heq. rewrite !length_append in Heq. cbn in Heq. lia.
Qed.

Lemma path_join_inj (dir a b : string) : path_join dir a = path_join dir b -> a = b.
Proof.
  unfold path_join. intros Heq.
  apply String.app_inj in Heq. now apply (String.app_inj "/") in Heq.
Qed.

Lemma under_refl (dir : string) : under dir dir = true.
Proof. unfold under. now rewrite String.eqb_refl. Qed.

Lemma under_path_join (dir name : string) : under dir (path_join dir name) = true.
Proof.
  unfold under, path_join. rewrite <- append_assoc, prefix_append.
  apply orb_true_r.
Qed.

Lemma under_seg_path (tmp : string) (i : nat) : under tmp (seg_path tmp i) = true.
Proof. apply under_path_join. Qed.

(** * Segment file names *)

Lemma append_inv_tail (a b c : string) : a +:+ c = b +:+ c -> a = b.
Proof.
  intros Heq.
  assert (Hlen : String.length a = String.length b).
  { apply (f_equal String.length) in Heq. rewrite !length_append in Heq. lia. }
  revert b Heq Hlen. induction a as [|x a IH]; intros [|y b] Heq Hlen;
    try discriminate; [reflexivity|].
  change (String x (a +:+ c) = String y (b +:+ c)) in Heq.
  injection Heq as -> Heq. injection Hlen as Hlen. now rewrite (IH b).
Qed.







(** * One step of [run] *)

Lemma run_inv (h : Host) cmd args cwd st r st' :
  run h cmd args cwd st = (r, st') ->
  exists code stderr written,
    spawn h cmd args cwd (fs st) = (code, stderr, written) /\
    st' = {| fs := after_spawn args written (fs st);
             log := log st ++ [Spawned cmd args cwd code stderr] |} /\
    r = if exit_ok code then Return tt
        else Throw (Error (failure_message code stderr)).
Proof.
  unfold run. destruct (spawn h cmd args cwd (fs st)) as [[code stderr] written].
  intros Hrun. exists code, stderr, written.
  destruct (exit_ok code); inversion Hrun; auto.
Qed.

Lemma element_inv {A} (a : list A) i st (r : Completion A) st' :
  element a i st = (r, st') ->
  st' = st /\ r = match a !! i with Some x => Return x | None => Throw TypeError end.
Proof. unfold element. destruct (a !! i); inversion 1; auto. Qed.

Lemma run_shape_cons {A} (r : Completion A) e evs :
  succeeded e = true -> run_shape r evs -> run_shape r (e :: evs).
Proof.
  intros He [r' evs' Hall | evs' cmd args cwd code stderr Hall Hcode].
  - apply shape_clean. now constructor.
  - change (e :: evs' ++ [Spawned cmd args cwd code stderr])
      with ((e :: evs') ++ [Spawned cmd args cwd code stderr]).
    apply shape_failed; [now constructor | exact Hcode].
Qed.

Lemma run_shape_app {A} (r : Completion A) evs1 evs2 :
  Forall (fun e => succeeded e = true) evs1 ->
  run_shape r evs2 -> run_shape r (evs1 ++ evs2).
Proof.
  induction 1 as [|e evs1 He _ IH]; intros Hshape; [exact Hshape|].
  cbn. apply run_shape_cons; auto.
Qed.

Lemma run_shape_return {A} (a : A) evs :
  run_shape (Return a) evs -> Forall (fun e => succeeded e = true) evs.
Proof. inversion 1; assumption. Qed.

(** * The scene loop *)

Lemma encode_scenes_log (h : Host) tmp manifest imgs auds indices acc st r st' :
  encode_scenes h tmp manifest imgs auds indices acc st = (r, st') ->
  exists evs,
    log st' = log st ++ evs /\
    Forall2 (scene_spawn tmp manifest imgs auds) (take (length evs) indices) evs /\
    run_shape r evs /\
    (forall segs, r = Return segs ->
       segs = acc ++ map (seg_path tmp) indices /\ length evs = length indices).
Proof.
  revert acc st. induction indices as [|i rest IH]; intros acc st Hrun.
  - inversion Hrun; subst. exists []. rewrite !app_nil_r.
    split; [reflexivity|]. split; [constructor|].
    split; [apply shape_clean; constructor|].
    intros segs [= <-]. auto.
  - cbn [encode_scenes] in Hrun. unfold bind at 1 in Hrun.
    destruct (element (scenes manifest) i st) as [r1 st1] eqn:E1.
    apply element_inv in E1 as [-> ->].
    destruct (scenes manifest !! i) as [scene|] eqn:Hscene.
    2:{ inversion Hrun; subst. exists []. rewrite app_nil_r.
        split; [reflexivity|]. split; [constructor|].
        split; [apply shape_clean; constructor | discriminate]. }
    unfold bind at 1 in Hrun.
    destruct (element imgs i st) as [r2 st2] eqn:E2.
    apply element_inv in E2 as [-> ->].
    destruct (imgs !! i) as [image|] eqn:Himage.
    2:{ inversion Hrun; subst. exists []. rewrite app_nil_r.
        split; [reflexivity|]. split; [constructor|].
        split; [apply shape_clean; constructor | discriminate]. }
    unfold bind at 1 in Hrun.
    destruct (run h _ _ _ st) as [r3 st3] eqn:E3.
    apply run_inv in E3 as (code & stderr & written & _ & -> & ->).
    set (e := Spawned "ffmpeg" _ tmp code stderr) in *.
    assert (He : scene_spawn tmp manifest imgs auds i e)
      by (exists scene, image, code, stderr; auto).
    destruct (exit_ok code) eqn:Hcode.
    + apply IH in Hrun as (evs & Hlog & Hevs & Hshape & Hret).
      exists (e :: evs). cbn [log] in Hlog. rewrite <- app_assoc in Hlog.
      split; [exact Hlog|].
      split; [cbn; constructor; assumption|].
      split; [apply run_shape_cons; [exact Hcode | exact Hshape]|].
      intros segs Hsegs. apply Hret in Hsegs as [-> Hlen].
      rewrite <- app_assoc. cbn. auto.
    + inversion Hrun; subst. exists [e].
      split; [reflexivity|].
      split; [cbn; constructor; [assumption | constructor]|].
      split; [apply (shape_failed []); [constructor | exact Hcode] | discriminate].
Qed.

(** * The fs calls, one step each *)

Lemma mkdtempSync_inv (h : Host) pre st r st' :
  mkdtempSync h pre st = (r, st') ->
  log st' = log st /\
  match r with
  | Return tmp =>
      (exists sfx, mkdtemp_suffix h (fs st) pre = Some sfx /\ tmp = pre +:+ sfx) /\
      fs st !! tmp = None /\ fs st' = <[tmp := Dir]> (fs st)
  | Throw e => st' = st /\ exists c, e = SystemError c
  end.
Proof.
  unfold mkdtempSync. destruct (mkdtemp_suffix h (fs st) pre) as [sfx|].
  - destruct (fs st !! (pre +:+ sfx)) eqn:Hfree; inversion 1; subst; cbn; eauto 10.
  - inversion 1; subst; eauto.
Qed.

Lemma mkdirSync_inv p st r st' :
  mkdirSync p st = (r, st') ->
  log st' = log st /\
  match r with
  | Return _ => fs st !! p = None /\ fs st' = <[p := Dir]> (fs st)
  | Throw e => st' = st /\ exists c, e = SystemError c
  end.
Proof.
  unfold mkdirSync. destruct (fs st !! p) eqn:Hfree; inversion 1; subst; cbn; eauto.
Qed.

Lemma writeFileSync_inv p data st r st' :
  writeFileSync p data st = (r, st') ->
  match r with
  | Return _ => fs st !! p <> Some Dir /\
                st' = {| fs := <[p := File data]> (fs st);
                         log := log st ++ [Wrote p data] |}
  | Throw e => st' = st /\ fs st !! p = Some Dir /\ exists c, e = SystemError c
  end.
Proof.
  unfold writeFileSync. destruct (fs st !! p) as [[d|]|] eqn:Hp;
    inversion 1; subst; eauto; split; auto; congruence.
Qed.

Lemma readFileSync_inv p st r st' :
  readFileSync p st = (r, st') ->
  st' = st /\
  match r with
  | Return data => fs st !! p = Some (File data)
  | Throw e => (forall data, fs st !! p <> Some (File data)) /\ exists c, e = SystemError c
  end.
Proof.
  unfold readFileSync. destruct (fs st !! p) as [[d|]|] eqn:Hp;
    inversion 1; subst; eauto; split; auto; split; eauto; congruence.
Qed.

Lemma unlink_each_log fl st : log (snd (unlink_each fl st)) = log st.
Proof.
  revert st. induction fl as [|f fl IH]; intros st; [reflexivity|].
  cbn [unlink_each]. unfold bind, unlinkSync.
  destruct (fs st !! path f) as [[d|]|]; cbn [snd]; try reflexivity.
  rewrite IH. reflexivity.
Qed.

Lemma cleanup_inv tmp imgs auds st r st' :
  cleanup tmp imgs auds st = (r, st') -> r = Return tt /\ log st' = log st.
Proof.
  unfold cleanup, try_catch_ignore. intros [= <- <-]. split; [reflexivity|].
  unfold bind. pose proof (unlink_each_log (imgs ++ auds) st) as Hlog.
  destruct (unlink_each (imgs ++ auds) st) as [[[]|e] st1]; exact Hlog.
Qed.

(** * The log of a run *)

Lemma workspace_intro (h : Host) (m : FS) sfx :
  mkdtemp_suffix h m (path_join (tmpdir h) "creator-station-") = Some sfx ->
  workspace h m = Some (path_join (tmpdir h) "creator-station-" +:+ sfx).
Proof. unfold workspace, workspace_prefix. now intros ->. Qed.

Lemma render_summary_early (h : Host) tmp files manifest (e : JsError) :
  render_summary h tmp files manifest (Throw e) [].
Proof.
  split; [apply shape_clean; constructor|].
  left. split; [reflexivity | discriminate].
Qed.

Lemma render_summary_staged (h : Host) tmp fl manifest r evs :
  run_shape r evs ->
  length (staged_images h fl) = length (scenes manifest) ->
  render_events tmp manifest (staged_images h fl) (staged_audios h fl) evs ->
  (forall buf, r = Return buf -> length evs = (length (scenes manifest) + 2)%nat) ->
  render_summary h tmp (Some fl) manifest r evs.
Proof. intros Hshape Hcount Hevs Hlen. split; [exact Hshape|]. right. exists fl. auto. Qed.

Lemma render_in_log (h : Host) tmp files manifest st r st' :
  render_in h tmp files manifest st = (r, st') ->
  exists evs,
    log st' = log st ++ evs /\ render_summary h tmp files manifest r evs.
Proof.
  intros Hrun.
  unfold render_in in Hrun. unfold bind at 1 in Hrun.
  destruct files as [fl|].
  2:{ inversion Hrun; subst. exists []. rewrite app_nil_r.
      split; [reflexivity | apply render_summary_early]. }
  cbn [ret] in Hrun.
  fold (staged_images h fl) in Hrun. fold (staged_audios h fl) in Hrun.
  destruct (length (staged_images h fl) =? length (scenes manifest))%nat eqn:Hcount.
  2:{ inversion Hrun; subst. exists []. rewrite app_nil_r.
      split; [reflexivity | apply render_summary_early]. }
  apply Nat.eqb_eq in Hcount. cbn [negb] in Hrun.
  unfold bind at 1 in Hrun.
  destruct (encode_scenes h tmp manifest _ _ _ [] st) as [r4 st4] eqn:E4.
  apply encode_scenes_log in E4 as (evs1 & L4 & Hevs1 & Hshape1 & Hret1).
  assert (Hpartial :
    render_events tmp manifest (staged_images h fl) (staged_audios h fl) evs1).
  { exists evs1, []. rewrite app_nil_r. auto. }
  destruct r4 as [segs|e].
  2:{ inversion Hrun; subst. exists evs1. split; [exact L4|].
      apply render_summary_staged; auto; [|discriminate].
      inversion Hshape1; subst; [apply shape_clean; assumption|].
      apply shape_failed; assumption. }
  destruct (Hret1 segs eq_refl) as [Hsegs Hlen1]. cbn [app] in Hsegs. subst segs.
  apply run_shape_return in Hshape1. rewrite length_seq in Hlen1.
  unfold bind at 1 in Hrun.
  destruct (writeFileSync _ _ st4) as [[[]|e] st5] eqn:E5;
    apply writeFileSync_inv in E5.
  2:{ destruct E5 as (-> & _). inversion Hrun; subst. exists evs1. split; [exact L4|].
      apply render_summary_staged; auto; [|discriminate].
      apply shape_clean; assumption. }
  destruct E5 as [_ ->]. clear Hpartial.
  unfold bind at 1 in Hrun.
  destruct (run h _ _ _ _) as [r6 st6] eqn:E6.
  apply run_inv in E6 as (code & stderr & written & _ & -> & ->).
  cbn [log fs] in *. rewrite L4 in Hrun.
  set (w := Wrote _ _) in *. set (c := Spawned _ _ _ _ _) in *.
  assert (Hev : render_events tmp manifest (staged_images h fl) (staged_audios h fl)
                  (evs1 ++ [w; c])).
  { exists evs1, [w; c]. split; [reflexivity|]. split; [exact Hevs1|].
    right. split; [exact Hlen1|]. exists code, stderr. reflexivity. }
  assert (Hok : exit_ok code = true ->
                Forall (fun e => succeeded e = true) (evs1 ++ [w; c])).
  { intros Hcode. apply Forall_app. split; [assumption|].
    repeat constructor. exact Hcode. }
  exists (evs1 ++ [w; c]).
  destruct (exit_ok code) eqn:Hcode.
  - specialize (Hok eq_refl). unfold bind at 1 in Hrun.
    destruct (readFileSync _ _) as [[buf|e] st7] eqn:E7;
      apply readFileSync_inv in E7 as [-> E7].
    + unfold bind at 1 in Hrun.
      destruct (cleanup _ _ _ _) as [r8 st8] eqn:E8.
      apply cleanup_inv in E8 as [-> L8]. cbn [ret] in Hrun.
      inversion Hrun; subst. rewrite L8. cbn [log].
      split; [now rewrite <- !app_assoc|].
      apply render_summary_staged; auto; [now apply shape_clean|].
      intros _ _. rewrite length_app, Hlen1. reflexivity.
    + inversion Hrun; subst. cbn [log].
      split; [now rewrite <- !app_assoc|].
      apply render_summary_staged; auto; [now apply shape_clean | discriminate].
  - inversion Hrun; subst. cbn [log].
    split; [now rewrite <- !app_assoc|].
    apply render_summary_staged; auto; [|discriminate].
    change (evs1 ++ [w; c]) with (evs1 ++ [w] ++ [c]). rewrite app_assoc.
    apply shape_failed; [|exact Hcode].
    apply Forall_app. split; [assumption | repeat constructor].
Qed.

Lemma render_log (h : Host) files manifest st r st' :
  render h files manifest st = (r, st') ->
  exists evs,
    log st' = log st ++ evs /\
    run_shape r evs /\
    ((evs = [] /\ forall buf, r <> Return buf) \/
     exists tmp fl,
       workspace h (fs st) = Some tmp /\
       files = Some fl /\
       length (staged_images h fl) = length (scenes manifest) /\
       render_events tmp manifest (staged_images h fl) (staged_audios h fl) evs /\
       (forall buf, r = Return buf -> length evs = (length (scenes manifest) + 2)%nat)).
Proof.
  intros Hrun.
  assert (Hearly : forall (e : JsError),
    r = Throw e -> log st' = log st ->
    exists evs, log st' = log st ++ evs /\ run_shape r evs /\
      ((evs = [] /\ forall buf, r <> Return buf) \/
       exists tmp fl, workspace h (fs st) = Some tmp /\ files = Some fl /\
         length (staged_images h fl) = length (scenes manifest) /\
         render_events tmp manifest (staged_images h fl) (staged_audios h fl) evs /\
         (forall buf, r = Return buf -> length evs = (length (scenes manifest) + 2)%nat))).
  { intros e -> H1. exists []. rewrite app_nil_r.
    split; [congruence|]. split; [apply shape_clean; constructor|].
    left. split; [reflexivity | discriminate]. }
  unfold render in Hrun. unfold bind at 1 in Hrun.
  destruct (mkdtempSync h _ st) as [[tmp|e] st1] eqn:E1;
    apply mkdtempSync_inv in E1 as [L1 E1].
  2:{ inversion Hrun; subst. eapply Hearly; eauto. }
  destruct E1 as ((sfx & Hsfx & Htmp) & _ & _).
  apply workspace_intro in Hsfx. rewrite <- Htmp in Hsfx. clear Htmp.
  unfold bind at 1 in Hrun.
  destruct (mkdirSync _ st1) as [[[]|e] st2] eqn:E2;
    apply mkdirSync_inv in E2 as [L2 E2].
  2:{ inversion Hrun; subst. eapply Hearly; eauto; congruence. }
  unfold bind at 1 in Hrun.
  destruct (mkdirSync _ st2) as [[[]|e] st3] eqn:E3;
    apply mkdirSync_inv in E3 as [L3 E3].
  2:{ inversion Hrun; subst. eapply Hearly; eauto; congruence. }
  assert (L : log st3 = log st) by congruence. clear L1 L2 L3 E2 E3 Hearly.
  apply render_in_log in Hrun as (evs & Hlog & Hshape & Hevs).
  exists evs. rewrite L in Hlog. split; [exact Hlog|]. split; [exact Hshape|].
  destruct Hevs as [Hevs | (fl & -> & Hcount & Hevs & Hlen)]; [left; exact Hevs|].
  right. exists tmp, fl. auto.
Qed.

(** * From [renderMp4] to [render] *)

Lemma renderMp4_valid (h : Host) files manifestJson manifest st :
  manifest_of h manifestJson = Some manifest ->
  renderMp4 h files manifestJson st = render h files manifest st.
Proof.
  unfold manifest_of, renderMp4. destruct (JSON_parse h manifestJson); [|discriminate].
  now intros ->.
Qed.

Lemma insert_sorted_length {A} (cmp : A -> A -> Z) x l :
  length (insert_sorted cmp x l) = S (length l).
Proof.
  induction l as [|y l IH]; [reflexivity|]. cbn [insert_sorted].
  destruct (cmp x y <=? 0); cbn [length]; [reflexivity | now rewrite IH].
Qed.

Lemma sort_length {A} (cmp : A -> A -> Z) l : length (sort cmp l) = length l.
Proof.
  induction l as [|x l IH]; [reflexivity|].
  cbn [sort foldr]. fold (sort cmp l). now rewrite insert_sorted_length, IH.
Qed.

Lemma exit_ok_true code : exit_ok code = true <-> code = Some 0.
Proof.
  split; [|now intros ->]. destruct code as [[| |]|]; cbn; congruence.
Qed.

Lemma exit_ok_false code : exit_ok code = false <-> code <> Some 0.
Proof.
  rewrite <- exit_ok_true. destruct (exit_ok code); split; congruence.
Qed.

(** * Allocating the workspace *)

Lemma render_allocated (h : Host) files manifest st tmp :
  workspace h (fs st) = Some tmp ->
  vacant (fs st) tmp ->
  render h files manifest st =
  render_in h tmp files manifest
    {| fs := <[path_join tmp "aud" := Dir]>
               (<[path_join tmp "imgs" := Dir]> (<[tmp := Dir]> (fs st)));
       log := log st |}.
Proof.
  unfold workspace, workspace_prefix. intros Hws Hvacant.
  unfold render, bind at 1, mkdtempSync.
  destruct (mkdtemp_suffix h (fs st) _) as [sfx|]; [|discriminate].
  injection Hws as Hws. rewrite Hws.
  rewrite (Hvacant tmp (under_refl tmp)).
  unfold bind at 1, mkdirSync at 1. cbn [fs log].
  rewrite lookup_insert_ne by (intros Heq; symmetry in Heq; exact (path_join_ne _ _ Heq)).
  rewrite (Hvacant _ (under_path_join tmp "imgs")).
  unfold bind at 1, mkdirSync at 1. cbn [fs log].
  rewrite lookup_insert_ne
    by (intros Heq; apply path_join_inj in Heq; discriminate).
  rewrite lookup_insert_ne by (intros Heq; symmetry in Heq; exact (path_join_ne _ _ Heq)).
  rewrite (Hvacant _ (under_path_join tmp "aud")).
  reflexivity.
Qed.

(** * The image count check *)

(** C6. With a valid manifest of N scenes and a number of images other
    than N, [renderMp4] throws and its log is the one it started with:
    no subprocess was spawned (and nothing was written).  When the
    workspace could be allocated, the error is the one of line 44,
    naming both counts. *)
Theorem renderMp4_count_mismatch_no_spawn
    (h : Host) (fl : Files) (manifestJson : string) (manifest : ManifestT) (st : State) :
  manifest_of h manifestJson = Some manifest ->
  length (or_empty (images fl)) <> length (scenes manifest) ->
  exists e st',
    renderMp4 h (Some fl) manifestJson st = (Throw e, st') /\
    log st' = log st /\
    forall tmp, workspace h (fs st) = Some tmp -> vacant (fs st) tmp ->
      e = Error (count_message (length (or_empty (images fl)))
                               (length (scenes manifest))).
Proof.
  intros Hvalid Hcount.
  rewrite (renderMp4_valid _ _ _ _ _ Hvalid).
  destruct (render h (Some fl) manifest st) as [r st'] eqn:Hrun.
  pose proof Hrun as Hlog.
  apply render_log in Hlog as (evs & Hlog & _ & Hevs).
  destruct Hevs as [[-> Hthrow] | (tmp & fl' & _ & [= <-] & Hlen & _)].
  2:{ unfold staged_images in Hlen. rewrite sort_length in Hlen. contradiction. }
  rewrite app_nil_r in Hlog.
  destruct r as [buf|e]; [now destruct (Hthrow buf)|].
  exists e, st'. split; [reflexivity|]. split; [exact Hlog|].
  intros tmp Hws Hvacant.
  rewrite (render_allocated _ _ _ _ _ Hws Hvacant) in Hrun.
  unfold render_in, bind at 1 in Hrun. cbn [ret] in Hrun.
  rewrite !sort_length in Hrun.
  apply Nat.eqb_neq in Hcount. rewrite Hcount in Hrun. cbn [negb throw] in Hrun.
  now inversion Hrun.
Qed.

(** * Subprocess failures *)

Lemma renderMp4_shape (h : Host) files manifestJson st r st' :
  renderMp4 h files manifestJson st = (r, st') ->
  exists evs, log st' = log st ++ evs /\ run_shape r evs.
Proof.
  assert (Hthrow : forall e, (Throw e, st) = (r, st') ->
            exists evs, log st' = log st ++ evs /\ run_shape r evs).
  { intros e [= <- <-]. exists []. rewrite app_nil_r. split; [reflexivity|].
    apply shape_clean. constructor. }
  unfold renderMp4. destruct (JSON_parse h manifestJson) as [j|]; [|apply Hthrow].
  destruct (Manifest (Some j)) as [manifest|]; [|apply Hthrow].
  intros Hrun. apply render_log in Hrun as (evs & Hlog & Hshape & _). eauto.
Qed.

Lemma failed_entry_is_last (evs evs0 rest : list Event) (f x : Event) :
  Forall (fun e => succeeded e = true) evs ->
  succeeded x = false ->
  evs ++ [f] = evs0 ++ x :: rest ->
  evs0 = evs /\ x = f /\ rest = [].
Proof.
  intros Hall Hx. revert evs0.
  induction Hall as [|a evs Ha _ IH]; intros [|b evs0] Heq; cbn in Heq.
  - now inversion Heq.
  - inversion Heq as [[Hb Hnil]]. now destruct evs0.
  - inversion Heq; subst. congruence.
  - inversion Heq as [[Hb Htl]]. subst b.
    destruct (IH _ Htl) as (-> & -> & ->). auto.
Qed.

(** C7, as the code has it.  If a subprocess of a render, a scene's
    encoder run or the concat run, exits with anything but code 0, then
    [renderMp4] throws a plain Error whose message is "ffmpeg failed
    (<exit code>): <stderr>" with the whole stderr text; no video bytes
    are returned; the failed subprocess is the last effect in the log,
    so it was not retried and nothing ran after it; and every earlier
    subprocess had succeeded, so the error is that of the first
    failure. *)
Theorem renderMp4_first_failure_is_fatal
    (h : Host) (files : option Files) (manifestJson : string)
    (st st' : State) (r : Completion string)
    (before rest : list Event) cmd args cwd code stderr :
  renderMp4 h files manifestJson st = (r, st') ->
  log st' = log st ++ before ++ Spawned cmd args cwd code stderr :: rest ->
  code <> Some 0 ->
  r = Throw (Error ("ffmpeg failed (" +:+ String_of_code code +:+ "): " +:+ stderr)) /\
  rest = [] /\
  Forall (fun e => succeeded e = true) before.
Proof.
  intros Hrun Hlog Hcode.
  apply renderMp4_shape in Hrun as (evs & Hevs & Hshape).
  rewrite Hevs in Hlog. apply app_inv_head in Hlog.
  apply exit_ok_false in Hcode.
  destruct Hshape as [r evs Hall | evs cmd' args' cwd' code' stderr' Hall Hcode'].
  - subst evs. apply Forall_app in Hall as [_ Hall].
    inversion Hall as [|? ? Hx _]; subst. cbn in Hx. congruence.
  - apply failed_entry_is_last in Hlog as (-> & Hx & ->); auto.
    inversion Hx; subst. auto.
Qed.

(** C7, a counterexample to the claim as stated: the error does not
    carry the scene index.  On the sample platform a failure in scene 0
    and a failure in scene 1 throw the same error. *)
Lemma error_does_not_tell_scene : ~ error_tells_scene.
Proof.
  intros [index_of Htells].
  pose (run k := renderMp4 (sample_host bytewise (Some k)) (Some sample_files)
                   two_scenes_text sample_state).
  assert (Hvalid : forall k,
    manifest_of (sample_host bytewise (Some k)) two_scenes_text
    = Some {| scenes := [ {| duration_sec := 5 # 1; hasAudio := false |};
                          {| duration_sec := 8 # 1; hasAudio := true |} ] |})
    by reflexivity.
  assert (H0 : fst (run 0%nat) = Throw (Error "ffmpeg failed (1): boom"))
    by (vm_compute; reflexivity).
  assert (H1 : fst (run 1%nat) = Throw (Error "ffmpeg failed (1): boom"))
    by (vm_compute; reflexivity).
  assert (L0 : exists cmd args cwd,
             log (snd (run 0%nat)) = [] ++ [] ++ [Spawned cmd args cwd (Some 1) "boom"])
    by (vm_compute; eauto).
  assert (L1 : exists e0 cmd args cwd,
             log (snd (run 1%nat)) = [] ++ [e0] ++ [Spawned cmd args cwd (Some 1) "boom"])
    by (vm_compute; eauto).
  destruct L0 as (c0 & a0 & w0 & L0). destruct L1 as (e1 & c1 & a1 & w1 & L1).
  assert (E0 : index_of (Error "ffmpeg failed (1): boom") = 0%nat).
  { eapply (Htells _ _ _ _ _ _ (snd (run 0%nat)) [] _ _ _ _ _ (Hvalid 0%nat)).
    - rewrite <- H0. apply surjective_pairing.
    - exact L0.
    - discriminate.
    - cbn. lia. }
  assert (E1 : index_of (Error "ffmpeg failed (1): boom") = 1%nat).
  { eapply (Htells _ _ _ _ _ _ (snd (run 1%nat)) [e1] _ _ _ _ _ (Hvalid 1%nat)).
    - rewrite <- H1. apply surjective_pairing.
    - exact L1.
    - discriminate.
    - cbn. lia. }
  congruence.
Qed.

(** * Scene order *)

Lemma output_path_segment_args imgPath audio dur seg :
  output_path (segment_args imgPath audio dur seg) = Some seg.
Proof. destruct audio; reflexivity. Qed.

Lemma render_events_scene tmp manifest imgs auds evs i e :
  render_events tmp manifest imgs auds evs ->
  (i < length (scenes manifest))%nat ->
  evs !! i = Some e ->
  scene_spawn tmp manifest imgs auds i e.
Proof.
  intros (evs1 & evs2 & -> & Hevs1 & Hevs2) Hi He.
  assert (Hin : (i < length evs1)%nat).
  { destruct Hevs2 as [-> | [Hlen _]]; [|lia].
    rewrite app_nil_r in He. now apply lookup_lt_Some in He. }
  rewrite lookup_app_l in He by exact Hin.
  destruct (Forall2_lookup_r _ _ _ _ _ Hevs1 He) as (i' & Hi' & Hspawn).
  apply lookup_take_Some in Hi' as [Hi' _].
  apply lookup_seq in Hi' as [-> _]. exact Hspawn.
Qed.



(** * Segment length *)

Lemma encode_scenes_fs_indices (h : Host) tmp manifest imgs auds indices acc st r st' :
  encode_scenes h tmp manifest imgs auds indices acc st = (r, st') ->
  forall p, (forall j, j ∈ indices -> p <> seg_path tmp j) -> fs st' !! p = fs st !! p.
Proof.
  revert acc st. induction indices as [|i rest IH]; intros acc st Hrun p Hp.
  - now inversion Hrun.
  - cbn [encode_scenes] in Hrun. unfold bind, element, ret, throw in Hrun.
    destruct (scenes manifest !! i) as [scene|]; [|now inversion Hrun].
    destruct (imgs !! i) as [image|]; [|now inversion Hrun].
    destruct (run h _ _ _ st) as [r3 st3] eqn:E3.
    apply run_inv in E3 as (code & stderr & written & _ & -> & ->).
    assert (Hstep : after_spawn
              (segment_args (path image) (audioFile auds i) (duration_sec scene)
                 (seg_path tmp i)) written (fs st) !! p = fs st !! p).
    { unfold after_spawn. rewrite output_path_segment_args.
      destruct written; [|reflexivity].
      apply lookup_insert_ne. intros Heq. apply (Hp i); [left | now symmetry]. }
    destruct (exit_ok code).
    + rewrite (IH _ _ Hrun p); [exact Hstep|]. intros j Hj. apply Hp. now right.
    + inversion Hrun; subst. exact Hstep.
Qed.

Lemma encode_scenes_fs (h : Host) tmp manifest imgs auds indices acc st r st' :
  encode_scenes h tmp manifest imgs auds indices acc st = (r, st') ->
  forall p, (forall i, p <> seg_path tmp i) -> fs st' !! p = fs st !! p.
Proof.
  intros Hrun p Hp. apply (encode_scenes_fs_indices _ _ _ _ _ _ _ _ _ _ Hrun).
  intros j _. apply Hp.
Qed.

Lemma output_is_no_segment (tmp : string) (i : nat) :
  path_join tmp "output.mp4" <> seg_path tmp i.
Proof.
  unfold seg_path. intros Heq. apply path_join_inj in Heq. discriminate.
Qed.




(** * The [hasAudio] field *)

Lemma encode_scenes_durations (h : Host) tmp m1 m2 imgs auds :
  map duration_sec (scenes m1) = map duration_sec (scenes m2) ->
  forall indices acc st,
    encode_scenes h tmp m1 imgs auds indices acc st
    = encode_scenes h tmp m2 imgs auds indices acc st.
Proof.
  intros Hdur. induction indices as [|i rest IH]; intros acc st; [reflexivity|].
  cbn [encode_scenes]. unfold bind, element, ret, throw.
  assert (Hi : duration_sec <$> scenes m1 !! i = duration_sec <$> scenes m2 !! i).
  { rewrite <- !list_lookup_fmap. change (fmap duration_sec) with (map duration_sec).
    now rewrite Hdur. }
  destruct (scenes m1 !! i) as [s1|], (scenes m2 !! i) as [s2|];
    try discriminate; [|reflexivity].
  injection Hi as Hi. rewrite Hi.
  destruct (imgs !! i) as [image|]; [|reflexivity].
  destruct (run h _ _ _ st) as [[[]|e] st2]; [|reflexivity].
  apply IH.
Qed.

(** C3. Two manifests that give the same durations in the same order,
    whatever their [hasAudio] values, make [renderMp4] behave alike on
    the same files and in the same state: the same subprocesses with the
    same command lines, the same result, the same final state. *)
Theorem renderMp4_ignores_hasAudio
    (h : Host) (files : option Files) (text1 text2 : string)
    (m1 m2 : ManifestT) (st : State) :
  manifest_of h text1 = Some m1 ->
  manifest_of h text2 = Some m2 ->
  map duration_sec (scenes m1) = map duration_sec (scenes m2) ->
  renderMp4 h files text1 st = renderMp4 h files text2 st.
Proof.
  intros H1 H2 Hdur.
  rewrite (renderMp4_valid _ _ _ _ _ H1), (renderMp4_valid _ _ _ _ _ H2).
  assert (Hlen : length (scenes m1) = length (scenes m2)).
  { apply (f_equal length) in Hdur. now rewrite !length_map in Hdur. }
  unfold render, bind.
  destruct (mkdtempSync h _ st) as [[tmp|e] st1]; [|reflexivity].
  destruct (mkdirSync _ st1) as [[[]|e] st2]; [|reflexivity].
  destruct (mkdirSync _ st2) as [[[]|e] st3]; [|reflexivity].
  unfold render_in, bind, ret, throw.
  destruct files as [fl|]; [|reflexivity].
  rewrite Hlen. destruct (negb _); [reflexivity|].
  rewrite (encode_scenes_durations h tmp m1 m2 _ _ Hdur). reflexivity.
Qed.

(** * Renders on a reliable encoder *)

Lemma run_reliable (h : Host) cmd args cwd st :
  reliable h ->
  exists stderr data,
    run h cmd args cwd st =
    (Return tt, {| fs := after_spawn args (Some data) (fs st);
                   log := log st ++ [Spawned cmd args cwd (Some 0) stderr] |}).
Proof.
  intros Hrel. destruct (Hrel cmd args cwd (fs st)) as (stderr & data & Hspawn).
  exists stderr, data. unfold run. rewrite Hspawn. reflexivity.
Qed.

Lemma encode_scenes_reliable (h : Host) tmp manifest imgs auds indices acc st :
  reliable h ->
  Forall (fun i => (i < length (scenes manifest))%nat /\ (i < length imgs)%nat) indices ->
  exists segs st',
    encode_scenes h tmp manifest imgs auds indices acc st = (Return segs, st') /\
    (forall p, under tmp p = false -> fs st' !! p = fs st !! p) /\
    (forall p, fs st' !! p = Some Dir -> fs st !! p = Some Dir).
Proof.
  intros Hrel Hrange. revert acc st.
  induction Hrange as [|i rest [Hscene Himage] _ IH]; intros acc st.
  - exists acc, st. auto.
  - cbn [encode_scenes]. unfold bind, element, ret.
    apply lookup_lt_is_Some_2 in Hscene as [scene ->].
    apply lookup_lt_is_Some_2 in Himage as [image ->].
    destruct (run_reliable h "ffmpeg"
                (segment_args (path image) (audioFile auds i) (duration_sec scene)
                   (seg_path tmp i)) tmp st Hrel) as (stderr & data & ->).
    destruct (IH (acc ++ [seg_path tmp i])
                {| fs := after_spawn
                           (segment_args (path image) (audioFile auds i)
                              (duration_sec scene) (seg_path tmp i))
                           (Some data) (fs st);
                   log := log st ++ [Spawned "ffmpeg"
                           (segment_args (path image) (audioFile auds i)
                              (duration_sec scene) (seg_path tmp i))
                           tmp (Some 0) stderr] |})
      as (segs & st' & -> & Hout & Hdir).
    exists segs, st'. split; [reflexivity|].
    cbn [fs] in Hout, Hdir. unfold after_spawn in Hout, Hdir.
    rewrite output_path_segment_args in Hout, Hdir.
    split.
    + intros p Hp. rewrite (Hout p Hp). apply lookup_insert_ne.
      intros <-. rewrite under_seg_path in Hp. discriminate.
    + intros p Hp. apply Hdir in Hp.
      destruct (decide (seg_path tmp i = p)) as [<-|Hne].
      * rewrite lookup_insert_eq in Hp. discriminate.
      * now rewrite lookup_insert_ne in Hp.
Qed.

Lemma render_in_reliable (h : Host) tmp fl manifest st :
  reliable h ->
  length (staged_images h fl) = length (scenes manifest) ->
  fs st !! path_join tmp "list.txt" <> Some Dir ->
  exists buf st1,
    render_in h tmp (Some fl) manifest st
    = (Return buf, snd (cleanup tmp (staged_images h fl) (staged_audios h fl) st1)) /\
    (forall p, under tmp p = false -> fs st1 !! p = fs st !! p).
Proof.
  intros Hrel Hcount Hlist.
  unfold render_in. unfold bind at 1. cbn [ret].
  fold (staged_images h fl). fold (staged_audios h fl).
  apply Nat.eqb_eq in Hcount as Hcount'. rewrite Hcount'. cbn [negb].
  apply Nat.eqb_eq in Hcount'.
  destruct (encode_scenes_reliable h tmp manifest (staged_images h fl)
              (staged_audios h fl) (seq 0 (length (scenes manifest))) [] st Hrel)
    as (segs & st4 & Hloop & Hout & Hdir).
  { apply Forall_forall. intros i Hi. apply elem_of_seq in Hi. lia. }
  unfold bind at 1. rewrite Hloop.
  unfold bind at 1, writeFileSync at 1.
  destruct (fs st4 !! path_join tmp "list.txt") as [[d|]|] eqn:Hl;
    [| now apply Hdir in Hl |];
    unfold bind at 1;
    match goal with |- context [run h ?c ?a ?w ?s] =>
      destruct (run_reliable h c a w s Hrel) as (stderr & data & ->) end;
    unfold bind at 1, readFileSync at 1; cbn [fs];
    unfold after_spawn; cbn [output_path concat_args last];
    rewrite lookup_insert_eq; unfold bind at 1;
    match goal with |- context [cleanup ?t ?i ?a ?s] =>
      exists data, s; destruct (cleanup t i a s) as [r8 st8] eqn:E8;
      apply cleanup_inv in E8 as [-> _]; cbn [ret snd] end;
    (split; [reflexivity|]);
    intros p Hp; cbn [fs];
    rewrite lookup_insert_ne
      by (intros <-; rewrite under_path_join in Hp; discriminate);
    rewrite lookup_insert_ne
      by (intros <-; rewrite under_path_join in Hp; discriminate);
    apply Hout; exact Hp.
Qed.

(** C9. With a valid manifest, as many images as scenes and fewer audio
    files than images, on a platform where the workspace can be
    allocated and every subprocess succeeds, [renderMp4] returns the
    video, and every scene from index count(audios) on is encoded by the
    silent command line: one input, no audio codec, no [-shortest]. *)
Theorem renderMp4_fewer_audios_silent
    (h : Host) (fl : Files) (manifestJson : string) (manifest : ManifestT)
    (st : State) (tmp : string) :
  manifest_of h manifestJson = Some manifest ->
  length (or_empty (images fl)) = length (scenes manifest) ->
  (length (or_empty (audios fl)) < length (or_empty (images fl)))%nat ->
  workspace h (fs st) = Some tmp ->
  vacant (fs st) tmp ->
  reliable h ->
  exists buf st' evs,
    renderMp4 h (Some fl) manifestJson st = (Return buf, st') /\
    log st' = log st ++ evs /\
    forall i,
      (length (or_empty (audios fl)) <= i < length (scenes manifest))%nat ->
      exists scene image stderr,
        scenes manifest !! i = Some scene /\
        staged_images h fl !! i = Some image /\
        evs !! i = Some (Spawned "ffmpeg"
                           [ Lit "-y"; Lit "-loop"; Lit "1"; Lit "-i"; Lit (path image);
                             Lit "-t"; Num (duration_sec scene); Lit "-vf"; Lit vf;
                             Lit "-r"; Lit "30"; Lit "-c:v"; Lit "libx264";
                             Lit (seg_path tmp i) ]
                           tmp (Some 0) stderr).
Proof.
  intros Hvalid Hcount Hfewer Hws Hvacant Hrel.
  rewrite (renderMp4_valid _ _ _ _ _ Hvalid), (render_allocated _ _ _ _ _ Hws Hvacant).
  assert (Hcount' : length (staged_images h fl) = length (scenes manifest))
    by (unfold staged_images; now rewrite sort_length).
  set (st3 := {| fs := _; log := log st |}).
  destruct (render_in_reliable h tmp fl manifest st3 Hrel Hcount') as (buf & st1 & Hrun & _).
  { subst st3. cbn [fs].
    rewrite !lookup_insert_ne
      by (intros Heq; first [ apply path_join_inj in Heq; discriminate
                            | symmetry in Heq; exact (path_join_ne _ _ Heq) ]).
    rewrite (Hvacant _ (under_path_join tmp "list.txt")). discriminate. }
  rewrite Hrun. eexists buf, _. 
  apply render_in_log in Hrun as (evs & Hlog & Hshape & Hevs).
  exists evs. split; [reflexivity|]. split; [exact Hlog|].
  destruct Hevs as [[_ Hthrow] | (fl' & [= <-] & _ & Hevs & Hlen)];
    [now destruct (Hthrow buf)|].
  apply run_shape_return in Hshape.
  intros i [Haud Hi].
  destruct (lookup_lt_is_Some_2 evs i) as [e He]; [rewrite (Hlen buf eq_refl); lia|].
  destruct (render_events_scene _ _ _ _ _ _ _ Hevs Hi He)
    as (scene & image & code & stderr & Hscene & Himage & ->).
  exists scene, image, stderr. split; [exact Hscene|]. split; [exact Himage|].
  rewrite He. rewrite Forall_lookup in Hshape. specialize (Hshape _ _ He).
  apply exit_ok_true in Hshape. subst code.
  unfold audioFile. rewrite lookup_ge_None_2; [reflexivity|].
  unfold staged_audios. now rewrite sort_length.
Qed.

(** * Sorting with a comparator *)

Section SortFacts.
Context {A : Type} (cmp : A -> A -> Z).

Local Abbreviation le := (cmp_le cmp).

Lemma insert_sorted_perm (x : A) (l : list A) : insert_sorted cmp x l ≡ₚ x :: l.
Proof.
  induction l as [|y l IH]; [reflexivity|]. cbn [insert_sorted].
  destruct (cmp x y <=? 0); [reflexivity|].
  rewrite IH. apply Permutation_swap.
Qed.

Lemma sort_perm (l : list A) : sort cmp l ≡ₚ l.
Proof.
  induction l as [|x l IH]; [reflexivity|].
  cbn [sort foldr]. fold (sort cmp l). now rewrite insert_sorted_perm, IH.
Qed.

Hypothesis cmp_total : forall a b, cmp a b <= 0 \/ cmp b a <= 0.

Lemma insert_sorted_HdRel (y x : A) (l : list A) :
  le y x -> HdRel le y l -> HdRel le y (insert_sorted cmp x l).
Proof.
  intros Hyx Hl. destruct l as [|z l]; cbn [insert_sorted]; [now constructor|].
  destruct (cmp x z <=? 0); constructor; [exact Hyx|].
  inversion Hl; subst; assumption.
Qed.

Lemma insert_sorted_Sorted (x : A) (l : list A) :
  Sorted le l -> Sorted le (insert_sorted cmp x l).
Proof.
  induction 1 as [|y l Hl IH Hhd]; cbn [insert_sorted]; [repeat constructor|].
  destruct (cmp x y <=? 0) eqn:Hxy.
  - apply Z.leb_le in Hxy. constructor; [now constructor | now constructor].
  - apply Z.leb_gt in Hxy. constructor; [exact IH|].
    apply insert_sorted_HdRel; [|exact Hhd].
    destruct (cmp_total y x) as [Hyx|Hyx]; [exact Hyx | unfold le in *; lia].
Qed.

Lemma sort_Sorted (l : list A) : Sorted le (sort cmp l).
Proof.
  induction l as [|x l IH]; [constructor|].
  cbn [sort foldr]. now apply insert_sorted_Sorted.
Qed.

Hypothesis cmp_trans : forall a b c, cmp a b <= 0 -> cmp b c <= 0 -> cmp a c <= 0.

Lemma sort_StronglySorted (l : list A) : StronglySorted le (sort cmp l).
Proof.
  apply Sorted_StronglySorted; [|apply sort_Sorted].
  intros a b c. apply cmp_trans.
Qed.

Lemma sorted_perm_unique (l1 l2 : list A) :
  StronglySorted le l1 -> StronglySorted le l2 -> l1 ≡ₚ l2 ->
  (forall a b, a ∈ l1 -> b ∈ l1 -> le a b -> le b a -> a = b) ->
  l1 = l2.
Proof.
  intros H1. revert l2. induction H1 as [|a l1 Hs1 IH Ha]; intros l2 H2 Hperm Hanti.
  - now apply Permutation_nil in Hperm.
  - destruct H2 as [|b l2 Hs2 Hb].
    { symmetry in Hperm. now apply Permutation_nil in Hperm. }
    assert (Hrefl : forall c, le c c) by (intros c; now destruct (cmp_total c c)).
    assert (Hba : le b a).
    { assert (Hin : a ∈ b :: l2) by (rewrite <- Hperm; left).
      apply elem_of_cons in Hin as [->|Hin]; [apply Hrefl|].
      rewrite Forall_forall in Hb. apply Hb. exact Hin. }
    assert (Hbin : b ∈ a :: l1) by (rewrite Hperm; left).
    assert (Hab : le a b).
    { apply elem_of_cons in Hbin as [->|Hin]; [apply Hrefl|].
      rewrite Forall_forall in Ha. apply Ha. exact Hin. }
    assert (a = b) by (apply Hanti; [left | exact Hbin | exact Hab | exact Hba]).
    subst b. f_equal. apply IH; [exact Hs2 | now apply Permutation_cons_inv in Hperm |].
    intros c d Hc Hd. apply Hanti; now right.
Qed.

Lemma sort_arrival_independent (l l' : list A) :
  l ≡ₚ l' ->
  (forall a b, a ∈ l -> b ∈ l -> cmp a b <= 0 -> cmp b a <= 0 -> a = b) ->
  sort cmp l = sort cmp l'.
Proof.
  intros Hperm Hanti. apply sorted_perm_unique; try apply sort_StronglySorted.
  - now rewrite !sort_perm.
  - intros a b Ha Hb. rewrite sort_perm in Ha, Hb. now apply Hanti.
Qed.
End SortFacts.

(** * Staging *)

Lemma bytewise_le (a b : string) : bytewise a b <= 0 <-> String.le a b.
Proof.
  unfold bytewise, String.le, String.leb.
  destruct (String.compare a b); cbn; intuition (lia || discriminate).
Qed.

Lemma bytewise_total (a b : string) : bytewise a b <= 0 \/ bytewise b a <= 0.
Proof. rewrite !bytewise_le. apply String.le_total. Qed.

Lemma bytewise_trans (a b c : string) :
  bytewise a b <= 0 -> bytewise b c <= 0 -> bytewise a c <= 0.
Proof. rewrite !bytewise_le. apply transitivity. Qed.

(** C4, as the code has it.  The two role partitions arrive separated
    ([files.images], [files.audios]); each is sorted by original file
    name with the platform's [localeCompare].  For a comparison that is
    total and transitive, each staged sequence is a rearrangement of the
    uploads of its role in ascending order of that comparison, ties or
    no ties; and a partition in which no two files have names that tie
    is staged the same way whatever order its uploads arrived in. *)
Theorem staging_sorts_by_localeCompare (h : Host) (fl : Files) :
  (forall a b, localeCompare h a b <= 0 \/ localeCompare h b a <= 0) ->
  (forall a b c, localeCompare h a b <= 0 -> localeCompare h b c <= 0 ->
                 localeCompare h a c <= 0) ->
  staged_images h fl ≡ₚ or_empty (images fl) /\
  staged_audios h fl ≡ₚ or_empty (audios fl) /\
  Sorted (fun a b => localeCompare h (originalname a) (originalname b) <= 0)
         (staged_images h fl) /\
  Sorted (fun a b => localeCompare h (originalname a) (originalname b) <= 0)
         (staged_audios h fl) /\
  forall fl' : Files,
    or_empty (images fl) ≡ₚ or_empty (images fl') ->
    or_empty (audios fl) ≡ₚ or_empty (audios fl') ->
    (no_ties h (or_empty (images fl)) -> staged_images h fl = staged_images h fl') /\
    (no_ties h (or_empty (audios fl)) -> staged_audios h fl = staged_audios h fl').
Proof.
  intros Htotal Htrans.
  assert (Ht : forall a b : UploadedFile, by_originalname h a b <= 0 \/ by_originalname h b a <= 0)
    by (intros a b; apply Htotal).
  assert (Hr : forall a b c : UploadedFile,
            by_originalname h a b <= 0 -> by_originalname h b c <= 0 ->
            by_originalname h a c <= 0)
    by (intros a b c; apply Htrans).
  unfold staged_images, staged_audios.
  split; [apply sort_perm|]. split; [apply sort_perm|].
  split; [apply (sort_Sorted (by_originalname h) Ht)|].
  split; [apply (sort_Sorted (by_originalname h) Ht)|].
  intros fl' Himg Haud.
  split; intros Hties; apply sort_arrival_independent; assumption.
Qed.

(** C4, a counterexample to the claim as stated, in both its parts.
    On a platform whose [localeCompare] ignores letter case, "B.png"
    and "a.png" are staged as a.png, B.png, which is not byte-wise
    order; and two uploads that share a name are staged in their order
    of arrival, even under a byte-wise comparison. *)
Lemma staging_not_by_bytes_nor_whatever_arrival :
  ~ staged_in_byte_order /\ ~ staged_whatever_arrival.
Proof.
  split.
  - intros Hclaim.
    specialize (Hclaim (sample_host caseless None)
                  [upload "B.png" "/tmp/uploads/f1"; upload "a.png" "/tmp/uploads/f2"]).
    change (sort _ _)
      with [upload "a.png" "/tmp/uploads/f2"; upload "B.png" "/tmp/uploads/f1"] in Hclaim.
    inversion Hclaim as [|? ? _ Hhd]; subst.
    inversion Hhd as [|? ? Hle]; subst.
    change (1 <= 0) in Hle. lia.
  - intros Hclaim.
    specialize (Hclaim (sample_host bytewise None) [twin_a; twin_b] [twin_b; twin_a]
                  (Permutation_swap _ _ _)).
    vm_compute in Hclaim. discriminate.
Qed.

(** * Cleanup *)

Lemma unlink_each_all (fl : list UploadedFile) (st : State) :
  NoDup (map path fl) ->
  (forall f, f ∈ fl -> exists d, fs st !! path f = Some (File d)) ->
  exists st',
    unlink_each fl st = (Return tt, st') /\
    log st' = log st /\
    (forall p, p ∈ map path fl -> fs st' !! p = None) /\
    (forall p, p ∉ map path fl -> fs st' !! p = fs st !! p).
Proof.
  revert st. induction fl as [|f fl IH]; intros st Hnodup Hfiles.
  - exists st. repeat split; auto. intros p Hp. now apply elem_of_nil in Hp.
  - cbn [map] in Hnodup. apply NoDup_cons in Hnodup as [Hf Hnodup].
    destruct (Hfiles f) as [d Hd]; [left|].
    cbn [unlink_each]. unfold bind, unlinkSync. rewrite Hd.
    destruct (IH {| fs := delete (path f) (fs st); log := log st |} Hnodup)
      as (st' & -> & Hlog & Hgone & Hkept).
    { intros f' Hf'. destruct (Hfiles f') as [d' Hd']; [now right|].
      exists d'. cbn [fs]. rewrite lookup_delete_ne; [exact Hd'|].
      intros Heq. apply Hf. rewrite Heq. now apply list_elem_of_fmap_2. }
    exists st'. split; [reflexivity|]. split; [exact Hlog|]. cbn [fs] in Hkept. split.
    + intros p Hp. cbn [map] in Hp. apply elem_of_cons in Hp as [->|Hp].
      * rewrite (Hkept _ Hf). apply lookup_delete_eq.
      * now apply Hgone.
    + intros p Hp. cbn [map] in Hp. apply not_elem_of_cons in Hp as [Hne Hp].
      rewrite (Hkept _ Hp). now apply lookup_delete_ne.
Qed.

Lemma cleanup_effect (tmp : string) (imgs auds : list UploadedFile) (st : State) :
  NoDup (map path (imgs ++ auds)) ->
  (forall f, f ∈ imgs ++ auds -> exists d, fs st !! path f = Some (File d)) ->
  forall p,
    fs (snd (cleanup tmp imgs auds st)) !! p
    = if under tmp p then None
      else if decide (p ∈ map path (imgs ++ auds)) then None
      else fs st !! p.
Proof.
  intros Hnodup Hfiles p.
  destruct (unlink_each_all _ st Hnodup Hfiles) as (st1 & Hrun & _ & Hgone & Hkept).
  unfold cleanup, try_catch_ignore, bind. rewrite Hrun. cbn [snd rmSync fs].
  destruct (under tmp p) eqn:Hunder.
  - apply map_lookup_filter_None. right. intros x _. cbn. congruence.
  - destruct (decide (p ∈ map path (imgs ++ auds))) as [Hin|Hout].
    + apply map_lookup_filter_None. left. now apply Hgone.
    + rewrite <- (Hkept _ Hout). destruct (fs st1 !! p) as [x|] eqn:Hp.
      * apply map_lookup_filter_Some. split; [exact Hp | exact Hunder].
      * apply map_lookup_filter_None. now left.
Qed.

(** The success path does clean up: when the render returns the video,
    nothing is left at or below the workspace directory, the uploaded
    files are gone, and no other path was touched.  (The uploads are
    files of the starting file system, each with a path of its own.) *)
Lemma renderMp4_success_cleans_up
    (h : Host) (fl : Files) (manifestJson : string) (manifest : ManifestT)
    (st : State) (tmp : string) :
  let uploads := or_empty (images fl) ++ or_empty (audios fl) in
  manifest_of h manifestJson = Some manifest ->
  length (or_empty (images fl)) = length (scenes manifest) ->
  workspace h (fs st) = Some tmp ->
  vacant (fs st) tmp ->
  reliable h ->
  NoDup (map path uploads) ->
  (forall f, f ∈ uploads -> exists d, fs st !! path f = Some (File d)) ->
  exists buf st',
    renderMp4 h (Some fl) manifestJson st = (Return buf, st') /\
    (forall p, under tmp p = true -> fs st' !! p = None) /\
    (forall f, f ∈ uploads -> fs st' !! path f = None) /\
    (forall p, under tmp p = false -> p ∉ map path uploads -> fs st' !! p = fs st !! p).
Proof.
  intros uploads Hvalid Hcount Hws Hvacant Hrel Hnodup Hfiles.
  rewrite (renderMp4_valid _ _ _ _ _ Hvalid), (render_allocated _ _ _ _ _ Hws Hvacant).
  assert (Hcount' : length (staged_images h fl) = length (scenes manifest))
    by (unfold staged_images; now rewrite sort_length).
  set (st3 := {| fs := _; log := log st |}).
  assert (Hst3 : forall p, under tmp p = false -> fs st3 !! p = fs st !! p).
  { intros p Hp. subst st3. cbn [fs].
    rewrite !lookup_insert_ne; [reflexivity|..];
      intros <-; rewrite ?under_path_join, ?under_refl in Hp; discriminate. }
  destruct (render_in_reliable h tmp fl manifest st3 Hrel Hcount') as (buf & st1 & Hrun & Hst1).
  { subst st3. cbn [fs].
    rewrite !lookup_insert_ne
      by (intros Heq; first [ apply path_join_inj in Heq; discriminate
                            | symmetry in Heq; exact (path_join_ne _ _ Heq) ]).
    rewrite (Hvacant _ (under_path_join tmp "list.txt")). discriminate. }
  rewrite Hrun. eexists buf, _. split; [reflexivity|].
  assert (Hperm : staged_images h fl ++ staged_audios h fl ≡ₚ uploads).
  { unfold staged_images, staged_audios, uploads. now rewrite !sort_perm. }
  assert (Houtside : forall f, f ∈ uploads -> under tmp (path f) = false).
  { intros f Hf. destruct (Hfiles f Hf) as [d Hd].
    destruct (under tmp (path f)) eqn:Hu; [|reflexivity].
    rewrite (Hvacant _ Hu) in Hd. discriminate. }
  assert (Hclean : forall p,
    fs (snd (cleanup tmp (staged_images h fl) (staged_audios h fl) st1)) !! p
    = if under tmp p then None
      else if decide (p ∈ map path (staged_images h fl ++ staged_audios h fl)) then None
      else fs st1 !! p).
  { apply cleanup_effect.
    - rewrite Hperm. exact Hnodup.
    - intros f Hf. rewrite Hperm in Hf. destruct (Hfiles f Hf) as [d Hd].
      exists d. rewrite Hst1, Hst3; auto. }
  repeat split.
  - intros p Hp. now rewrite Hclean, Hp.
  - intros f Hf. rewrite Hclean, (Houtside f Hf).
    rewrite decide_True; [reflexivity|].
    apply list_elem_of_fmap_2. now rewrite Hperm.
  - intros p Hp Hout. rewrite Hclean, Hp.
    rewrite decide_False; [now rewrite Hst1, Hst3|].
    intros Hin. apply Hout. apply list_elem_of_fmap in Hin as (f & -> & Hf).
    apply list_elem_of_fmap_2. now rewrite <- Hperm.
Qed.

(** The error paths do not: whenever the count check fails in an
    allocated workspace, the call throws with the workspace directory
    still there and every path outside it, the uploads among them, as
    it was. *)
Lemma render_count_mismatch_leaks
    (h : Host) (fl : Files) (manifest : ManifestT) (st : State) (tmp : string) :
  workspace h (fs st) = Some tmp ->
  vacant (fs st) tmp ->
  length (or_empty (images fl)) <> length (scenes manifest) ->
  exists e st',
    render h (Some fl) manifest st = (Throw e, st') /\
    fs st' !! tmp = Some Dir /\
    (forall p, under tmp p = false -> fs st' !! p = fs st !! p).
Proof.
  intros Hws Hvacant Hcount.
  rewrite (render_allocated _ _ _ _ _ Hws Hvacant).
  unfold render_in, bind at 1. cbn [ret]. rewrite !sort_length.
  apply Nat.eqb_neq in Hcount. rewrite Hcount. cbn [negb throw].
  eexists _, _. split; [reflexivity|]. cbn [fs]. split.
  - rewrite !lookup_insert_ne
      by (intros Heq; exact (path_join_ne _ _ Heq)).
    apply lookup_insert_eq.
  - intros p Hp.
    rewrite !lookup_insert_ne; [reflexivity|..];
      intros <-; rewrite ?under_path_join, ?under_refl in Hp; discriminate.
Qed.

(** C1, where the code falls short.  With two scenes in the manifest
    and one image uploaded, [renderMp4] throws the count error of line
    44 and returns with the workspace directory and its two
    subdirectories still in place and the uploaded image still on disk:
    the cleanup of lines 94-98 is only reached on the success path. *)
Theorem renderMp4_leaves_workspace_on_count_mismatch :
  let run := renderMp4 (sample_host bytewise None) (Some short_files)
               two_scenes_text sample_state in
  fst run = Throw (Error "Images count (1) must match scenes (2).") /\
  fs (snd run) !! "/tmp/creator-station-AbC123" = Some Dir /\
  fs (snd run) !! "/tmp/creator-station-AbC123/imgs" = Some Dir /\
  fs (snd run) !! "/tmp/creator-station-AbC123/aud" = Some Dir /\
  fs (snd run) !! "/tmp/uploads/f2" = Some (File "png 1").
Proof. vm_compute. repeat split; reflexivity. Qed.

(** The same on an encoder failure: scene 1 fails, the error of [run]
    is thrown, and the workspace stays behind with the segment of
    scene 0 in it, next to the uploads. *)
Example renderMp4_leaves_workspace_on_encoder_failure :
  let run := renderMp4 (sample_host bytewise (Some 1%nat)) (Some sample_files)
               two_scenes_text sample_state in
  fst run = Throw (Error "ffmpeg failed (1): boom") /\
  fs (snd run) !! "/tmp/creator-station-AbC123" = Some Dir /\
  fs (snd run) !! "/tmp/creator-station-AbC123/seg_000.mp4" = Some (File "mp4") /\
  fs (snd run) !! "/tmp/uploads/f1" = Some (File "png 2").
Proof. vm_compute. repeat split; reflexivity. Qed.

(** * The properties at work on the sample platform *)

Lemma sample_fs_vacant : vacant sample_fs "/tmp/creator-station-AbC123".
Proof.
  intros p Hp. unfold sample_fs.
  rewrite !lookup_insert_ne by (intros <-; vm_compute in Hp; discriminate).
  apply lookup_empty.
Qed.

Lemma sample_host_reliable (compare : string -> string -> Z) :
  reliable (sample_host compare None).
Proof. intros cmd args cwd m. exists "", "mp4". reflexivity. Qed.

Lemma pair_no_ties (h : Host) (f g : UploadedFile) :
  0 < by_originalname h f g \/ 0 < by_originalname h g f ->
  no_ties h [f; g].
Proof.
  intros Hfg a b Ha Hb Hab Hba.
  apply elem_of_cons in Ha as [->|Ha]; [|apply elem_of_cons in Ha as [->|Ha];
    [|now apply elem_of_nil in Ha]];
  (apply elem_of_cons in Hb as [->|Hb]; [|apply elem_of_cons in Hb as [->|Hb];
    [|now apply elem_of_nil in Hb]]);
  first [reflexivity | lia].
Qed.

Lemma single_no_ties (h : Host) (f : UploadedFile) : no_ties h [f].
Proof.
  intros a b Ha Hb _ _.
  apply elem_of_cons in Ha as [->|Ha]; [|now apply elem_of_nil in Ha].
  apply elem_of_cons in Hb as [->|Hb]; [|now apply elem_of_nil in Hb].
  reflexivity.
Qed.

Lemma renderMp4_bad_manifest_no_effect_witness :
  renderMp4 (sample_host bytewise None) (Some sample_files) zero_duration_text sample_state
  = (Throw ZodError, sample_state).
Proof.
  exact (renderMp4_bad_manifest_no_effect (sample_host bytewise None)
           (Some sample_files) zero_duration_text sample_state eq_refl).
Defined.

Lemma renderMp4_count_mismatch_no_spawn_witness :
  exists st',
    renderMp4 (sample_host bytewise None) (Some short_files) two_scenes_text sample_state
    = (Throw (Error "Images count (1) must match scenes (2)."), st') /\
    log st' = [].
Proof.
  destruct (renderMp4_count_mismatch_no_spawn (sample_host bytewise None) short_files
              two_scenes_text
              {| scenes := [ {| duration_sec := 5 # 1; hasAudio := false |};
                             {| duration_sec := 8 # 1; hasAudio := true |} ] |}
              sample_state eq_refl)
    as (e & st' & Hrun & Hlog & Herr).
  - cbn. lia.
  - exists st'. rewrite (Herr "/tmp/creator-station-AbC123" eq_refl sample_fs_vacant) in Hrun.
    split; [exact Hrun | exact Hlog].
Defined.

Lemma renderMp4_first_failure_is_fatal_witness :
  fst (renderMp4 (sample_host bytewise (Some 1%nat)) (Some sample_files)
         two_scenes_text sample_state)
  = Throw (Error "ffmpeg failed (1): boom").
Proof.
  pose (run := renderMp4 (sample_host bytewise (Some 1%nat)) (Some sample_files)
                 two_scenes_text sample_state).
  refine (proj1 (renderMp4_first_failure_is_fatal (sample_host bytewise (Some 1%nat))
                   (Some sample_files) two_scenes_text sample_state (snd run) (fst run)
                   [_] [] _ _ _ (Some 1) "boom" _ _ _)).
  - apply surjective_pairing.
  - vm_compute. reflexivity.
  - discriminate.
Defined.









Lemma renderMp4_ignores_hasAudio_witness :
  renderMp4 (sample_host bytewise None) (Some sample_files) two_scenes_text sample_state
  = renderMp4 (sample_host bytewise None) (Some sample_files)
      two_scenes_flipped_text sample_state.
Proof.
  exact (renderMp4_ignores_hasAudio (sample_host bytewise None) (Some sample_files)
           two_scenes_text two_scenes_flipped_text
           {| scenes := [ {| duration_sec := 5 # 1; hasAudio := false |};
                          {| duration_sec := 8 # 1; hasAudio := true |} ] |}
           {| scenes := [ {| duration_sec := 5 # 1; hasAudio := true |};
                          {| duration_sec := 8 # 1; hasAudio := false |} ] |}
           sample_state eq_refl eq_refl eq_refl).
Defined.

Lemma renderMp4_fewer_audios_silent_witness :
  exists buf st' evs stderr,
    renderMp4 (sample_host bytewise None) (Some sample_files) two_scenes_text sample_state
    = (Return buf, st') /\
    log st' = evs /\
    evs !! 1%nat
    = Some (Spawned "ffmpeg"
              [ Lit "-y"; Lit "-loop"; Lit "1"; Lit "-i"; Lit "/tmp/uploads/f1";
                Lit "-t"; Num (8 # 1); Lit "-vf"; Lit vf;
                Lit "-r"; Lit "30"; Lit "-c:v"; Lit "libx264";
                Lit "/tmp/creator-station-AbC123/seg_001.mp4" ]
              "/tmp/creator-station-AbC123" (Some 0) stderr).
Proof.
  destruct (renderMp4_fewer_audios_silent (sample_host bytewise None) sample_files
              two_scenes_text
              {| scenes := [ {| duration_sec := 5 # 1; hasAudio := false |};
                             {| duration_sec := 8 # 1; hasAudio := true |} ] |}
              sample_state "/tmp/creator-station-AbC123")
    as (buf & st' & evs & Hrun & Hlog & Hsilent).
  - reflexivity.
  - reflexivity.
  - cbn. lia.
  - reflexivity.
  - exact sample_fs_vacant.
  - apply sample_host_reliable.
  - destruct (Hsilent 1%nat) as (scene & image & stderr & Hscene & Himage & He);
      [cbn; lia|].
    injection Hscene as <-. injection Himage as <-.
    exists buf, st', evs, stderr. split; [exact Hrun|]. split; [exact Hlog | exact He].
Defined.

Lemma staging_sorts_by_localeCompare_witness :
  staged_images (sample_host bytewise None) sample_files
  = staged_images (sample_host bytewise None) sample_files_swapped /\
  map originalname (staged_images (sample_host bytewise None) sample_files)
  = ["01.png"; "02.png"].
Proof.
  destruct (staging_sorts_by_localeCompare (sample_host bytewise None) sample_files
              bytewise_total bytewise_trans)
    as (_ & _ & _ & _ & Hindependent).
  destruct (Hindependent sample_files_swapped) as [Himages _].
  - apply Permutation_swap.
  - reflexivity.
  - split; [|reflexivity]. apply Himages, pair_no_ties. left. reflexivity.
Defined.

(** * More on the render routine *)

(** ** What the call returns *)

(** X1. What [renderMp4] returns is what the concat run left at
    output.mp4: when the call returns [buf] from a workspace that was
    empty when allocated, the concat subprocess exited with code 0 and
    wrote exactly [buf].  (An encoder that exits 0 without writing its
    output makes the call throw instead.) *)
Theorem renderMp4_returns_concat_output
    (h : Host) (files : option Files) (manifestJson : string)
    (st st' : State) (buf tmp : string) :
  renderMp4 h files manifestJson st = (Return buf, st') ->
  workspace h (fs st) = Some tmp ->
  vacant (fs st) tmp ->
  exists m stderr,
    spawn h "ffmpeg"
      (concat_args (path_join tmp "list.txt") (path_join tmp "output.mp4")) tmp m
    = (Some 0, stderr, Some buf).
Proof.
  intros Hrun Hws Hvacant.
  unfold renderMp4 in Hrun.
  destruct (JSON_parse h manifestJson) as [j|]; [|discriminate].
  destruct (Manifest (Some j)) as [manifest|]; [|discriminate].
  rewrite (render_allocated _ _ _ _ _ Hws Hvacant) in Hrun.
  set (st3 := {| fs := _; log := log st |}) in Hrun.
  assert (Hout3 : fs st3 !! path_join tmp "output.mp4" = None).
  { subst st3. cbn [fs].
    rewrite !lookup_insert_ne
      by (intros Heq; first [ apply path_join_inj in Heq; discriminate
                            | symmetry in Heq; exact (path_join_ne _ _ Heq) ]).
    apply Hvacant, under_path_join. }
  unfold render_in in Hrun. unfold bind at 1 in Hrun.
  destruct files as [fl|]; [|discriminate]. cbn [ret] in Hrun.
  destruct (negb _); [discriminate|].
  unfold bind at 1 in Hrun.
  destruct (encode_scenes h tmp manifest _ _ _ [] st3) as [[segs|e] st4] eqn:E4;
    [|discriminate].
  pose proof (encode_scenes_fs _ _ _ _ _ _ _ _ _ _ E4 _ (output_is_no_segment tmp)) as Hout4.
  unfold bind at 1 in Hrun.
  destruct (writeFileSync _ _ st4) as [[[]|e] st5] eqn:E5; [|discriminate].
  apply writeFileSync_inv in E5 as [_ ->].
  unfold bind at 1 in Hrun.
  destruct (run h _ _ _ _) as [r6 st6] eqn:E6.
  apply run_inv in E6 as (code & stderr & written & Hspawn & -> & ->).
  destruct (exit_ok code) eqn:Hcode; [|discriminate].
  apply exit_ok_true in Hcode. subst code.
  unfold bind at 1 in Hrun.
  destruct (readFileSync _ _) as [[data|e] st7] eqn:E7; [|discriminate].
  apply readFileSync_inv in E7 as [-> E7].
  unfold bind at 1 in Hrun.
  destruct (cleanup _ _ _ _) as [r8 st8] eqn:E8.
  apply cleanup_inv in E8 as [-> _]. cbn [ret] in Hrun.
  injection Hrun as <- _.
  cbn [fs] in E7, Hspawn. unfold after_spawn in E7. cbn [output_path concat_args last] in E7.
  destruct written as [out|].
  - rewrite lookup_insert_eq in E7. injection E7 as ->. eauto.
  - rewrite lookup_insert_ne in E7
      by (intros Heq; apply path_join_inj in Heq; discriminate).
    rewrite Hout4, Hout3 in E7. discriminate.
Qed.

Lemma renderMp4_returns_concat_output_witness :
  exists m stderr,
    spawn (sample_host bytewise None) "ffmpeg"
      (concat_args "/tmp/creator-station-AbC123/list.txt"
         "/tmp/creator-station-AbC123/output.mp4")
      "/tmp/creator-station-AbC123" m
    = (Some 0, stderr, Some "mp4").
Proof.
  pose (run := renderMp4 (sample_host bytewise None) (Some sample_files)
                 two_scenes_text sample_state).
  assert (Hrun : run = (Return "mp4", snd run)) by (vm_compute; reflexivity).
  exact (renderMp4_returns_concat_output (sample_host bytewise None) (Some sample_files)
           two_scenes_text sample_state (snd run) "mp4" "/tmp/creator-station-AbC123"
           Hrun eq_refl sample_fs_vacant).
Defined.

(** ** Cleanup that stops half-way *)

Lemma unlink_each_stops (fl : list UploadedFile) (st : State) :
  (exists f, f ∈ fl /\ forall d, fs st !! path f <> Some (File d)) ->
  exists e st',
    unlink_each fl st = (Throw e, st') /\
    forall p, (forall f, f ∈ fl -> p <> path f) -> fs st' !! p = fs st !! p.
Proof.
  revert st. induction fl as [|f fl IH]; intros st (f0 & Hin & Hf0).
  - now apply elem_of_nil in Hin.
  - cbn [unlink_each]. unfold bind, unlinkSync.
    destruct (fs st !! path f) as [[d|]|] eqn:Hf.
    + destruct (IH {| fs := delete (path f) (fs st); log := log st |})
        as (e & st' & -> & Hkept).
      { exists f0. apply elem_of_cons in Hin as [->|Hin].
        - now destruct (Hf0 d).
        - split; [exact Hin|]. intros d' Hd'. cbn [fs] in Hd'.
          apply lookup_delete_Some in Hd' as [_ Hd']. exact (Hf0 d' Hd'). }
      exists e, st'. split; [reflexivity|]. intros p Hp. cbn [fs] in Hkept.
      rewrite Hkept by (intros f' Hf'; apply Hp; now right).
      apply lookup_delete_ne. intros Heq. apply (Hp f); [left | now symmetry].
    + eexists _, st. split; [reflexivity|]. auto.
    + eexists _, st. split; [reflexivity|]. auto.
Qed.

(** X2. The cleanup of lines 95-98 never throws, but it is one [try]:
    when one of the uploaded files cannot be unlinked (it is not a file
    on disk any more), [rmSync] is not reached, so every path other
    than the uploads' own, the whole workspace included, is left as it
    was. *)
Theorem cleanup_stops_at_failed_unlink
    (tmp : string) (imgs auds : list UploadedFile) (st : State) :
  (exists f, f ∈ imgs ++ auds /\ forall d, fs st !! path f <> Some (File d)) ->
  fst (cleanup tmp imgs auds st) = Return tt /\
  forall p, (forall f, f ∈ imgs ++ auds -> p <> path f) ->
    fs (snd (cleanup tmp imgs auds st)) !! p = fs st !! p.
Proof.
  intros Hmissing. split; [reflexivity|].
  destruct (unlink_each_stops _ st Hmissing) as (e & st' & Hrun & Hkept).
  unfold cleanup, try_catch_ignore, bind. rewrite Hrun. exact Hkept.
Qed.

Lemma cleanup_stops_at_failed_unlink_witness :
  let st := {| fs := <["/tmp/w" := Dir]> (<["/tmp/w/output.mp4" := File "mp4"]> sample_fs);
               log := [] |} in
  let after := snd (cleanup "/tmp/w" [upload "01.png" "/tmp/uploads/gone"] [] st) in
  fs after !! "/tmp/w" = Some Dir /\
  fs after !! "/tmp/w/output.mp4" = Some (File "mp4").
Proof.
  intros st after.
  destruct (cleanup_stops_at_failed_unlink "/tmp/w"
              [upload "01.png" "/tmp/uploads/gone"] [] st) as [_ Hkept].
  - exists (upload "01.png" "/tmp/uploads/gone"). split; [left|].
    intros d. vm_compute. discriminate.
  - split; (subst after; rewrite Hkept;
      [vm_compute; reflexivity
      | intros f Hf; apply list_elem_of_singleton in Hf; subst f; discriminate]).
Defined.

(** ** Durations and counts *)

Lemma scene_schema_bounds (j : json) (scene : Scene) :
  scene_schema (Some j) = Some scene ->
  (1 # 1 <= duration_sec scene)%Q /\ (duration_sec scene <= 60 # 1)%Q.
Proof.
  destruct j as [| | | | |props]; try discriminate.
  unfold scene_schema, z.object2, z.max, z.min, z.number.
  destruct (prop "duration_sec" props) as [[| | q | | |]|]; try discriminate.
  destruct (Qle_bool (1 # 1) q) eqn:Hlo; [|discriminate].
  destruct (Qle_bool q (60 # 1)) eqn:Hhi; [|discriminate].
  destruct (z.default _ _ _); [|discriminate].
  intros [= <-]. cbn [duration_sec].
  split; now apply Qle_bool_iff.
Qed.

Lemma each_scene_bounds (items : list json) (l : list Scene) :
  z.each scene_schema items = Some l ->
  length l = length items /\
  Forall (fun scene => (1 # 1 <= duration_sec scene)%Q /\ (duration_sec scene <= 60 # 1)%Q) l.
Proof.
  revert l. induction items as [|j items IH]; intros l; cbn [z.each].
  - intros [= <-]. split; [reflexivity | constructor].
  - destruct (scene_schema (Some j)) as [scene|] eqn:Hscene; [|discriminate].
    destruct (z.each scene_schema items) as [l'|]; [|discriminate].
    intros [= <-]. destruct (IH l' eq_refl) as [Hlen Hall].
    split; [cbn; now rewrite Hlen|].
    constructor; [now apply (scene_schema_bounds j) | exact Hall].
Qed.

Lemma Manifest_bounds (j : json) (manifest : ManifestT) :
  Manifest (Some j) = Some manifest ->
  (1 <= length (scenes manifest))%nat /\
  Forall (fun scene => (1 # 1 <= duration_sec scene)%Q /\ (duration_sec scene <= 60 # 1)%Q)
         (scenes manifest).
Proof.
  destruct j as [| | | | |props]; try discriminate.
  unfold Manifest, z.object1, z.min_items, z.array.
  destruct (prop "scenes" props) as [[| | | | items |]|]; try discriminate.
  destruct (z.each scene_schema items) as [l|] eqn:Heach; [|discriminate].
  destruct (1 <=? length l)%nat eqn:Hlen; [|discriminate].
  intros [= <-]. cbn [scenes]. split; [now apply Nat.leb_le|].
  now apply each_scene_bounds in Heach.
Qed.

Lemma manifest_of_bounds (h : Host) (manifestJson : string) (manifest : ManifestT) :
  manifest_of h manifestJson = Some manifest ->
  (1 <= length (scenes manifest))%nat /\
  Forall (fun scene => (1 # 1 <= duration_sec scene)%Q /\ (duration_sec scene <= 60 # 1)%Q)
         (scenes manifest).
Proof.
  unfold manifest_of. destruct (JSON_parse h manifestJson) as [j|]; [|discriminate].
  apply Manifest_bounds.
Qed.

Lemma renderMp4_log (h : Host) files manifestJson st r st' :
  renderMp4 h files manifestJson st = (r, st') ->
  exists evs,
    log st' = log st ++ evs /\
    (evs = [] /\ (forall buf, r <> Return buf) \/
     exists manifest tmp fl,
       manifest_of h manifestJson = Some manifest /\
       workspace h (fs st) = Some tmp /\
       files = Some fl /\
       length (staged_images h fl) = length (scenes manifest) /\
       render_events tmp manifest (staged_images h fl) (staged_audios h fl) evs /\
       (forall buf, r = Return buf -> length evs = (length (scenes manifest) + 2)%nat)).
Proof.
  destruct (manifest_of h manifestJson) as [manifest|] eqn:Hm.
  - rewrite (renderMp4_valid _ _ _ _ _ Hm). intros Hrun.
    apply render_log in Hrun as (evs & Hlog & _ & Hevs). exists evs.
    split; [exact Hlog|].
    destruct Hevs as [Hevs | (tmp & fl & Hevs)]; [now left|].
    right. exists manifest, tmp, fl. tauto.
  - unfold manifest_of in Hm. unfold renderMp4.
    destruct (JSON_parse h manifestJson) as [j|]; [rewrite Hm|];
      intros [= <- <-]; exists []; rewrite app_nil_r;
      (split; [reflexivity|]); left; (split; [reflexivity | discriminate]).
Qed.

(** X3. Whatever the request, every number [renderMp4] puts on a
    command line is a scene duration the schema let through: a value
    between 1 and 60 seconds.  No subprocess is ever asked for a shorter
    or a longer segment. *)
Theorem renderMp4_encoder_durations_bounded
    (h : Host) (files : option Files) (manifestJson : string)
    (st st' : State) (r : Completion string)
    (before after : list Event) cmd args cwd code stderr (d : Q) :
  renderMp4 h files manifestJson st = (r, st') ->
  log st' = log st ++ before ++ Spawned cmd args cwd code stderr :: after ->
  In (Num d) args ->
  (1 # 1 <= d)%Q /\ (d <= 60 # 1)%Q.
Proof.
  intros Hrun Hlog Hd.
  apply renderMp4_log in Hrun as (evs & Hevs & Hshape).
  rewrite Hevs in Hlog. apply app_inv_head in Hlog. subst evs.
  destruct Hshape as [[Hnil _] | (manifest & tmp & fl & Hm & _ & _ & _ & Hevs' & _)].
  { now destruct before. }
  apply manifest_of_bounds in Hm as [_ Hbounds].
  destruct Hevs' as (evs1 & evs2 & Heq & Hscenes & Hrest).
  assert (Hin : Spawned cmd args cwd code stderr ∈ evs1 ++ evs2).
  { rewrite <- Heq. apply elem_of_app. right. left. }
  apply elem_of_app in Hin as [Hin|Hin].
  - apply list_elem_of_lookup in Hin as [k Hk].
    destruct (Forall2_lookup_r _ _ _ _ _ Hscenes Hk)
      as (i & _ & scene & image & code' & stderr' & Hscene & _ & He).
    injection He as _ -> _ _ _.
    assert (d = duration_sec scene) as ->.
    { destruct (audioFile (staged_audios h fl) i); cbn in Hd;
        repeat (destruct Hd as [Hd|Hd]; [congruence|]); contradiction. }
    rewrite Forall_forall in Hbounds. apply Hbounds.
    apply list_elem_of_lookup. eauto.
  - destruct Hrest as [-> | (_ & code' & stderr' & ->)].
    + now apply elem_of_nil in Hin.
    + apply elem_of_cons in Hin as [Hin|Hin]; [discriminate|].
      apply list_elem_of_singleton in Hin. injection Hin as _ -> _ _ _.
      cbn in Hd. repeat (destruct Hd as [Hd|Hd]; [discriminate|]). contradiction.
Qed.

Lemma renderMp4_encoder_durations_bounded_witness :
  (1 # 1 <= 8 # 1)%Q /\ (8 # 1 <= 60 # 1)%Q.
Proof.
  pose (run := renderMp4 (sample_host bytewise None) (Some sample_files)
                 two_scenes_text sample_state).
  refine (renderMp4_encoder_durations_bounded (sample_host bytewise None)
            (Some sample_files) two_scenes_text sample_state (snd run) (fst run)
            [_] [_; _] "ffmpeg"
            (segment_args "/tmp/uploads/f1" None (8 # 1)
               "/tmp/creator-station-AbC123/seg_001.mp4")
            "/tmp/creator-station-AbC123" (Some 0) "" (8 # 1) _ _ _).
  - apply surjective_pairing.
  - vm_compute. reflexivity.
  - cbn. tauto.
Defined.

(** X4. A render only returns a video for a request that carries at
    least one image and exactly as many images as the manifest has
    scenes; the schema's minimum of one scene and the count check of
    line 43 leave no other way through. *)
Theorem renderMp4_success_needs_images
    (h : Host) (files : option Files) (manifestJson : string)
    (st st' : State) (buf : string) :
  renderMp4 h files manifestJson st = (Return buf, st') ->
  exists fl manifest,
    files = Some fl /\
    manifest_of h manifestJson = Some manifest /\
    length (or_empty (images fl)) = length (scenes manifest) /\
    (1 <= length (or_empty (images fl)))%nat.
Proof.
  intros Hrun. apply renderMp4_log in Hrun as (evs & _ & Hshape).
  destruct Hshape as [[_ Hthrow] | (manifest & tmp & fl & Hm & _ & -> & Hcount & _)].
  { now destruct (Hthrow buf). }
  unfold staged_images in Hcount. rewrite sort_length in Hcount.
  exists fl, manifest. repeat split; auto.
  rewrite Hcount. now apply manifest_of_bounds in Hm.
Qed.

Lemma renderMp4_success_needs_images_witness :
  exists fl manifest,
    Some sample_files = Some fl /\
    manifest_of (sample_host bytewise None) two_scenes_text = Some manifest /\
    length (or_empty (images fl)) = length (scenes manifest) /\
    (1 <= length (or_empty (images fl)))%nat.
Proof.
  pose (run := renderMp4 (sample_host bytewise None) (Some sample_files)
                 two_scenes_text sample_state).
  assert (Hrun : run = (Return "mp4", snd run)) by (vm_compute; reflexivity).
  exact (renderMp4_success_needs_images (sample_host bytewise None) (Some sample_files)
           two_scenes_text sample_state (snd run) "mp4" Hrun).
Defined.

(** ** The entries of list.txt *)

Lemma replace_quotes_inj (a b : string) :
  replace_quotes a = replace_quotes b -> a = b.
Proof.
  revert b. induction a as [|x a IH]; intros [|y b]; cbn [replace_quotes].
  - reflexivity.
  - destruct (Ascii.eqb y "'"%char); discriminate.
  - destruct (Ascii.eqb x "'"%char); discriminate.
  - destruct (Ascii.eqb x "'"%char) eqn:Hx, (Ascii.eqb y "'"%char) eqn:Hy.
    + apply Ascii.eqb_eq in Hx, Hy. subst x y.
      intros Heq. apply (String.app_inj "'\''") in Heq. now rewrite (IH b).
    + apply Ascii.eqb_eq in Hx. apply Ascii.eqb_neq in Hy. subst x.
      intros Heq. injection Heq as Heq _. congruence.
    + apply Ascii.eqb_eq in Hy. apply Ascii.eqb_neq in Hx. subst y.
      intros Heq. injection Heq as Heq _. congruence.
    + intros [= -> Heq]. now rewrite (IH b).
Qed.

(** X5. The quoting of line 87 loses nothing: two different segment
    paths, single quotes in them or not, never give the same entry in
    list.txt. *)
Theorem list_entries_distinct (f g : string) : f <> g -> list_entry f <> list_entry g.
Proof.
  unfold list_entry. intros Hne Heq. apply Hne.
  apply (String.app_inj "file '") in Heq. apply append_inv_tail in Heq.
  now apply replace_quotes_inj.
Qed.

Lemma list_entries_distinct_witness :
  list_entry "/tmp/a'b/seg_000.mp4" <> list_entry "/tmp/a/b/seg_000.mp4".
Proof.
  apply (list_entries_distinct "/tmp/a'b/seg_000.mp4" "/tmp/a/b/seg_000.mp4").
  discriminate.
Defined.

(** ** Cleanup on the success path *)

Lemma sample_uploads_nodup :
  NoDup (map path (or_empty (images sample_files) ++ or_empty (audios sample_files))).
Proof. apply (bool_decide_unpack _). vm_compute. exact I. Qed.

Lemma renderMp4_success_cleans_up_witness :
  exists buf st',
    renderMp4 (sample_host bytewise None) (Some sample_files) two_scenes_text sample_state
    = (Return buf, st') /\
    fs st' !! "/tmp/creator-station-AbC123" = None /\
    fs st' !! "/tmp/creator-station-AbC123/seg_000.mp4" = None /\
    fs st' !! "/tmp/uploads/f1" = None.
Proof.
  destruct (renderMp4_success_cleans_up (sample_host bytewise None) sample_files
              two_scenes_text
              {| scenes := [ {| duration_sec := 5 # 1; hasAudio := false |};
                             {| duration_sec := 8 # 1; hasAudio := true |} ] |}
              sample_state "/tmp/creator-station-AbC123")
    as (buf & st' & Hrun & Hunder & Huploads & _).
  - reflexivity.
  - reflexivity.
  - reflexivity.
  - exact sample_fs_vacant.
  - apply sample_host_reliable.
  - exact sample_uploads_nodup.
  - intros f Hf. cbn in Hf.
    repeat (apply elem_of_cons in Hf as [->|Hf]; [eexists; vm_compute; reflexivity|]).
    now apply elem_of_nil in Hf.
  - exists buf, st'. split; [exact Hrun|].
    split; [apply Hunder; reflexivity|].
    split; [apply Hunder; reflexivity|].
    apply (Huploads (upload "02.png" "/tmp/uploads/f1")). left.
Defined.

(** * The render endpoint *)

(** The render endpoint answers in one of two ways only: status
    200 with the returned bytes, sent as video/mp4 under the attachment
    name creator-station.mp4, exactly when [renderMp4] returned; or
    status 400 with the JSON body [{ok: false, error}] whose [error] is
    never empty, whatever [renderMp4] threw. *)
Theorem render_video_responses
    (h : Host) (runtime_text : JsError -> string) (req : RenderRequest) (st : State) :
  let manifestJson := match req_manifest req with Some s => s | None => "undefined" end in
  let resp := fst (render_video h runtime_text req st) in
  (exists buf,
     fst (renderMp4 h (req_files req) manifestJson st) = Return buf /\
     status resp = 200%nat /\
     body resp = Sent buf /\
     headers resp = [ ("Content-Type", "video/mp4");
                      ("Content-Disposition",
                       "attachment; filename=" +:+ quoted "creator-station.mp4") ]) \/
  (exists e msg,
     fst (renderMp4 h (req_files req) manifestJson st) = Throw e /\
     status resp = 400%nat /\
     msg <> "" /\
     body resp = Json (JObj [("ok", JBool false); ("error", JStr msg)])).
Proof.
  cbn zeta. unfold render_video.
  destruct (renderMp4 h (req_files req) _ st) as [[buf|e] st'].
  - left. exists buf. repeat split; reflexivity.
  - right. exists e, (or_else (message runtime_text e) "Render failed").
    repeat split. unfold or_else.
    destruct (String.eqb_spec (message runtime_text e) ""); [discriminate | assumption].
Qed.

(** X6. A failed subprocess reaches the caller as a client error: when
    a scene's encoder run or the concat run of a request exits with
    anything but 0, the endpoint answers 400 and the [error] of the body
    is "ffmpeg failed (<code>): " followed by everything the subprocess
    printed on stderr. *)
Theorem render_video_reports_subprocess_failure
    (h : Host) (runtime_text : JsError -> string) (req : RenderRequest)
    (st st' : State) (resp : Response)
    (before rest : list Event) cmd args cwd code stderr :
  render_video h runtime_text req st = (resp, st') ->
  log st' = log st ++ before ++ Spawned cmd args cwd code stderr :: rest ->
  code <> Some 0 ->
  status resp = 400%nat /\
  body resp = Json (JObj [ ("ok", JBool false);
                           ("error", JStr ("ffmpeg failed (" +:+ String_of_code code
                                             +:+ "): " +:+ stderr)) ]).
Proof.
  unfold render_video. intros Hresp Hlog Hcode.
  destruct (renderMp4 h (req_files req) _ st) as [r st1] eqn:Hrun.
  assert (st1 = st') as -> by (destruct r; now inversion Hresp).
  apply renderMp4_shape in Hrun as (evs & Hevs & Hshape).
  rewrite Hevs in Hlog. apply app_inv_head in Hlog.
  apply exit_ok_false in Hcode.
  destruct Hshape as [r evs Hall | evs cmd' args' cwd' code' stderr' Hall Hcode'].
  - subst evs. apply Forall_app in Hall as [_ Hall].
    inversion Hall as [|? ? Hx _]; subst. cbn in Hx. congruence.
  - apply failed_entry_is_last in Hlog as (-> & Hx & ->); auto.
    inversion Hx; subst. inversion Hresp; subst. cbn. split; reflexivity.
Qed.

(** X7. A request without a [manifest] field is answered with status
    400 and changes nothing: [JSON.parse] is given the text
    "undefined", which is no JSON, so the call throws on line 31 before
    anything is created. *)
Theorem render_video_missing_manifest
    (h : Host) (runtime_text : JsError -> string) (files : option Files) (st : State) :
  JSON_parse h "undefined" = None ->
  render_video h runtime_text {| req_files := files; req_manifest := None |} st
  = ({| status := 400; headers := [];
        body := Json (JObj [ ("ok", JBool false);
                             ("error", JStr (or_else (runtime_text SyntaxError)
                                                "Render failed")) ]) |}, st).
Proof.
  intros Hparse. unfold render_video, renderMp4. cbn [req_manifest req_files].
  rewrite Hparse. reflexivity.
Qed.

Lemma render_video_reports_subprocess_failure_witness :
  fst (render_video (sample_host bytewise (Some 1%nat)) (fun _ => "")
         {| req_files := Some sample_files; req_manifest := Some two_scenes_text |}
         sample_state)
  = {| status := 400; headers := [];
       body := Json (JObj [("ok", JBool false);
                           ("error", JStr "ffmpeg failed (1): boom")]) |}.
Proof.
  pose (run := render_video (sample_host bytewise (Some 1%nat)) (fun _ => "")
                 {| req_files := Some sample_files; req_manifest := Some two_scenes_text |}
                 sample_state).
  assert (H : status (fst run) = 400%nat /\
              body (fst run)
              = Json (JObj [ ("ok", JBool false);
                             ("error", JStr ("ffmpeg failed (" +:+ String_of_code (Some 1)
                                               +:+ "): " +:+ "boom")) ])).
  { eapply (render_video_reports_subprocess_failure (sample_host bytewise (Some 1%nat))
              (fun _ => "")
              {| req_files := Some sample_files; req_manifest := Some two_scenes_text |}
              sample_state (snd run) (fst run) [_] []).
    - apply surjective_pairing.
    - vm_compute. reflexivity.
    - discriminate. }
  destruct H as [Hstatus Hbody]. fold run.
  destruct (fst run) as [s hd b] eqn:Hrun. cbn in Hstatus, Hbody. subst s b.
  f_equal. apply (f_equal headers) in Hrun. vm_compute in Hrun. now symmetry.
Defined.

Lemma render_video_missing_manifest_witness :
  render_video (sample_host bytewise None) (fun _ => "Unexpected token u in JSON")
    {| req_files := Some sample_files; req_manifest := None |} sample_state
  = ({| status := 400; headers := [];
        body := Json (JObj [ ("ok", JBool false);
                             ("error", JStr "Unexpected token u in JSON") ]) |},
     sample_state).
Proof.
  exact (render_video_missing_manifest (sample_host bytewise None)
           (fun _ => "Unexpected token u in JSON") (Some sample_files) sample_state eq_refl).
Defined.

(** * The client's export and the server *)

Lemma clamp_bounds (n : Q) :
  Qle_bool (1 # 1) (clamp n (1 # 1) (60 # 1)) = true /\
  Qle_bool (clamp n (1 # 1) (60 # 1)) (60 # 1) = true.
Proof.
  unfold clamp. split; apply Qle_bool_iff.
  - apply Q.le_max_l.
  - apply Q.max_lub; [discriminate | apply Q.le_min_l].
Qed.

Lemma each_client_scene (scenes : list ClientScene) (t : Q) :
  z.each scene_schema
    (map (fun s =>
            JObj [ ("duration_sec",
                    JNum (clamp (duration_or_rule s t) (1 # 1) (60 # 1)));
                   ("hasAudio", JBool (truthy (audioBase64 s))) ])
         scenes)
  = Some (map (fun s => {| duration_sec := clamp (duration_or_rule s t) (1 # 1) (60 # 1);
                           hasAudio := truthy (audioBase64 s) |}) scenes).
Proof.
  induction scenes as [|s scenes IH]; [reflexivity|].
  cbn [map z.each]. rewrite IH.
  unfold scene_schema at 1, z.object2, z.max, z.min, z.number, z.default, z.optional,
    z.boolean.
  cbn [prop String.eqb Ascii.eqb Bool.eqb].
  destruct (clamp_bounds (duration_or_rule s t)) as [-> ->]. reflexivity.
Qed.

(** X8. The manifest [exportMp4] builds passes the server's schema
    whenever the analysis has at least one scene: each duration is the
    scene's own, or the timing rule when it is missing or zero, brought
    into [1, 60], and [hasAudio] tells whether the scene has audio.
    With no scene at all the export still sends a manifest, which the
    schema refuses. *)
Theorem client_manifest_passes_schema (scenes : list ClientScene) (timingRuleSeconds : Q) :
  Manifest (Some (client_manifest scenes timingRuleSeconds))
  = match scenes with
    | [] => None
    | _ =>
        Some {| scenes :=
                  map (fun s =>
                         {| duration_sec :=
                              clamp (duration_or_rule s timingRuleSeconds) (1 # 1) (60 # 1);
                            hasAudio := truthy (audioBase64 s) |})
                      scenes |}
    end.
Proof.
  unfold Manifest, client_manifest, z.object1, z.min_items, z.array.
  cbn [prop String.eqb Ascii.eqb Bool.eqb].
  rewrite each_client_scene.
  destruct scenes; reflexivity.
Qed.

Lemma form_files_images (i : nat) (scenes : list ClientScene) :
  map filename (fst (form_files i scenes)) = map image_name (seq i (length scenes)).
Proof.
  revert i. induction scenes as [|s scenes IH]; intros i; [reflexivity|].
  cbn [form_files]. specialize (IH (S i)).
  destruct (form_files (S i) scenes) as [imgs auds]. cbn. now rewrite <- IH.
Qed.

Lemma form_files_audios (i : nat) (scenes : list ClientScene) :
  map filename (snd (form_files i scenes)) = map audio_name (audio_indices i scenes).
Proof.
  revert i. induction scenes as [|s scenes IH]; intros i; [reflexivity|].
  cbn [form_files audio_indices]. specialize (IH (S i)).
  destruct (form_files (S i) scenes) as [imgs auds]. cbn [snd] in *.
  destruct (truthy (audioBase64 s)); cbn; now rewrite <- ?IH.
Qed.

Lemma audio_indices_bounds (i : nat) (scenes : list ClientScene) :
  Forall (fun j => (i <= j < i + length scenes)%nat) (audio_indices i scenes) /\
  StronglySorted lt (audio_indices i scenes) /\
  (length (audio_indices i scenes) <= length scenes)%nat.
Proof.
  revert i. induction scenes as [|s scenes IH]; intros i.
  - repeat split; constructor.
  - destruct (IH (S i)) as (Hb & Hs & Hl). cbn [audio_indices length].
    assert (Hb' : Forall (fun j => (i <= j < i + S (length scenes))%nat)
                    (audio_indices (S i) scenes)).
    { eapply Forall_impl; [exact Hb|]. cbn. intros; lia. }
    destruct (truthy (audioBase64 s)).
    + split; [constructor; [lia | exact Hb']|].
      split; [|cbn; lia].
      constructor; [exact Hs|]. eapply Forall_impl; [exact Hb|]. cbn. intros; lia.
    + split; [exact Hb'|]. split; [exact Hs | lia].
Qed.

(** X9. Every render request [exportMp4] sends has one image part per
    scene of its manifest and at most as many audio parts, so on the
    server the count check of line 43 cannot fail for it. *)
Theorem exportMp4_counts_match
    (analysis : option Analysis) (timingRuleSeconds : Q)
    (manifest : json) (imgs auds : list FormFile) (parsed : ManifestT) :
  exportMp4 analysis timingRuleSeconds = Posted manifest imgs auds ->
  Manifest (Some manifest) = Some parsed ->
  length imgs = length (scenes parsed) /\
  (length auds <= length imgs)%nat.
Proof.
  unfold exportMp4. destruct analysis as [a|]; [|discriminate].
  destruct (negb _); [discriminate|].
  pose proof (form_files_images 0 (or_empty (analysis_scenes a))) as Himgs.
  pose proof (form_files_audios 0 (or_empty (analysis_scenes a))) as Hauds.
  destruct (form_files 0 (or_empty (analysis_scenes a))) as [imgs' auds'].
  intros [= <- <- <-]. rewrite client_manifest_passes_schema.
  apply (f_equal length) in Himgs, Hauds.
  rewrite !length_map, length_seq in Himgs. rewrite !length_map in Hauds.
  cbn [fst snd] in *.
  destruct (or_empty (analysis_scenes a)) as [|s l] eqn:Hscenes; [discriminate|].
  intros [= <-]. cbn [scenes length]. rewrite length_map. split; [exact Himgs|].
  rewrite Hauds, Himgs.
  apply (audio_indices_bounds 0 (s :: l)).
Qed.

Lemma exportMp4_counts_match_witness :
  length (fst (form_files 0 second_narrated)) = 2%nat /\
  (length (snd (form_files 0 second_narrated)) <= 2)%nat.
Proof.
  exact (exportMp4_counts_match
           (Some {| analysis_scenes := Some second_narrated |}) (13 # 1)
           (client_manifest second_narrated (13 # 1))
           (fst (form_files 0 second_narrated)) (snd (form_files 0 second_narrated))
           {| scenes := [ {| duration_sec := clamp (5 # 1) (1 # 1) (60 # 1); hasAudio := false |};
                          {| duration_sec := clamp (8 # 1) (1 # 1) (60 # 1); hasAudio := true |} ] |}
           eq_refl eq_refl).
Defined.

(** ** File names and staging *)

Lemma sort_sorted_id {A} (cmp : A -> A -> Z) (l : list A) :
  Sorted (cmp_le cmp) l -> sort cmp l = l.
Proof.
  induction 1 as [|x l Hl IH Hhd]; [reflexivity|].
  cbn [sort foldr]. fold (sort cmp l). rewrite IH.
  destruct Hhd as [|y l' Hxy]; [reflexivity|].
  cbn [insert_sorted]. unfold cmp_le in Hxy.
  apply Z.leb_le in Hxy. now rewrite Hxy.
Qed.

Lemma bytewise_refl (a : string) : bytewise a a <= 0.
Proof. now destruct (bytewise_total a a). Qed.

Lemma ascending_pairs (name : nat -> string) (bound : nat) :
  ascending_upto name bound = true ->
  forall i j, (i <= j <= bound)%nat -> bytewise (name i) (name j) <= 0.
Proof.
  unfold ascending_upto. rewrite forallb_forall. intros Hadj i j [Hij Hj].
  induction Hij as [|j Hij IH]; [apply bytewise_refl|].
  apply (bytewise_trans _ (name j)); [apply IH; lia|].
  apply Z.leb_le, Hadj, in_seq. lia.
Qed.

Lemma image_names_ascending : ascending_upto image_name 999 = true.
Proof. vm_compute. reflexivity. Qed.

Lemma audio_names_ascending : ascending_upto audio_name 999 = true.
Proof. vm_compute. reflexivity. Qed.

Lemma sorted_by_names (h : Host) (name : nat -> string)
    (uploads : list UploadedFile) (indices : list nat) :
  map originalname uploads = map name indices ->
  StronglySorted lt indices ->
  (forall i j, i ∈ indices -> j ∈ indices -> (i < j)%nat ->
     localeCompare h (name i) (name j) <= 0) ->
  Sorted (cmp_le (by_originalname h)) uploads.
Proof.
  revert indices. induction uploads as [|u uploads IH]; intros [|i indices] Hnames Hsorted Hcmp;
    try discriminate; [constructor|].
  injection Hnames as Hu Hnames. apply StronglySorted_inv in Hsorted as [Hsorted Hi].
  constructor.
  - apply (IH indices); auto. intros a b Ha Hb. apply Hcmp; now right.
  - destruct uploads as [|v uploads]; [constructor|].
    destruct indices as [|j indices]; [discriminate|].
    injection Hnames as Hv _. constructor.
    unfold cmp_le, by_originalname. rewrite Hu, Hv.
    apply Hcmp; [left | right; left |]. now inversion Hi.
Qed.

Lemma zip_with_upload_names (parts : list FormFile) (paths : list string) :
  length paths = length parts ->
  map originalname (zip_with (fun part file => upload (filename part) file) parts paths)
  = map filename parts.
Proof.
  revert paths. induction parts as [|p parts IH]; intros [|f paths] Hlen;
    try discriminate; [reflexivity|].
  cbn. f_equal. apply IH. now injection Hlen.
Qed.

Lemma received_within_limit (parts : list FormFile) (paths : list string) :
  (length parts <= maxCount)%nat ->
  exists files,
    received parts paths = Received files /\
    or_empty files = zip_with (fun part file => upload (filename part) file) parts paths.
Proof.
  intros Hn. unfold received. apply Nat.ltb_ge in Hn. rewrite Hn.
  eexists. split; [reflexivity|]. destruct parts; reflexivity.
Qed.

Lemma received_beyond_limit (parts : list FormFile) (paths : list string) :
  (maxCount < length parts)%nat -> received parts paths = TooMany.
Proof. intros Hn. unfold received. apply Nat.ltb_lt in Hn. now rewrite Hn. Qed.

(** X10. A request of [exportMp4] with more than 200 scenes does not
    get past the upload middleware, which takes at most 200 images.
    With up to 200 scenes the server stages the images in the client's
    scene order: [exportMp4] names the i-th image
    scene_<i padded to 3 digits>.png, these names ascend in byte order,
    and on a platform whose [localeCompare] agrees with the byte order
    on them the sort of line 40 leaves the uploads as they arrived, so
    the i-th staged image is the image of scene i. *)
Theorem exported_images_staged_in_scene_order
    (h : Host) (scenes : list ClientScene) (paths : list string)
    (auds : option (list UploadedFile)) :
  length paths = length scenes ->
  (forall i j, (i < j < length scenes)%nat ->
     bytewise (image_name i) (image_name j) <= 0 ->
     localeCompare h (image_name i) (image_name j) <= 0) ->
  match received (fst (form_files 0 scenes)) paths with
  | TooMany => (200 < length scenes)%nat
  | Received imgs =>
      (length scenes <= 200)%nat /\
      forall i file,
        paths !! i = Some file ->
        staged_images h {| images := imgs; audios := auds |} !! i
        = Some (upload (image_name i) file)
  end.
Proof.
  intros Hlen Hhost.
  pose proof (form_files_images 0 scenes) as Hnames.
  assert (Hparts : length (fst (form_files 0 scenes)) = length scenes).
  { apply (f_equal length) in Hnames. now rewrite !length_map, length_seq in Hnames. }
  destruct (le_lt_dec (length scenes) 200) as [Hn|Hn].
  2:{ rewrite received_beyond_limit by (unfold maxCount; lia). exact Hn. }
  destruct (received_within_limit (fst (form_files 0 scenes)) paths) as (imgs & -> & Himgs);
    [unfold maxCount; lia|].
  split; [exact Hn|]. intros i file Hfile.
  unfold staged_images. cbn [images]. rewrite Himgs.
  rewrite sort_sorted_id.
  - rewrite lookup_zip_with, Hfile.
    assert (Hi : (i < length scenes)%nat)
      by (rewrite <- Hlen; now apply lookup_lt_Some in Hfile).
    destruct (lookup_lt_is_Some_2 (fst (form_files 0 scenes)) i) as [part Hpart];
      [lia|].
    rewrite Hpart. cbn. do 2 f_equal.
    apply (f_equal (fun l => l !! i)) in Hnames.
    rewrite !list_lookup_fmap, Hpart, lookup_seq_lt in Hnames by exact Hi.
    now injection Hnames.
  - apply (sorted_by_names h image_name _ (seq 0 (length scenes))).
    + rewrite zip_with_upload_names by lia. exact Hnames.
    + clear. generalize 0%nat. induction (length scenes) as [|n IH]; intros k; cbn.
      * constructor.
      * constructor; [apply IH|]. apply Forall_forall. intros j Hj.
        apply elem_of_seq in Hj. lia.
    + intros a b Ha Hb Hab. apply elem_of_seq in Ha, Hb.
      apply Hhost; [lia|].
      apply (ascending_pairs image_name 999 image_names_ascending). lia.
Qed.

Lemma lookup_strongly_sorted_ge (l : list nat) (i k j : nat) :
  StronglySorted lt l -> Forall (fun x => (i <= x)%nat) l ->
  l !! k = Some j -> (i + k <= j)%nat.
Proof.
  revert i k. induction l as [|x l IH]; intros i k Hs Hge Hk; [discriminate|].
  apply StronglySorted_inv in Hs as [Hs Hx]. inversion Hge as [|? ? Hix _]; subst.
  destruct k as [|k]; [injection Hk as <-; lia|].
  cbn in Hk. specialize (IH (S x) k Hs).
  assert (i + S k <= S x + k)%nat by lia.
  enough (S x + k <= j)%nat by lia. apply IH; [|exact Hk].
  eapply Forall_impl; [exact Hx|]. cbn. intros; lia.
Qed.

(** X11. Audio is paired by position, not by name.  [exportMp4] sends
    an audio part only for the scenes that have audio, named after the
    scene's own index.  For a request of up to 200 scenes, which is
    what the upload middleware lets through, the server gets these
    parts, sorts them and gives the k-th of them to scene k.  So scene
    k is narrated with the audio of the k-th scene that has audio, a
    scene j >= k: as soon as a scene without audio comes before one
    with audio, the narration moves up. *)
Theorem exported_audio_paired_by_position
    (h : Host) (scenes : list ClientScene) (paths : list string)
    (imgs : option (list UploadedFile)) :
  (length scenes <= 200)%nat ->
  length paths = length (audio_indices 0 scenes) ->
  (forall i j, (i < j < length scenes)%nat ->
     bytewise (audio_name i) (audio_name j) <= 0 ->
     localeCompare h (audio_name i) (audio_name j) <= 0) ->
  exists auds,
    received (snd (form_files 0 scenes)) paths = Received auds /\
    forall k j file,
      audio_indices 0 scenes !! k = Some j ->
      paths !! k = Some file ->
      (k <= j)%nat /\
      staged_audios h {| images := imgs; audios := auds |} !! k
      = Some (upload (audio_name j) file) /\
      audioFile (staged_audios h {| images := imgs; audios := auds |}) k
      = if String.eqb file "" then None else Some file.
Proof.
  intros Hn Hlen Hhost.
  destruct (audio_indices_bounds 0 scenes) as (Hbounds & Hsorted & Hcount).
  pose proof (form_files_audios 0 scenes) as Hnames.
  assert (Hparts : length (snd (form_files 0 scenes)) = length (audio_indices 0 scenes)).
  { apply (f_equal length) in Hnames. now rewrite !length_map in Hnames. }
  destruct (received_within_limit (snd (form_files 0 scenes)) paths) as (auds & Hrec & Hauds).
  { unfold maxCount. rewrite Hparts. lia. }
  exists auds. split; [exact Hrec|]. intros k j file Hj Hfile.
  assert (Hstaged : staged_audios h {| images := imgs; audios := auds |} !! k
                    = Some (upload (audio_name j) file)).
  { unfold staged_audios. cbn [audios]. rewrite Hauds.
    rewrite sort_sorted_id.
    - rewrite lookup_zip_with, Hfile.
      destruct (lookup_lt_is_Some_2 (snd (form_files 0 scenes)) k) as [part Hpart].
      { rewrite Hparts. now apply lookup_lt_Some in Hj. }
      rewrite Hpart. cbn. do 2 f_equal.
      apply (f_equal (fun l => l !! k)) in Hnames.
      rewrite !list_lookup_fmap, Hpart, Hj in Hnames. now injection Hnames.
    - apply (sorted_by_names h audio_name _ (audio_indices 0 scenes)).
      + rewrite zip_with_upload_names by lia. exact Hnames.
      + exact Hsorted.
      + intros a b Ha Hb Hab. rewrite Forall_forall in Hbounds.
        apply Hbounds in Ha, Hb. apply Hhost; [lia|].
        apply (ascending_pairs audio_name 999 audio_names_ascending). lia. }
  split; [|split; [exact Hstaged|]].
  - apply (lookup_strongly_sorted_ge _ 0 k j Hsorted); [|exact Hj].
    eapply Forall_impl; [exact Hbounds|]. cbn. intros; lia.
  - unfold audioFile. rewrite Hstaged. reflexivity.
Qed.

Lemma exported_images_staged_in_scene_order_witness :
  (2 <= 200)%nat /\
  forall i file,
    ["/tmp/uploads/i0"; "/tmp/uploads/i1"] !! i = Some file ->
    staged_images (echo_host JNull)
      {| images := Some [ upload "scene_000.png" "/tmp/uploads/i0";
                          upload "scene_001.png" "/tmp/uploads/i1" ];
         audios := None |} !! i
    = Some (upload (image_name i) file).
Proof.
  exact (exported_images_staged_in_scene_order (echo_host JNull) second_narrated
           ["/tmp/uploads/i0"; "/tmp/uploads/i1"] None eq_refl (fun i j _ Hle => Hle)).
Defined.

Lemma exported_audio_paired_by_position_witness :
  exists auds,
    received (snd (form_files 0 second_narrated)) ["/tmp/uploads/a1"] = Received auds /\
    forall k j file,
      audio_indices 0 second_narrated !! k = Some j ->
      ["/tmp/uploads/a1"] !! k = Some file ->
      (k <= j)%nat /\
      staged_audios (echo_host JNull) {| images := None; audios := auds |} !! k
      = Some (upload (audio_name j) file) /\
      audioFile (staged_audios (echo_host JNull) {| images := None; audios := auds |}) k
      = if String.eqb file "" then None else Some file.
Proof.
  apply (exported_audio_paired_by_position (echo_host JNull) second_narrated
           ["/tmp/uploads/a1"] None).
  - cbn. lia.
  - reflexivity.
  - intros i j _ Hle. exact Hle.
Defined.

(** The two together on a request of two scenes of which only the
    second has narration: the server encodes scene 0 with the narration
    of scene 1, and scene 1 without sound. *)
Example narration_moves_up :
  let '(imgs, auds) := form_files 0 second_narrated in
  match received imgs ["/tmp/uploads/i0"; "/tmp/uploads/i1"],
        received auds ["/tmp/uploads/a1"] with
  | Received images, Received audios =>
      let fl := {| images := images; audios := audios |} in
      let run := renderMp4 (echo_host (client_manifest second_narrated (13 # 1)))
                   (Some fl) "manifest" {| fs := ∅; log := [] |} in
      fst run = Return "mp4" /\
      log (snd run) !! 0%nat
      = Some (Spawned "ffmpeg"
                (segment_args "/tmp/uploads/i0" (Some "/tmp/uploads/a1")
                   (Qmax (1 # 1) (Qmin (60 # 1) (5 # 1)))
                   "/tmp/creator-station-AbC123/seg_000.mp4")
                "/tmp/creator-station-AbC123" (Some 0) "") /\
      log (snd run) !! 1%nat
      = Some (Spawned "ffmpeg"
                (segment_args "/tmp/uploads/i1" None
                   (Qmax (1 # 1) (Qmin (60 # 1) (8 # 1)))
                   "/tmp/creator-station-AbC123/seg_001.mp4")
                "/tmp/creator-station-AbC123" (Some 0) "")
  | _, _ => False
  end.
Proof. vm_compute. repeat split; reflexivity. Qed.

(** * Configuration, speech and the JSON endpoints *)

Lemma or_else_nonempty s d : d <> EmptyString -> or_else s d <> EmptyString.
Proof.
  intros Hd. unfold or_else. destruct (String.eqb s "") eqn:E; [exact Hd|].
  intros ->. discriminate.
Qed.

Lemma or_default_nonempty a d : d <> EmptyString -> or_default a d <> EmptyString.
Proof. destruct a; [apply or_else_nonempty | easy]. Qed.

Lemma or_default_cases a d :
  (a = Some (or_default a d) /\ or_default a d <> EmptyString) \/
  (unset_or_empty a /\ or_default a d = d).
Proof.
  destruct a as [s|]; cbn; [|right; split; [left|]; reflexivity].
  unfold or_else. destruct (String.eqb_spec s "") as [->|Hne].
  - right. split; [right|]; reflexivity.
  - left. split; [reflexivity | exact Hne].
Qed.

Lemma getVertexClient_project_nonempty (env : Env) c :
  vertex.getVertexClient env = Return c -> vertex.project c <> EmptyString.
Proof.
  unfold vertex.getVertexClient.
  destruct (or_undefined _ _) as [p|]; [|discriminate].
  destruct (String.eqb_spec p "") as [->|Hp]; [discriminate|].
  intros [= <-]. exact Hp.
Qed.

(** X12. [getVertexClient] succeeds exactly when one of the two project
    variables holds a non-empty value.  The project is then never
    empty, GCP_PROJECT_ID wins when it is non-empty, and the location
    is GCP_LOCATION or, when that is unset or empty, us-central1.
    Otherwise the error names the missing variable. *)
Theorem getVertexClient_outcome (env : Env) :
  match vertex.getVertexClient env with
  | Return c =>
      vertex.project c <> EmptyString /\
      (env !! "GCP_PROJECT_ID" = Some (vertex.project c) \/
       unset_or_empty (env !! "GCP_PROJECT_ID") /\
       env !! "GOOGLE_CLOUD_PROJECT" = Some (vertex.project c)) /\
      vertex.location c <> EmptyString /\
      (env !! "GCP_LOCATION" = Some (vertex.location c) \/
       unset_or_empty (env !! "GCP_LOCATION") /\ vertex.location c = "us-central1")
  | Throw e =>
      e = Error vertex.missing_project /\
      unset_or_empty (env !! "GCP_PROJECT_ID") /\
      unset_or_empty (env !! "GOOGLE_CLOUD_PROJECT")
  end.
Proof.
  unfold vertex.getVertexClient, or_undefined, unset_or_empty.
  pose proof (or_default_cases (env !! "GCP_LOCATION") "us-central1") as Hloc.
  pose proof (or_default_nonempty (env !! "GCP_LOCATION") "us-central1") as Hne.
  assert (Hl : or_default (env !! "GCP_LOCATION") "us-central1" <> EmptyString /\
               (env !! "GCP_LOCATION" = Some (or_default (env !! "GCP_LOCATION") "us-central1") \/
                unset_or_empty (env !! "GCP_LOCATION") /\
                or_default (env !! "GCP_LOCATION") "us-central1" = "us-central1")).
  { split; [apply Hne; discriminate|]. destruct Hloc as [[H _]|H]; [left|right]; exact H. }
  destruct (env !! "GCP_PROJECT_ID") as [p|] eqn:Ep.
  - destruct (String.eqb_spec p "") as [->|Hp].
    + destruct (env !! "GOOGLE_CLOUD_PROJECT") as [g|] eqn:Eg.
      * destruct (String.eqb_spec g "") as [->|Hg]; cbn.
        -- auto.
        -- split; [exact Hg|]. split; [right; auto|]. exact Hl.
      * auto.
    + destruct (String.eqb_spec p "") as [->|_]; [congruence|]. cbn.
      split; [exact Hp|]. split; [left; reflexivity|]. exact Hl.
  - destruct (env !! "GOOGLE_CLOUD_PROJECT") as [g|] eqn:Eg.
    + destruct (String.eqb_spec g "") as [->|Hg]; cbn.
      * auto.
      * split; [exact Hg|]. split; [right; auto|]. exact Hl.
    + auto.
Qed.

Lemma TTSReq_inv body r :
  tts.TTSReq body = Some r ->
  exists props,
    body = Some (JObj props) /\
    prop "text" props = Some (JStr (tts.text r)) /\
    (1 <= String.length (tts.text r))%nat /\
    (prop "voice" props = Some (JStr (tts.voice r)) \/
     prop "voice" props = None /\ tts.voice r = "Default") /\
    In (tts.voice r) VOICES /\
    (prop "speakingRate" props = Some (JNum (tts.speakingRate r)) \/
     prop "speakingRate" props = None /\ tts.speakingRate r = 1%Q) /\
    (tts.d0_7 <= tts.speakingRate r)%Q /\ (tts.speakingRate r <= tts.d1_3)%Q.
Proof.
  unfold tts.TTSReq, zs.object3. destruct body as [[| | | | |props]|]; try discriminate.
  intros H. exists props. split; [reflexivity|]. revert H.
  unfold zs.min_length, zs.string.
  destruct (prop "text" props) as [[| | |t| |]|]; try discriminate.
  destruct (1 <=? String.length t)%nat eqn:Et; [|discriminate].
  apply Nat.leb_le in Et.
  assert (Hvoice : forall v i,
    z.default (JStr "Default")
      (z.optional (zs.enum ["Fenrir"; "Puck"; "Zephyr"; "Nova"; "Default"])) i = Some v ->
    (i = Some (JStr v) \/ i = None /\ v = "Default") /\ In v VOICES).
  { intros v i. unfold z.default, z.optional, zs.enum.
    destruct i as [[| | |s| |]|]; try discriminate.
    - destruct (existsb (String.eqb s) _) eqn:Ex; [|discriminate].
      intros [= <-]. split; [left; reflexivity|].
      apply existsb_exists in Ex. destruct Ex as (x & Hin & Heq).
      apply String.eqb_eq in Heq. subst x. exact Hin.
    - cbn. intros [= <-]. split; [right; split; reflexivity|]. cbn. tauto. }
  assert (Hrate : forall q i,
    z.default (JNum 1) (z.optional (z.max tts.d1_3 (z.min tts.d0_7 z.number))) i = Some q ->
    (i = Some (JNum q) \/ i = None /\ q = 1%Q) /\ (tts.d0_7 <= q)%Q /\ (q <= tts.d1_3)%Q).
  { intros q i. unfold z.default, z.optional, z.max, z.min, z.number.
    destruct i as [[| |x| | |]|]; try discriminate.
    - destruct (Qle_bool tts.d0_7 x) eqn:E1; [|discriminate].
      destruct (Qle_bool x tts.d1_3) eqn:E2; [|discriminate].
      intros [= <-]. apply Qle_bool_iff in E1, E2. auto.
    - cbn. intros [= <-]. split; [right; split; reflexivity|]. split; discriminate. }
  destruct (z.default _ _ (prop "voice" props)) as [v|] eqn:Ev; [|discriminate].
  destruct (z.default _ _ (prop "speakingRate" props)) as [q|] eqn:Eq; [|discriminate].
  intros [= <-]. cbn [tts.text tts.voice tts.speakingRate].
  destruct (Hvoice _ _ Ev) as [Hv1 Hv2]. destruct (Hrate _ _ Eq) as [Hq1 [Hq2 Hq3]].
  repeat split; auto.
Qed.

(** What [TTSReq] lets through: a body that is an object with a
    non-empty string [text]; the voice is one of the five names, and
    Default when the body has none; the speaking rate lies between the
    doubles 0.7 and 1.3, and is 1 when the body has none.  Nothing else
    of the body reaches the service. *)
Theorem TTSReq_accepted body r :
  tts.TTSReq body = Some r ->
  get "text" body = Some (JStr (tts.text r)) /\ tts.text r <> EmptyString /\
  In (tts.voice r) ["Fenrir"; "Puck"; "Zephyr"; "Nova"; "Default"] /\
  (get "voice" body = None -> tts.voice r = "Default") /\
  (tts.d0_7 <= tts.speakingRate r)%Q /\ (tts.speakingRate r <= tts.d1_3)%Q /\
  (get "speakingRate" body = None -> tts.speakingRate r = 1%Q).
Proof.
  intros H. destruct (TTSReq_inv _ _ H) as (props & -> & Ht & Hlen & Hv & Hin & Hq & Hlo & Hhi).
  cbn [get]. split; [exact Ht|]. split.
  { intros E. rewrite E in Hlen. cbn in Hlen. lia. }
  split; [exact Hin|]. split.
  { intros E. destruct Hv as [Hv|[_ Hv]]; [congruence | exact Hv]. }
  split; [exact Hlo|]. split; [exact Hhi|].
  intros E. destruct Hq as [Hq|[_ Hq]]; [congruence | exact Hq].
Qed.

Lemma TTSReq_accepted_witness :
  let body := Some (JObj [("text", JStr "Hello there")]) in
  let r := {| tts.text := "Hello there"; tts.voice := "Default"; tts.speakingRate := 1 |} in
  get "text" body = Some (JStr (tts.text r)) /\ tts.text r <> EmptyString /\
  In (tts.voice r) ["Fenrir"; "Puck"; "Zephyr"; "Nova"; "Default"] /\
  (get "voice" body = None -> tts.voice r = "Default") /\
  (tts.d0_7 <= tts.speakingRate r)%Q /\ (tts.speakingRate r <= tts.d1_3)%Q /\
  (get "speakingRate" body = None -> tts.speakingRate r = 1%Q).
Proof.
  apply (TTSReq_accepted (Some (JObj [("text", JStr "Hello there")]))
           {| tts.text := "Hello there"; tts.voice := "Default"; tts.speakingRate := 1 |}).
  vm_compute. reflexivity.
Defined.

(** X13. With DISABLE_TTS=1 [generateSpeech] answers before it looks at
    the body: whatever the body, valid or not, the result is the
    "disabled" object, no request reaches the speech service, and the
    endpoint answers with status 200. *)
Theorem generateSpeech_disabled rt runtime_text (env : Env) svc body :
  env !! "DISABLE_TTS" = Some "1" ->
  tts.generateSpeech rt env svc body = (Return tts.disabled, []) /\
  generate_speech rt runtime_text env svc body
  = {| status := 200; headers := []; body := Json tts.disabled |}.
Proof.
  intros H. unfold generate_speech, tts.generateSpeech.
  rewrite bool_decide_eq_true_2 by exact H. split; reflexivity.
Qed.

Lemma generateSpeech_disabled_witness :
  tts.generateSpeech plain_runtime {[ "DISABLE_TTS" := "1" ]}
    (constant_service (tts.Text "x")) (Some JNull)
  = (Return tts.disabled, []) /\
  generate_speech plain_runtime (fun _ => "") {[ "DISABLE_TTS" := "1" ]}
    (constant_service (tts.Text "x")) (Some JNull)
  = {| status := 200; headers := []; body := Json tts.disabled |}.
Proof.
  apply (generateSpeech_disabled plain_runtime (fun _ => "") {[ "DISABLE_TTS" := "1" ]}
           (constant_service (tts.Text "x")) (Some JNull)).
  vm_compute. reflexivity.
Defined.

Lemma lookup_voice_VOICES v :
  In v VOICES ->
  exists n, tts.lookup_voice v tts.VOICE_MAP = Some {| tts.languageCode := "en-US"; tts.name := n |} /\
            In n ["en-US-Neural2-D"; "en-US-Neural2-A"; "en-US-Neural2-F"; "en-US-Neural2-C"].
Proof.
  cbn. intros [<-|[<-|[<-|[<-|[<-|[]]]]]]; cbn; eexists; (split; [reflexivity|]); cbn; tauto.
Qed.

Lemma generateSpeech_cases rt (env : Env) svc body :
  (env !! "DISABLE_TTS" = Some "1" /\
   tts.generateSpeech rt env svc body = (Return tts.disabled, [])) \/
  (env !! "DISABLE_TTS" <> Some "1" /\ tts.TTSReq body = None /\
   tts.generateSpeech rt env svc body = (Throw ZodError, [])) \/
  (env !! "DISABLE_TTS" <> Some "1" /\
   exists r n,
     tts.TTSReq body = Some r /\
     tts.lookup_voice (tts.voice r) tts.VOICE_MAP
     = Some {| tts.languageCode := "en-US"; tts.name := n |} /\
     In n ["en-US-Neural2-D"; "en-US-Neural2-A"; "en-US-Neural2-F"; "en-US-Neural2-C"] /\
     let request :=
       {| tts.input_text := tts.text r;
          tts.voice_languageCode := "en-US";
          tts.voice_name := n;
          tts.audioEncoding := "MP3";
          tts.audio_speakingRate := tts.speakingRate r |} in
     tts.generateSpeech rt env svc body
     = (match svc request with
        | Throw e => Throw e
        | Return tts.NoContent => Return tts.no_audio
        | Return (tts.Text EmptyString) => Return tts.no_audio
        | Return (tts.Text s) =>
            Return (JObj [ ("ok", JBool true);
                           ("audioBase64", JStr (base64 rt (utf8 rt s)));
                           ("mime", JStr "audio/mpeg") ])
        | Return (tts.Bytes _ data) =>
            Return (JObj [ ("ok", JBool true);
                           ("audioBase64", JStr (base64 rt data));
                           ("mime", JStr "audio/mpeg") ])
        end, [request])).
Proof.
  unfold tts.generateSpeech. case_bool_decide as Hd; [left; auto|right].
  destruct (tts.TTSReq body) as [r|] eqn:Er; [right|left; auto].
  split; [exact Hd|].
  destruct (TTSReq_inv _ _ Er) as (props & _ & _ & _ & _ & Hin & _).
  destruct (lookup_voice_VOICES _ Hin) as (n & Hn & Hnin).
  exists r, n. split; [reflexivity|]. split; [exact Hn|]. split; [exact Hnin|].
  rewrite Hn. reflexivity.
Qed.

(** X14. Every request [generateSpeech] makes to the speech service
    comes from a body the schema accepted, and it is the only one of
    the call: its text is the body's non-empty text, its voice is the
    entry of VOICE_MAP under the validated name (the fallback to the
    default entry is never taken), always an en-US Neural2 voice, the
    encoding is MP3 and the speaking rate lies between 0.7 and 1.3. *)
Theorem generateSpeech_requests rt (env : Env) svc body req :
  In req (snd (tts.generateSpeech rt env svc body)) ->
  snd (tts.generateSpeech rt env svc body) = [req] /\
  env !! "DISABLE_TTS" <> Some "1" /\
  exists r,
    tts.TTSReq body = Some r /\
    tts.input_text req = tts.text r /\ tts.text r <> EmptyString /\
    tts.lookup_voice (tts.voice r) tts.VOICE_MAP
    = Some {| tts.languageCode := tts.voice_languageCode req;
              tts.name := tts.voice_name req |} /\
    tts.voice_languageCode req = "en-US" /\
    In (tts.voice_name req)
      ["en-US-Neural2-D"; "en-US-Neural2-A"; "en-US-Neural2-F"; "en-US-Neural2-C"] /\
    tts.audioEncoding req = "MP3" /\
    tts.audio_speakingRate req = tts.speakingRate r /\
    (tts.d0_7 <= tts.audio_speakingRate req)%Q /\ (tts.audio_speakingRate req <= tts.d1_3)%Q.
Proof.
  destruct (generateSpeech_cases rt env svc body)
    as [[_ ->]|[(_ & _ & ->)|(Hd & r & n & Er & Hn & Hnin & ->)]]; cbn [snd].
  - intros [].
  - intros [].
  - intros [<-|[]]. split; [reflexivity|]. split; [exact Hd|].
    exists r. cbn.
    destruct (TTSReq_accepted _ _ Er) as (_ & Ht & _ & _ & Hlo & Hhi & _).
    repeat split; auto.
Qed.

Lemma generateSpeech_requests_witness :
  let req := {| tts.input_text := "Hello there";
                tts.voice_languageCode := "en-US";
                tts.voice_name := "en-US-Neural2-A";
                tts.audioEncoding := "MP3";
                tts.audio_speakingRate := 1 |} in
  snd (tts.generateSpeech plain_runtime ∅ (constant_service tts.NoContent)
         (Some (JObj [("text", JStr "Hello there"); ("voice", JStr "Puck")]))) = [req].
Proof.
  intros req.
  apply (generateSpeech_requests plain_runtime ∅ (constant_service tts.NoContent)
           (Some (JObj [("text", JStr "Hello there"); ("voice", JStr "Puck")])) req).
  vm_compute. left. reflexivity.
Defined.

(** X15. When [generateSpeech] returns, the result says [ok: true]
    exactly when the service was asked and answered with content that
    is a non-empty string or bytes (an empty byte array included, which
    gives empty audio); it then carries the base64 text of that content
    with the mime type audio/mpeg.  In every other case the result is
    [ok: false] with an error text.  Either way the endpoint answers
    with status 200. *)
Theorem generateSpeech_returns rt runtime_text (env : Env) svc body j :
  fst (tts.generateSpeech rt env svc body) = Return j ->
  generate_speech rt runtime_text env svc body
  = {| status := 200; headers := []; body := Json j |} /\
  ((exists req data,
      snd (tts.generateSpeech rt env svc body) = [req] /\
      ((exists b, svc req = Return (tts.Bytes b data)) \/
       (exists s, svc req = Return (tts.Text s) /\ s <> EmptyString /\ data = utf8 rt s)) /\
      j = JObj [ ("ok", JBool true);
                 ("audioBase64", JStr (base64 rt data));
                 ("mime", JStr "audio/mpeg") ]) \/
   (j = tts.disabled \/ j = tts.no_audio) /\
   forall req, In req (snd (tts.generateSpeech rt env svc body)) ->
     svc req = Return tts.NoContent \/ svc req = Return (tts.Text EmptyString)).
Proof.
  intros H. split.
  { unfold generate_speech. rewrite H. reflexivity. }
  revert H.
  destruct (generateSpeech_cases rt env svc body)
    as [[_ ->]|[(_ & _ & ->)|(Hd & r & n & Er & Hn & Hnin & ->)]]; cbn [fst snd].
  - intros [= <-]. right. split; [left; reflexivity|]. intros ? [].
  - discriminate.
  - set (request := tts.Build_SynthesisRequest _ _ _ _ _).
    destruct (svc request) as [[|s|b data]|e] eqn:Es; try discriminate.
    + intros [= <-]. right. split; [right; reflexivity|].
      intros ? [<-|[]]. left. exact Es.
    + destruct s as [|c s].
      * intros [= <-]. right. split; [right; reflexivity|].
        intros ? [<-|[]]. right. exact Es.
      * intros [= <-]. left. exists request, (utf8 rt (String c s)).
        split; [reflexivity|]. split; [|reflexivity].
        right. exists (String c s). split; [exact Es|]. split; [discriminate|reflexivity].
    + intros [= <-]. left. exists request, data.
      split; [reflexivity|]. split; [|reflexivity]. left. exists b. exact Es.
Qed.

Lemma generateSpeech_returns_witness :
  let env : Env := ∅ in
  let svc := constant_service (tts.Bytes false EmptyString) in
  let body := Some (JObj [("text", JStr "Hello there")]) in
  let j := JObj [ ("ok", JBool true); ("audioBase64", JStr EmptyString);
                  ("mime", JStr "audio/mpeg") ] in
  generate_speech plain_runtime (fun _ => EmptyString) env svc body
  = {| status := 200; headers := []; body := Json j |}.
Proof.
  intros env svc body j.
  apply (generateSpeech_returns plain_runtime (fun _ => EmptyString) env svc body j).
  vm_compute. reflexivity.
Defined.

Lemma trim_nonempty_length s :
  truthy (trim s) = true -> (1 <= String.length (trim s))%nat.
Proof.
  unfold truthy. destruct (trim s); cbn; [discriminate|lia].
Qed.

(** X16. Every speech request the client posts is one the server's
    schema accepts as it stands: for a voice of the client's list and a
    narration that is not blank, [TTSReq] yields the trimmed narration,
    that voice, and the rate the client chose (the double 1.15 for the
    productivity preset, which lies within the bounds, else 1). *)
Theorem client_speech_request_accepted narration voice presetId b :
  In voice VOICES ->
  speech_body narration voice presetId = Some b ->
  tts.TTSReq (Some b)
  = Some {| tts.text := trim narration;
            tts.voice := voice;
            tts.speakingRate :=
              if String.eqb presetId "productivity-sketch" then d1_15 else 1 |} /\
  trim narration <> EmptyString.
Proof.
  intros Hv. unfold speech_body.
  destruct (truthy (trim narration)) eqn:Et; cbn [negb]; [|discriminate].
  intros [= <-]. pose proof (trim_nonempty_length _ Et) as Hlen.
  split.
  - unfold tts.TTSReq, zs.object3. cbn [prop String.eqb Ascii.eqb Bool.eqb].
    unfold zs.min_length, zs.string.
    apply Nat.leb_le in Hlen. rewrite Hlen.
    assert (Hvoice : z.default (JStr "Default")
              (z.optional (zs.enum ["Fenrir"; "Puck"; "Zephyr"; "Nova"; "Default"]))
              (Some (JStr voice)) = Some voice).
    { cbn in Hv. destruct Hv as [<-|[<-|[<-|[<-|[<-|[]]]]]]; reflexivity. }
    rewrite Hvoice.
    destruct (String.eqb presetId "productivity-sketch"); reflexivity.
  - intros E. rewrite E in Et. discriminate.
Qed.

Lemma client_speech_request_accepted_witness :
  tts.TTSReq (Some (JObj [ ("text", JStr "Stay focused."); ("voice", JStr "Puck");
                           ("speakingRate", JNum d1_15) ]))
  = Some {| tts.text := trim "  Stay focused. "; tts.voice := "Puck";
            tts.speakingRate := d1_15 |} /\
  trim "  Stay focused. " <> EmptyString.
Proof.
  apply (client_speech_request_accepted "  Stay focused. " "Puck" "productivity-sketch"
           (JObj [ ("text", JStr "Stay focused."); ("voice", JStr "Puck");
                   ("speakingRate", JNum d1_15) ])).
  - vm_compute. tauto.
  - vm_compute. reflexivity.
Defined.

(** * Images *)

Lemma trimEnd_idempotent s : trimEnd (trimEnd s) = trimEnd s.
Proof.
  induction s as [|c s IH]; [reflexivity|]. cbn [trimEnd].
  destruct (trimEnd s) as [|d t] eqn:E.
  - destruct (is_space c) eqn:Ec; [reflexivity|]. cbn. rewrite Ec. reflexivity.
  - cbn [trimEnd] in *. rewrite IH. reflexivity.
Qed.

Lemma trimStart_fixed c s : is_space c = false -> trimStart (String c s) = String c s.
Proof. intros H. cbn. rewrite H. reflexivity. Qed.

Lemma trimStart_head s :
  trimStart s = EmptyString \/ exists c t, trimStart s = String c t /\ is_space c = false.
Proof.
  induction s as [|c s IH]; [left; reflexivity|]. cbn.
  destruct (is_space c) eqn:E; [exact IH|]. right. eauto.
Qed.

Lemma trimEnd_head c s :
  is_space c = false -> exists t, trimEnd (String c s) = String c t.
Proof.
  intros H. cbn [trimEnd]. destruct (trimEnd s); [rewrite H|]; eauto.
Qed.

Lemma trim_idempotent s : trim (trim s) = trim s.
Proof.
  unfold trim. destruct (trimStart_head s) as [->|(c & t & -> & Hc)]; [reflexivity|].
  destruct (trimEnd_head c t Hc) as (u & Hu). rewrite Hu.
  rewrite (trimStart_fixed c u Hc), <- Hu. apply trimEnd_idempotent.
Qed.

Lemma ImageReq_inv body r :
  imagen.ImageReq body = Some r ->
  exists props,
    body = Some (JObj props) /\
    prop "prompt" props = Some (JStr (imagen.prompt r)) /\
    (5 <= String.length (imagen.prompt r))%nat /\
    (prop "suffix" props = Some (JStr (imagen.suffix r)) \/
     prop "suffix" props = None /\ imagen.suffix r = EmptyString) /\
    (prop "aspect" props = Some (JStr (imagen.aspect r)) \/
     prop "aspect" props = None /\ imagen.aspect r = "16:9") /\
    In (imagen.aspect r) ["16:9"; "1:1"; "9:16"].
Proof.
  unfold imagen.ImageReq, zs.object3. destruct body as [[| | | | |props]|]; try discriminate.
  intros H. exists props. split; [reflexivity|]. revert H.
  unfold zs.min_length, zs.string.
  destruct (prop "prompt" props) as [[| | |t| |]|]; try discriminate.
  destruct (5 <=? String.length t)%nat eqn:Et; [|discriminate].
  apply Nat.leb_le in Et.
  destruct (prop "suffix" props) as [[| | |sf| |]|] eqn:Es; try discriminate;
  destruct (prop "aspect" props) as [[| | |a| |]|] eqn:Ea; try discriminate;
  cbn [z.default z.optional zs.enum].
  - unfold z.default, z.optional, zs.enum.
    destruct (existsb (String.eqb a) _) eqn:Ex; [|discriminate].
    intros [= <-]. cbn.
    apply existsb_exists in Ex. destruct Ex as (x & Hin & Heq).
    apply String.eqb_eq in Heq. subst x. auto 10.
  - unfold z.default, z.optional, zs.enum. cbn. intros [= <-]. cbn. auto 10.
  - unfold z.default, z.optional, zs.enum.
    destruct (existsb (String.eqb a) _) eqn:Ex; [|discriminate].
    intros [= <-]. cbn.
    apply existsb_exists in Ex. destruct Ex as (x & Hin & Heq).
    apply String.eqb_eq in Heq. subst x. auto 10.
  - unfold z.default, z.optional, zs.enum. cbn. intros [= <-]. cbn. auto 10.
Qed.

Lemma generateImage_cases rt (env : Env) gc body :
  (imagen.ImageReq body = None /\
   imagen.generateImage rt env gc body = (Throw ZodError, [])) \/
  (exists r e,
     imagen.ImageReq body = Some r /\ vertex.getVertexClient env = Throw e /\
     imagen.generateImage rt env gc body = (Throw e, [])) \/
  (exists r c,
     imagen.ImageReq body = Some r /\ vertex.getVertexClient env = Return c /\
     let request :=
       {| client := c;
          model := vertex.getImagenModelId env;
          parts := [JSON_stringify rt
                      (imagen.image_order (imagen.fullPrompt (imagen.prompt r) (imagen.suffix r))
                         (imagen.aspectToSize (imagen.aspect r)))];
          temperature := imagen.d0_2;
          maxOutputTokens := 1024 |} in
     imagen.generateImage rt env gc body
     = (match gc request with
        | Throw e => Throw e
        | Return resp =>
            match imagen.joined rt resp with
            | Throw e => Throw e
            | Return joined =>
                match imagen.b64Match joined with
                | None =>
                    Return (JObj [ ("ok", JBool false);
                                   ("error", JStr imagen.no_image);
                                   ("raw", JStr joined) ])
                | Some g =>
                    Return (JObj [ ("ok", JBool true); ("imageBase64", JStr g) ])
                end
            end
        end, [request])).
Proof.
  unfold imagen.generateImage.
  destruct (imagen.ImageReq body) as [r|]; [right|left; auto].
  destruct (vertex.getVertexClient env) as [c|e]; [right|left]; eauto.
Qed.

(** X17. [generateImage] asks the model only after the body passed the
    schema and the project is configured, and at most once.  The
    request goes to that project under a model id that is never empty;
    the prompt it carries is the body's prompt (five characters or
    more before trimming) and suffix joined by a space, with no white
    space left at either end. *)
Theorem generateImage_requests rt (env : Env) gc body req :
  In req (snd (imagen.generateImage rt env gc body)) ->
  snd (imagen.generateImage rt env gc body) = [req] /\
  exists r p,
    imagen.ImageReq body = Some r /\
    (5 <= String.length (imagen.prompt r))%nat /\
    vertex.getVertexClient env = Return (client req) /\
    vertex.project (client req) <> EmptyString /\
    model req <> EmptyString /\
    parts req = [JSON_stringify rt (imagen.image_order p (imagen.aspectToSize (imagen.aspect r)))] /\
    p = trim (imagen.prompt r +:+
              (if truthy (imagen.suffix r) then " " +:+ imagen.suffix r else EmptyString)) /\
    trim p = p.
Proof.
  destruct (generateImage_cases rt env gc body)
    as [[_ ->]|[(r & e & _ & _ & ->)|(r & c & Er & Ec & ->)]]; cbn [snd].
  - intros [].
  - intros [].
  - intros [<-|[]]. split; [reflexivity|].
    exists r, (imagen.fullPrompt (imagen.prompt r) (imagen.suffix r)). cbn.
    destruct (ImageReq_inv _ _ Er) as (props & _ & _ & Hlen & _).
    pose proof (getVertexClient_project_nonempty env c Ec) as Hp.
    repeat split; auto.
    + apply or_default_nonempty. discriminate.
    + apply trim_idempotent.
Qed.

Lemma generateImage_requests_witness :
  snd (imagen.generateImage plain_runtime project_env (text_model "no image")
         (Some (JObj [("prompt", JStr " a red fox "); ("suffix", JStr ", ink sketch")])))
  = [ {| client := {| vertex.project := "station"; vertex.location := "us-central1" |};
         model := "imagen-3.0-generate-001";
         parts := ["{}"];
         temperature := imagen.d0_2;
         maxOutputTokens := 1024 |} ].
Proof.
  apply (generateImage_requests plain_runtime project_env (text_model "no image")
           (Some (JObj [("prompt", JStr " a red fox "); ("suffix", JStr ", ink sketch")]))).
  vm_compute. left. reflexivity.
Defined.

Lemma ImageReq_prompt_only p :
  (5 <= String.length p)%nat ->
  imagen.ImageReq (Some (JObj [("prompt", JStr p)]))
  = Some {| imagen.prompt := p; imagen.suffix := EmptyString; imagen.aspect := "16:9" |}.
Proof.
  intros H. unfold imagen.ImageReq, zs.object3, zs.min_length, zs.string.
  cbn [prop String.eqb Ascii.eqb Bool.eqb]. apply Nat.leb_le in H. rewrite H. reflexivity.
Qed.

(** X18. The length of the prompt is checked before it is trimmed: a
    prompt of five or more characters that are all white space passes
    the schema, and with no suffix the model is asked for an image of
    the empty prompt, in the default size 1280 by 720. *)
Theorem generateImage_blank_prompt rt (env : Env) gc p c :
  (5 <= String.length p)%nat ->
  trim p = EmptyString ->
  vertex.getVertexClient env = Return c ->
  snd (imagen.generateImage rt env gc (Some (JObj [("prompt", JStr p)])))
  = [ {| client := c;
         model := vertex.getImagenModelId env;
         parts := [JSON_stringify rt
                     (imagen.image_order EmptyString
                        {| imagen.width := 1280; imagen.height := 720 |})];
         temperature := imagen.d0_2;
         maxOutputTokens := 1024 |} ].
Proof.
  intros Hlen Ht Hc. unfold imagen.generateImage.
  rewrite (ImageReq_prompt_only p Hlen), Hc. cbn [snd imagen.prompt imagen.suffix imagen.aspect].
  unfold imagen.fullPrompt. cbn [truthy String.eqb negb].
  replace (p +:+ EmptyString) with p.
  - rewrite Ht. reflexivity.
  - clear. induction p as [|a p IH]; [reflexivity|].
    change (String a p +:+ EmptyString) with (String a (p +:+ EmptyString)).
    f_equal. exact IH.
Qed.

Lemma generateImage_blank_prompt_witness :
  snd (imagen.generateImage plain_runtime project_env (text_model "no image")
         (Some (JObj [("prompt", JStr "      ")])))
  = [ {| client := {| vertex.project := "station"; vertex.location := "us-central1" |};
         model := vertex.getImagenModelId project_env;
         parts := [JSON_stringify plain_runtime
                     (imagen.image_order EmptyString
                        {| imagen.width := 1280; imagen.height := 720 |})];
         temperature := imagen.d0_2;
         maxOutputTokens := 1024 |} ].
Proof.
  apply (generateImage_blank_prompt plain_runtime project_env (text_model "no image") "      "
           {| vertex.project := "station"; vertex.location := "us-central1" |}).
  - cbn. lia.
  - vm_compute. reflexivity.
  - vm_compute. reflexivity.
Defined.

Lemma strip_spec p s r : imagen.strip p s = Some r -> s = p +:+ r.
Proof.
  revert s. induction p as [|a p IH]; intros s; cbn.
  - intros [= ->]. reflexivity.
  - destruct s as [|b s]; [discriminate|].
    destruct (Ascii.eqb_spec a b) as [->|_]; [|discriminate].
    intros H. rewrite (IH _ H). reflexivity.
Qed.

Lemma span_spec ok s run rest :
  imagen.span ok s = (run, rest) ->
  s = run +:+ rest /\
  forall c, indexOf c run <> None -> ok c = true.
Proof.
  revert run rest. induction s as [|a s IH]; intros run rest; cbn.
  - intros [= <- <-]. split; [reflexivity|]. cbn. congruence.
  - destruct (ok a) eqn:Ea.
    + destruct (imagen.span ok s) as [run' tail] eqn:E. intros [= <- <-].
      destruct (IH _ _ eq_refl) as [-> Hall]. split; [reflexivity|].
      intros c. cbn. destruct (Ascii.eqb_spec a c) as [<-|_]; [intros _; exact Ea|].
      intros H. apply Hall. destruct (indexOf c run'); congruence.
    + intros [= <- <-]. split; [reflexivity|]. cbn. congruence.
Qed.

Lemma trimStart_suffix s : exists spaces, s = spaces +:+ trimStart s.
Proof.
  induction s as [|a s [sp IH]]; [exists EmptyString; reflexivity|]. cbn.
  destruct (is_space a).
  - exists (String a sp). change (String a s = String a (sp +:+ trimStart s)).
    f_equal. exact IH.
  - exists EmptyString. reflexivity.
Qed.

Lemma piece_suffix g s a : piece g s -> piece g (a +:+ s).
Proof.
  intros (b & e & ->). exists (a +:+ b), e. symmetry. apply append_assoc.
Qed.

Lemma piece_prefix g r : piece g (g +:+ r).
Proof. exists EmptyString, r. reflexivity. Qed.

Lemma no_quote_spec g :
  (forall c, indexOf c g <> None -> negb (imagen.is_quote c) = true) ->
  indexOf "034"%char g = None.
Proof.
  intros H. destruct (indexOf "034"%char g) eqn:E; [|reflexivity].
  specialize (H "034"%char). rewrite E in H. discriminate H. discriminate.
Qed.

Lemma base64_char_no_quote c : imagen.is_base64_char c = true -> negb (imagen.is_quote c) = true.
Proof.
  destruct c as [[] [] [] [] [] [] [] []]; vm_compute; congruence.
Qed.

Lemma data_here_spec s g :
  imagen.data_here s = Some g ->
  g <> EmptyString /\ indexOf "034"%char g = None /\ piece g s.
Proof.
  unfold imagen.data_here.
  destruct (imagen.strip (quoted "data") s) as [r1|] eqn:E1; [|discriminate].
  apply strip_spec in E1.
  destruct (trimStart_suffix r1) as [sp1 H1].
  destruct (trimStart r1) as [|c1 r2]; [discriminate|].
  destruct (Ascii.eqb_spec c1 ":"%char) as [->|Hc1].
  2:{ destruct c1 as [[] [] [] [] [] [] [] []]; try discriminate. congruence. }
  destruct (trimStart_suffix r2) as [sp2 H2].
  destruct (trimStart r2) as [|c r3]; [discriminate|].
  destruct (imagen.is_quote c) eqn:Eq; [|discriminate].
  destruct (imagen.span _ r3) as [run rest] eqn:Es.
  destruct run as [|a run]; [discriminate|]. destruct rest as [|b rest]; [discriminate|].
  intros [= <-]. apply span_spec in Es. destruct Es as [Hr3 Hall].
  split; [discriminate|]. split; [apply no_quote_spec, Hall|].
  subst s. apply piece_suffix. rewrite H1. apply piece_suffix.
  apply (piece_suffix _ _ (String ":"%char EmptyString)). rewrite H2. apply piece_suffix.
  apply (piece_suffix _ _ (String c EmptyString)). rewrite Hr3. apply piece_prefix.
Qed.

Lemma base64_here_spec s g :
  imagen.base64_here s = Some g ->
  g <> EmptyString /\ indexOf "034"%char g = None /\ piece g s.
Proof.
  unfold imagen.base64_here.
  destruct (imagen.strip "base64," s) as [r|] eqn:E1; [|discriminate].
  apply strip_spec in E1.
  destruct (imagen.span _ r) as [run rest] eqn:Es.
  destruct run as [|a run]; [discriminate|].
  intros [= <-]. apply span_spec in Es. destruct Es as [Hr Hall].
  split; [discriminate|]. split.
  - apply no_quote_spec. intros c Hc. apply base64_char_no_quote, Hall, Hc.
  - subst s. apply piece_suffix. rewrite Hr. apply piece_prefix.
Qed.

Lemma leftmost_spec here s g :
  (forall t g, here t = Some g -> g <> EmptyString /\ indexOf "034"%char g = None /\ piece g t) ->
  imagen.leftmost here s = Some g ->
  g <> EmptyString /\ indexOf "034"%char g = None /\ piece g s.
Proof.
  intros Hh. induction s as [|a s IH]; cbn [imagen.leftmost].
  - destruct (here EmptyString) eqn:E; [|discriminate]. intros [= <-]. apply Hh, E.
  - destruct (here (String a s)) eqn:E.
    + intros [= <-]. apply Hh, E.
    + intros H. destruct (IH H) as (H1 & H2 & H3). split; [exact H1|]. split; [exact H2|].
      apply (piece_suffix _ _ (String a EmptyString)), H3.
Qed.

Lemma b64Match_spec s g :
  imagen.b64Match s = Some g ->
  g <> EmptyString /\ indexOf "034"%char g = None /\ piece g s.
Proof.
  unfold imagen.b64Match. destruct (imagen.leftmost imagen.data_here s) eqn:E.
  - intros [= <-]. eapply leftmost_spec; [apply data_here_spec | exact E].
  - apply leftmost_spec, base64_here_spec.
Qed.

(** X19. What [generateImage] returns is one of two objects.  With
    [ok: true] the image data is a non-empty piece of the text the model
    answered with and contains no double quote; nothing more is checked
    of it.  With [ok: false] the object carries the fixed error text and
    the model's text as [raw].  Either way the model was asked exactly
    once. *)
Theorem generateImage_returns rt (env : Env) gc body j :
  fst (imagen.generateImage rt env gc body) = Return j ->
  exists req resp text,
    snd (imagen.generateImage rt env gc body) = [req] /\
    gc req = Return resp /\
    imagen.joined rt resp = Return text /\
    ((exists g,
        j = JObj [ ("ok", JBool true); ("imageBase64", JStr g) ] /\
        g <> EmptyString /\ indexOf "034"%char g = None /\
        exists before after, text = before +:+ g +:+ after) \/
     j = JObj [ ("ok", JBool false); ("error", JStr imagen.no_image); ("raw", JStr text) ]).
Proof.
  destruct (generateImage_cases rt env gc body)
    as [[_ ->]|[(r & e & _ & _ & ->)|(r & c & Er & Ec & ->)]]; cbn [fst snd];
    try discriminate.
  set (request := Build_GenerateRequest _ _ _ _ _).
  destruct (gc request) as [resp|] eqn:Eg; [|discriminate].
  destruct (imagen.joined rt resp) as [text|] eqn:Ej; [|discriminate].
  destruct (imagen.b64Match text) as [g|] eqn:Em; intros [= <-];
    exists request, resp, text; repeat split; auto.
  left. exists g. split; [reflexivity|]. apply b64Match_spec, Em.
Qed.

Lemma generateImage_returns_witness :
  let text := "{" +:+ quoted "data" +:+ " : " +:+ quoted "not an image" +:+ "}" in
  exists req resp text',
    snd (imagen.generateImage plain_runtime project_env (text_model text)
           (Some (JObj [("prompt", JStr "a red fox")]))) = [req] /\
    text_model text req = Return resp /\
    imagen.joined plain_runtime resp = Return text' /\
    ((exists g,
        JObj [ ("ok", JBool true); ("imageBase64", JStr "not an image") ]
        = JObj [ ("ok", JBool true); ("imageBase64", JStr g) ] /\
        g <> EmptyString /\ indexOf "034"%char g = None /\
        exists before after, text' = before +:+ g +:+ after) \/
     JObj [ ("ok", JBool true); ("imageBase64", JStr "not an image") ]
     = JObj [ ("ok", JBool false); ("error", JStr imagen.no_image); ("raw", JStr text') ]).
Proof.
  intros text.
  apply (generateImage_returns plain_runtime project_env (text_model text)
           (Some (JObj [("prompt", JStr "a red fox")]))
           (JObj [ ("ok", JBool true); ("imageBase64", JStr "not an image") ])).
  vm_compute. reflexivity.
Defined.

(** X20. The client posts an image request for every scene whose
    trimmed prompt is not empty, but the server wants five characters:
    a trimmed prompt of five or more is accepted as it stands, with the
    preset's suffix and the aspect 16:9; one of one to four characters
    is refused before any model call, and the endpoint answers 400. *)
Theorem client_image_request rt runtime_text (env : Env) gc image_prompt preset_suffix b :
  image_body image_prompt preset_suffix = Some b ->
  ((5 <= String.length (trim image_prompt))%nat ->
   imagen.ImageReq (Some b)
   = Some {| imagen.prompt := trim image_prompt;
             imagen.suffix := preset_suffix;
             imagen.aspect := "16:9" |}) /\
  ((String.length (trim image_prompt) < 5)%nat ->
   imagen.generateImage rt env gc (Some b) = (Throw ZodError, []) /\
   status (generate_image rt runtime_text env gc (Some b)) = 400%nat).
Proof.
  unfold image_body. destruct (truthy (trim image_prompt)); cbn [negb]; [|discriminate].
  intros [= <-].
  assert (E : imagen.ImageReq
            (Some (JObj [ ("prompt", JStr (trim image_prompt));
                          ("suffix", JStr preset_suffix); ("aspect", JStr "16:9") ]))
          = if (5 <=? String.length (trim image_prompt))%nat
            then Some {| imagen.prompt := trim image_prompt;
                         imagen.suffix := preset_suffix;
                         imagen.aspect := "16:9" |}
            else None).
  { unfold imagen.ImageReq, zs.object3, zs.min_length, zs.string.
    cbn [prop String.eqb Ascii.eqb Bool.eqb].
    destruct (5 <=? String.length (trim image_prompt))%nat; reflexivity. }
  split.
  - intros H. apply Nat.leb_le in H. rewrite E, H. reflexivity.
  - intros H. apply Nat.leb_gt in H.
    unfold generate_image, imagen.generateImage. rewrite E, H. split; reflexivity.
Qed.

Lemma client_image_request_witness :
  imagen.generateImage plain_runtime project_env (text_model "x")
    (Some (JObj [ ("prompt", JStr "fox"); ("suffix", JStr ", ink"); ("aspect", JStr "16:9") ]))
  = (Throw ZodError, []) /\
  status (generate_image plain_runtime (fun _ => "Invalid input") project_env (text_model "x")
            (Some (JObj [ ("prompt", JStr "fox"); ("suffix", JStr ", ink");
                          ("aspect", JStr "16:9") ]))) = 400%nat.
Proof.
  apply (client_image_request plain_runtime (fun _ => "Invalid input") project_env
           (text_model "x") " fox " ", ink"
           (JObj [ ("prompt", JStr "fox"); ("suffix", JStr ", ink"); ("aspect", JStr "16:9") ])).
  - vm_compute. reflexivity.
  - vm_compute. lia.
Defined.

(** * Script analysis *)

Lemma indexOf_app c pre rest :
  indexOf c pre = None ->
  indexOf c (pre +:+ String c rest) = Some (String.length pre).
Proof.
  induction pre as [|d pre IH].
  - intros _. change (EmptyString +:+ String c rest) with (String c rest).
    cbn [indexOf String.length]. rewrite Ascii.eqb_refl. reflexivity.
  - change (String d pre +:+ String c rest) with (String d (pre +:+ String c rest)).
    cbn [indexOf String.length]. destruct (Ascii.eqb d c); [discriminate|].
    destruct (indexOf c pre); [discriminate|]. intros _. rewrite IH by reflexivity. reflexivity.
Qed.

Lemma lastIndexOf_app c s post :
  lastIndexOf c post = None ->
  lastIndexOf c (s +:+ String c post) = Some (String.length s).
Proof.
  intros H. induction s as [|d s IH].
  - change (EmptyString +:+ String c post) with (String c post).
    cbn [lastIndexOf String.length]. rewrite H, Ascii.eqb_refl. reflexivity.
  - change (String d s +:+ String c post) with (String d (s +:+ String c post)).
    cbn [lastIndexOf String.length]. rewrite IH. reflexivity.
Qed.

Lemma substring_skip pre n t :
  String.substring (String.length pre) n (pre +:+ t) = String.substring 0 n t.
Proof.
  induction pre as [|d pre IH]; [reflexivity|].
  change (String d pre +:+ t) with (String d (pre +:+ t)). cbn. exact IH.
Qed.

Lemma substring_prefix a b :
  String.substring 0 (String.length a) (a +:+ b) = a.
Proof.
  induction a as [|d a IH]; [destruct b; reflexivity|].
  change (String d a +:+ b) with (String d (a +:+ b)). cbn. rewrite IH. reflexivity.
Qed.

(** X21. The answer's JSON is cut out from the first opening brace to
    the last closing brace: whatever text without an opening brace
    comes before, and whatever text without a closing brace comes
    after, is dropped, and what lies between is kept as it is. *)
Theorem jsonStr_drops_stray_text pre mid post :
  indexOf "{"%char pre = None ->
  lastIndexOf "}"%char post = None ->
  analyze.jsonStr (pre +:+ "{" +:+ mid +:+ "}" +:+ post) = Return ("{" +:+ mid +:+ "}").
Proof.
  intros Hpre Hpost. unfold analyze.jsonStr.
  change (pre +:+ "{" +:+ mid +:+ "}" +:+ post)
    with (pre +:+ String "{"%char (mid +:+ String "}"%char post)).
  rewrite (indexOf_app _ _ _ Hpre).
  assert (E : pre +:+ String "{"%char (mid +:+ String "}"%char post)
              = (pre +:+ String "{"%char mid) +:+ String "}"%char post).
  { rewrite append_assoc. reflexivity. }
  rewrite E at 1. rewrite (lastIndexOf_app _ _ _ Hpost).
  unfold slice. rewrite substring_skip. f_equal.
  rewrite length_append. cbn [String.length].
  replace (String.length pre + S (String.length mid) + 1 - String.length pre)%nat
    with (String.length (String "{"%char (mid +:+ "}"))) by (cbn; rewrite length_append; cbn; lia).
  change (String "{"%char (mid +:+ String "}"%char post))
    with (String "{"%char (mid +:+ ("}" +:+ post))).
  rewrite <- append_assoc.
  apply (substring_prefix (String "{"%char (mid +:+ "}")) post).
Qed.

Lemma jsonStr_drops_stray_text_witness :
  analyze.jsonStr ("Here is the plan: " +:+ "{" +:+ "{}" +:+ "}" +:+ " Enjoy!")
  = Return ("{" +:+ "{}" +:+ "}").
Proof.
  apply (jsonStr_drops_stray_text "Here is the plan: " "{}" " Enjoy!"); reflexivity.
Defined.

Lemma integer_spec q :
  (Qnum q mod Zpos (Qden q) =? 0) = true ->
  (q == inject_Z (Qnum q / Zpos (Qden q)))%Q.
Proof.
  intros H. apply Z.eqb_eq in H. unfold Qeq. cbn.
  rewrite Z.mul_1_r. rewrite Z.mul_comm. apply Z_div_exact_full_2; [lia | exact H].
Qed.

Lemma AnalyzeReq_inv body r :
  analyze.AnalyzeReq body = Some r ->
  exists props,
    body = Some (JObj props) /\
    prop "script" props = Some (JStr (analyze.script r)) /\
    (10 <= String.length (analyze.script r))%nat /\
    (exists n : Z, (analyze.timingRuleSeconds r == inject_Z n)%Q /\ 4 <= n <= 30) /\
    (prop "timingRuleSeconds" props = Some (JNum (analyze.timingRuleSeconds r)) \/
     prop "timingRuleSeconds" props = None /\ analyze.timingRuleSeconds r = 13%Q).
Proof.
  unfold analyze.AnalyzeReq, zs.object4. destruct body as [[| | | | |props]|]; try discriminate.
  intros H. exists props. split; [reflexivity|]. revert H.
  unfold zs.min_length, zs.string.
  destruct (prop "script" props) as [[| | |t| |]|]; try discriminate.
  destruct (10 <=? String.length t)%nat eqn:Et; [|discriminate].
  apply Nat.leb_le in Et.
  destruct (z.optional _ (prop "styleName" props)) as [sn|]; [|discriminate].
  assert (Htime : forall q i,
    zs.default (JNum 13) (z.max 30 (z.min 4 (zs.int z.number))) i = Some q ->
    (exists n : Z, (q == inject_Z n)%Q /\ 4 <= n <= 30) /\
    (i = Some (JNum q) \/ i = None /\ q = 13%Q)).
  { intros q i. unfold zs.default, z.max, z.min, zs.int, z.number.
    assert (Hnum : forall x,
      match
        match (if (Qnum x mod Z.pos (Qden x) =? 0) then Some x else None) with
        | Some q0 => if Qle_bool 4 q0 then Some q0 else None
        | None => None
        end
      with
      | Some q0 => if Qle_bool q0 30 then Some q0 else None
      | None => None
      end = Some q -> x = q /\ exists n : Z, (q == inject_Z n)%Q /\ 4 <= n <= 30).
    { intros x. destruct (Qnum x mod Z.pos (Qden x) =? 0) eqn:Ei; [|discriminate].
      destruct (Qle_bool 4 x) eqn:E1; [|discriminate].
      destruct (Qle_bool x 30) eqn:E2; [|discriminate].
      intros [= <-]. split; [reflexivity|].
      apply Qle_bool_iff in E1, E2. pose proof (integer_spec _ Ei) as Hn.
      exists (Qnum x / Z.pos (Qden x)). split; [exact Hn|].
      rewrite Hn in E1, E2.
      change 4%Q with (inject_Z 4) in E1. change 30%Q with (inject_Z 30) in E2.
      rewrite <- Zle_Qle in E1, E2. lia. }
    destruct i as [[| |x| | |]|]; try discriminate.
    - intros H. destruct (Hnum x H) as [-> Hn]. split; [exact Hn|]. left. reflexivity.
    - intros H. destruct (Hnum 13%Q H) as [<- Hn]. split; [exact Hn|]. right. split; reflexivity. }
  destruct (zs.default _ _ (prop "timingRuleSeconds" props)) as [q|] eqn:Eq; [|discriminate].
  destruct (z.default _ _ (prop "visualPromptSuffix" props)) as [sf|]; [|discriminate].
  intros [= <-]. cbn. destruct (Htime _ _ Eq) as [Hn Hd]. auto.
Qed.

Lemma Math_min_at_most x t : at_most t (Math_min x (Finite t)).
Proof.
  destruct x as [|[]|q]; cbn; auto.
  - apply Qle_refl.
  - apply Q.le_min_r.
Qed.

Lemma plan_scene_inv rt t s idx p :
  analyze.plan_scene rt t s idx = Return p ->
  exists id d kw,
    analyze.number_field rt "scene_id" s (inject_Z (Z.of_nat idx + 1)) = Return id /\
    analyze.keywords_field rt s = Return kw /\
    analyze.scene_id p = id /\
    analyze.duration_sec p = Math_min d (Finite t) /\
    analyze.keywords p = kw.
Proof.
  unfold analyze.plan_scene, analyze.and_then.
  destruct s; try discriminate;
    repeat match goal with
           | |- context [match ?c with Return _ => _ | Throw _ => _ end] =>
               destruct c eqn:?; try discriminate
           end;
    intros [= <-]; eexists _, _, _; repeat split; eassumption || reflexivity.
Qed.

Lemma keywords_field_length rt s kw :
  analyze.keywords_field rt s = Return kw -> (length kw <= 12)%nat.
Proof.
  unfold analyze.keywords_field.
  destruct (get "keywords" (Some s)) as [[| | | |items|]|]; try (intros [= <-]; cbn; lia).
  destruct (map_throwing _ items); [|discriminate].
  intros [= <-]. rewrite length_take. lia.
Qed.

Lemma plan_scene_spec rt t s idx p :
  analyze.plan_scene rt t s idx = Return p ->
  at_most t (analyze.duration_sec p) /\
  (length (analyze.keywords p) <= 12)%nat /\
  (nullish_or (get "scene_id" (Some s)) None = None ->
   analyze.scene_id p = Finite (inject_Z (Z.of_nat idx + 1))).
Proof.
  intros H. destruct (plan_scene_inv _ _ _ _ _ H) as (id & d & kw & Hid & Hkw & -> & -> & ->).
  split; [apply Math_min_at_most|]. split; [apply (keywords_field_length _ _ _ Hkw)|].
  intros Hn. revert Hid. unfold analyze.number_field.
  destruct (get "scene_id" (Some s)) as [[]|]; try discriminate; cbn; congruence.
Qed.

Lemma plan_scenes_spec rt t items : forall idx ps,
  analyze.plan_scenes rt t idx items = Return ps ->
  length ps = length items /\
  forall i s p, items !! i = Some s -> ps !! i = Some p ->
    at_most t (analyze.duration_sec p) /\
    (length (analyze.keywords p) <= 12)%nat /\
    (nullish_or (get "scene_id" (Some s)) None = None ->
     analyze.scene_id p = Finite (inject_Z (Z.of_nat (idx + i) + 1))).
Proof.
  induction items as [|s items IH]; intros idx ps; cbn [analyze.plan_scenes].
  - intros [= <-]. split; [reflexivity|]. intros i s p H. discriminate H.
  - destruct (analyze.plan_scene rt t s idx) as [p|] eqn:Ep; [|discriminate].
    destruct (analyze.plan_scenes rt t (S idx) items) as [ps'|] eqn:Eps; [|discriminate].
    intros [= <-]. destruct (IH _ _ Eps) as [Hlen Hall].
    split; [cbn; lia|]. intros [|i] s0 p0.
    + cbn. intros [= <-] [= <-]. rewrite Nat.add_0_r. apply (plan_scene_spec _ _ _ _ _ Ep).
    + cbn. intros Hs Hp. replace (idx + S i)%nat with (S idx + i)%nat by lia.
      apply (Hall i s0 p0 Hs Hp).
Qed.

Lemma analyzeScript_cases h rt (env : Env) gc body :
  (analyze.AnalyzeReq body = None /\
   analyze.analyzeScript h rt env gc body = (Throw ZodError, [])) \/
  (exists r e,
     analyze.AnalyzeReq body = Some r /\ vertex.getVertexClient env = Throw e /\
     analyze.analyzeScript h rt env gc body = (Throw e, [])) \/
  (exists r c,
     analyze.AnalyzeReq body = Some r /\ vertex.getVertexClient env = Return c /\
     let request :=
       {| client := c;
          model := vertex.getGeminiModelId env;
          parts := [analyze.system; analyze.prompt rt r];
          temperature := analyze.d0_4;
          maxOutputTokens := 2048 |} in
     analyze.analyzeScript h rt env gc body
     = (match gc request with
        | Throw e => Throw e
        | Return resp =>
            match analyze.answer_text rt resp with
            | Throw e => Throw e
            | Return text =>
                match analyze.jsonStr text with
                | Throw e => Throw e
                | Return str =>
                    match JSON_parse h str with
                    | None => Throw (Error "Failed to parse model JSON. Try again.")
                    | Some data => analyze.enforce rt (analyze.timingRuleSeconds r) data
                    end
                end
            end
        end, [request])).
Proof.
  unfold analyze.analyzeScript.
  destruct (analyze.AnalyzeReq body) as [r|]; [right|left; auto].
  destruct (vertex.getVertexClient env) as [c|e]; [right|left]; eauto.
Qed.

(** X22. The timing rule is enforced on whatever the model answers:
    when [analyzeScript] returns a plan, it has one scene per element
    of the model's [scenes] array, and no scene lasts longer than the
    request's timing rule, itself a whole number between 4 and 30.
    The bound is from above only: a duration is either a number up to
    the timing rule, or minus infinity, or not a number.  No scene
    carries more than twelve keywords, and a scene the model gave no id
    is numbered by its position, counted from one. *)
Theorem analyzeScript_enforces_timing h rt (env : Env) gc body props scenes :
  fst (analyze.analyzeScript h rt env gc body) = Return (analyze.Planned props scenes) ->
  exists r items,
    analyze.AnalyzeReq body = Some r /\
    (exists n : Z, (analyze.timingRuleSeconds r == inject_Z n)%Q /\ 4 <= n <= 30) /\
    prop "scenes" props = Some (JArr items) /\
    length scenes = length items /\
    forall i s p, items !! i = Some s -> scenes !! i = Some p ->
      at_most (analyze.timingRuleSeconds r) (analyze.duration_sec p) /\
      (length (analyze.keywords p) <= 12)%nat /\
      (nullish_or (get "scene_id" (Some s)) None = None ->
       analyze.scene_id p = Finite (inject_Z (Z.of_nat i + 1))).
Proof.
  destruct (analyzeScript_cases h rt env gc body)
    as [[_ ->]|[(r & e & _ & _ & ->)|(r & c & Er & Ec & ->)]]; cbn [fst];
    try discriminate.
  destruct (gc _) as [resp|]; [|discriminate].
  destruct (analyze.answer_text rt resp) as [text|]; [|discriminate].
  destruct (analyze.jsonStr text) as [str|]; [|discriminate].
  destruct (JSON_parse h str) as [data|]; [|discriminate].
  unfold analyze.enforce. destruct data as [| | | | |ps]; try discriminate.
  destruct (prop "scenes" ps) as [[| | | |items|]|] eqn:Ep; try discriminate.
  destruct (analyze.plan_scenes rt _ 0 items) as [planned|] eqn:Epl; [|discriminate].
  intros [= <- <-]. exists r, items.
  destruct (AnalyzeReq_inv _ _ Er) as (bp & _ & _ & _ & Hn & _).
  destruct (plan_scenes_spec _ _ _ _ _ Epl) as [Hlen Hall].
  repeat split; auto; apply (Hall i s p); assumption.
Qed.

Lemma analyzeScript_enforces_timing_witness :
  exists r items,
    analyze.AnalyzeReq analyze_body_sample = Some r /\
    (exists n : Z, (analyze.timingRuleSeconds r == inject_Z n)%Q /\ 4 <= n <= 30) /\
    prop "scenes" long_plan_props = Some (JArr items) /\
    length long_plan_enforced = length items /\
    forall i s p, items !! i = Some s -> long_plan_enforced !! i = Some p ->
      at_most (analyze.timingRuleSeconds r) (analyze.duration_sec p) /\
      (length (analyze.keywords p) <= 12)%nat /\
      (nullish_or (get "scene_id" (Some s)) None = None ->
       analyze.scene_id p = Finite (inject_Z (Z.of_nat i + 1))).
Proof.
  apply (analyzeScript_enforces_timing (parse_host long_plan) plain_runtime project_env
           (text_model "{}") analyze_body_sample long_plan_props long_plan_enforced).
  vm_compute. reflexivity.
Defined.

(** X23. [analyzeScript] asks the model only after the body passed the
    schema (a script of ten characters or more) and the project is
    configured, and at most once; the request goes to that project
    under a model id that is never empty and carries two texts, the
    fixed instructions and the message built from the request. *)
Theorem analyzeScript_requests h rt (env : Env) gc body req :
  In req (snd (analyze.analyzeScript h rt env gc body)) ->
  snd (analyze.analyzeScript h rt env gc body) = [req] /\
  exists r,
    analyze.AnalyzeReq body = Some r /\
    (10 <= String.length (analyze.script r))%nat /\
    vertex.getVertexClient env = Return (client req) /\
    vertex.project (client req) <> EmptyString /\
    model req <> EmptyString /\
    parts req = [analyze.system; analyze.prompt rt r].
Proof.
  destruct (analyzeScript_cases h rt env gc body)
    as [[_ ->]|[(r & e & _ & _ & ->)|(r & c & Er & Ec & ->)]]; cbn [snd].
  - intros [].
  - intros [].
  - intros [<-|[]]. split; [reflexivity|]. exists r. cbn.
    destruct (AnalyzeReq_inv _ _ Er) as (props & _ & _ & Hlen & _).
    pose proof (getVertexClient_project_nonempty env c Ec) as Hp.
    repeat split; auto. apply or_default_nonempty. discriminate.
Qed.

Lemma analyzeScript_requests_witness :
  exists r,
    analyze.AnalyzeReq analyze_body_sample = Some r /\
    (10 <= String.length (analyze.script r))%nat /\
    vertex.getVertexClient project_env
    = Return {| vertex.project := "station"; vertex.location := "us-central1" |} /\
    "station" <> EmptyString /\
    "gemini-1.5-flash-002" <> EmptyString /\
    [analyze.system;
     analyze.prompt plain_runtime
       {| analyze.script := "Focus is a skill you can train.";
          analyze.styleName := None;
          analyze.timingRuleSeconds := 8;
          analyze.visualPromptSuffix := EmptyString |}]
    = [analyze.system; analyze.prompt plain_runtime r].
Proof.
  apply (analyzeScript_requests (parse_host long_plan) plain_runtime project_env
           (text_model "{}") analyze_body_sample
           {| client := {| vertex.project := "station"; vertex.location := "us-central1" |};
              model := "gemini-1.5-flash-002";
              parts := [analyze.system;
                        analyze.prompt plain_runtime
                          {| analyze.script := "Focus is a skill you can train.";
                             analyze.styleName := None;
                             analyze.timingRuleSeconds := 8;
                             analyze.visualPromptSuffix := EmptyString |}];
              temperature := analyze.d0_4;
              maxOutputTokens := 2048 |}).
  vm_compute. left. reflexivity.
Defined.

(** X24. An answer of the model without an opening or a closing brace
    ends the analysis with the error "Model did not return JSON.", and
    the endpoint of the server that uses analyze.js answers with
    status 400 and that text: a failure of the model is reported to the
    client as a bad request. *)
Theorem analyze_script_no_json h rt runtime_text (env : Env) gc body req resp text :
  snd (analyze.analyzeScript h rt env gc body) = [req] ->
  gc req = Return resp ->
  analyze.answer_text rt resp = Return text ->
  indexOf "{"%char text = None \/ lastIndexOf "}"%char text = None ->
  analyze_script h rt runtime_text env gc body
  = {| status := 400; headers := [];
       body := Json (JObj [ ("ok", JBool false);
                            ("error", JStr "Model did not return JSON.") ]) |}.
Proof.
  intros Hreq Hgc Htext Hbrace. unfold analyze_script.
  destruct (analyzeScript_cases h rt env gc body)
    as [[_ E]|[(r & e & _ & _ & E)|(r & c & Er & Ec & E)]];
    rewrite E in Hreq |- *; cbn [fst snd] in *; try discriminate.
  injection Hreq as <-. rewrite Hgc, Htext.
  assert (Ej : analyze.jsonStr text = Throw (Error "Model did not return JSON.")).
  { unfold analyze.jsonStr. destruct Hbrace as [-> | ->]; [reflexivity|].
    destruct (indexOf "{"%char text); reflexivity. }
  rewrite Ej. reflexivity.
Qed.

Lemma analyze_script_no_json_witness :
  analyze_script (parse_host long_plan) plain_runtime (fun _ => EmptyString) project_env
    (text_model "I cannot help with that.") analyze_body_sample
  = {| status := 400; headers := [];
       body := Json (JObj [ ("ok", JBool false);
                            ("error", JStr "Model did not return JSON.") ]) |}.
Proof.
  eapply (analyze_script_no_json (parse_host long_plan) plain_runtime (fun _ => EmptyString)
            project_env (text_model "I cannot help with that.") analyze_body_sample
            _ _ "I cannot help with that.").
  - vm_compute. reflexivity.
  - vm_compute. reflexivity.
  - vm_compute. reflexivity.
  - left. reflexivity.
Defined.


(** * The client's presets and requests *)

Lemma activePreset_cases presetId custom :
  (exists c, activePreset presetId custom
             = {| styles.id := "custom"; styles.name := custom_name c;
                  styles.target := "Custom"; styles.suffix := custom_suffix c;
                  styles.timing := 13; styles.accent := "#7C3AED";
                  styles.voiceDefault := "Default" |}) \/
  In (activePreset presetId custom) styles.PRESETS.
Proof.
  unfold activePreset.
  destruct (if String.eqb presetId "custom" then custom else None) as [c|]; [left; eauto|].
  right. unfold find_preset, styles.PRESETS. cbn [find styles.id].
  repeat (destruct (String.eqb _ presetId); [cbn; tauto|]). cbn. tauto.
Qed.

(** X25. Whatever the script, the preset id that [autoDetectPresetId]
    returns is the id of one of the built-in presets, so the preset
    the client then activates is found in the table (never the
    fall-back to the first entry by accident of a missing id), and the
    voice it selects is one the speech schema knows. *)
Theorem autoDetectPresetId_names_a_preset script custom :
  let p := activePreset (styles.autoDetectPresetId script) custom in
  find_preset (styles.autoDetectPresetId script) = Some p /\
  In p styles.PRESETS /\
  styles.id p = styles.autoDetectPresetId script /\
  In (or_else (styles.voiceDefault p) "Default") VOICES.
Proof.
  unfold styles.autoDetectPresetId.
  destruct (includes "dopamine" _ || includes "focus" _);
    [|destruct (includes "productivity" _ || includes "system" _);
      [|destruct (includes "god" _ || includes "jesus" _)]];
    vm_compute; tauto.
Qed.

Lemma activePreset_timing presetId custom :
  styles.timing (activePreset presetId custom) = 13 \/
  styles.timing (activePreset presetId custom) = 8.
Proof.
  destruct (activePreset_cases presetId custom) as [[c ->]|H]; [left; reflexivity|].
  cbn in H. destruct H as [<-|[<-|[<-|[]]]]; cbn; auto.
Qed.

(** X26. The analysis request of the client passes the server's schema
    exactly when the script has ten characters or more: the timing of
    every preset the client can activate, built in or custom, is a
    whole number within the schema's bounds, and the request then
    reaches the routine with the preset's name, timing and suffix. *)
Theorem onAnalyze_body_accepted presetId custom script :
  let p := activePreset presetId custom in
  analyze.AnalyzeReq (Some (analyze_body script p))
  = if (10 <=? String.length script)%nat
    then Some {| analyze.script := script;
                 analyze.styleName := Some (styles.name p);
                 analyze.timingRuleSeconds := inject_Z (styles.timing p);
                 analyze.visualPromptSuffix := styles.suffix p |}
    else None.
Proof.
  intros p. unfold analyze.AnalyzeReq, analyze_body, zs.object4, zs.min_length, zs.string.
  cbn [prop String.eqb Ascii.eqb Bool.eqb].
  destruct (10 <=? String.length script)%nat; [|reflexivity].
  destruct (activePreset_timing presetId custom) as [E|E]; fold p in E; rewrite E; reflexivity.
Qed.

(** * The Cloud Run server *)

(** X27. An empty or white-space [script] is not replaced by [text]:
    the fall-back to [text] is taken only when [script] is missing or
    null, so a body whose script is blank is refused with status 400,
    whatever its [text] holds, and nothing is asked of any service. *)
Theorem cloudrun_blank_script_shadows_text rt sv (env : Env) props s :
  prop "script" props = Some (JStr s) ->
  trim s = EmptyString ->
  cloudrun.analyze_script rt sv env (Some (JObj props))
  = (cloudrun.respond 400
       (JObj [("error", JStr "Script is empty. Send JSON: { script: '...' }")]), []).
Proof.
  intros Hs Ht. unfold cloudrun.analyze_script, cloudrun.script_of.
  cbn [get]. rewrite Hs. cbn [nullish_or ToBoolean].
  destruct (String.eqb s ""); cbn [negb]; [reflexivity|].
  cbn [cloudrun.String_of ToString]. unfold cloudrun.blank. rewrite Ht. reflexivity.
Qed.

Lemma cloudrun_blank_script_shadows_text_witness :
  cloudrun.analyze_script plain_runtime no_services ∅
    (Some (JObj [("script", JStr "  "); ("text", JStr "Focus is a skill you can train.")]))
  = (cloudrun.respond 400
       (JObj [("error", JStr "Script is empty. Send JSON: { script: '...' }")]), []).
Proof.
  apply (cloudrun_blank_script_shadows_text plain_runtime no_services ∅
           [("script", JStr "  "); ("text", JStr "Focus is a skill you can train.")] "  ");
    reflexivity.
Defined.

(** X28. With ANALYZE_DRY_RUN=true the handler never asks a service,
    configured or not.  The status is 400, 200 or 500, and it is 500
    exactly when the script is not falsy and cannot be turned into
    text, as an object with a property [toString] cannot; the answer
    is then the fixed failure of the [catch].  A body that has no
    [script] (or a null one) and a [text] that is not blank is answered
    with 200 and the number of characters of the text. *)
Theorem cloudrun_dry_run rt sv (env : Env) body :
  env !! "ANALYZE_DRY_RUN" = Some "true" ->
  let resp := fst (cloudrun.analyze_script rt sv env body) in
  snd (cloudrun.analyze_script rt sv env body) = [] /\
  (status resp = 400%nat \/ status resp = 200%nat \/
   resp = cloudrun.respond 500 cloudrun.analyze_failed) /\
  (status resp = 500%nat <->
   ToBoolean (cloudrun.script_of body) = true /\
   exists e, cloudrun.String_of rt (cloudrun.script_of body) = Throw e) /\
  (forall ps v,
     get "script" body = Some (JObj ps) -> prop "toString" ps = Some v ->
     resp = cloudrun.respond 500 cloudrun.analyze_failed) /\
  (forall t,
     nullish_or (get "script" body) None = None ->
     get "text" body = Some (JStr t) ->
     trim t <> EmptyString ->
     exists message,
       resp = cloudrun.respond 200
                (JObj [ ("ok", JBool true); ("dryRun", JBool true);
                        ("receivedChars", JNum (inject_Z (Z.of_nat (String.length t))));
                        ("message", JStr message) ])).
Proof.
  intros Hd resp. subst resp. unfold cloudrun.analyze_script.
  rewrite (bool_decide_eq_true_2 _ Hd).
  split; [|split; [|split; [|split]]].
  - destruct (negb _); [reflexivity|].
    destruct (cloudrun.String_of rt _); [destruct (cloudrun.blank _)|]; reflexivity.
  - destruct (negb _); [left; reflexivity|].
    destruct (cloudrun.String_of rt _); [destruct (cloudrun.blank _)|]; cbn; auto.
  - destruct (ToBoolean (cloudrun.script_of body)); cbn [negb].
    + destruct (cloudrun.String_of rt _) as [text|e].
      * destruct (cloudrun.blank text); cbn; split; try discriminate;
          intros [_ [e He]]; discriminate.
      * cbn. split; eauto.
    + cbn. split; [discriminate|]. intros [H _]. discriminate.
  - intros ps v Hs Hv. unfold cloudrun.script_of. rewrite Hs. cbn. rewrite Hv. reflexivity.
  - intros t Hs Ht Hne.
    assert (E : cloudrun.script_of body = Some (JStr t)).
    { unfold cloudrun.script_of, cloudrun.field. rewrite Ht.
      destruct (get "script" body) as [[]|]; try discriminate; reflexivity. }
    rewrite E. cbn [ToBoolean cloudrun.String_of ToString].
    assert (Ht1 : t <> EmptyString) by (intros ->; apply Hne; reflexivity).
    destruct (String.eqb_spec t "") as [->|_]; [congruence|]. cbn [negb].
    unfold cloudrun.blank. destruct (trim t) as [|c u] eqn:Etr; [congruence|].
    cbn [String.length Nat.eqb]. eexists. reflexivity.
Qed.

Lemma cloudrun_dry_run_witness :
  fst (cloudrun.analyze_script plain_runtime no_services {[ "ANALYZE_DRY_RUN" := "true" ]}
         (Some (JObj [("script", JObj [("toString", JNum 1)])])))
  = cloudrun.respond 500 cloudrun.analyze_failed.
Proof.
  destruct (cloudrun_dry_run plain_runtime no_services {[ "ANALYZE_DRY_RUN" := "true" ]}
              (Some (JObj [("script", JObj [("toString", JNum 1)])])))
    as (_ & _ & _ & Hobject & _).
  - vm_compute. reflexivity.
  - apply (Hobject [("toString", JNum 1)] (JNum 1)); reflexivity.
Defined.

Lemma truthy_nonempty s : truthy s = true <-> s <> EmptyString.
Proof.
  unfold truthy. destruct (String.eqb_spec s ""); cbn; split; congruence.
Qed.

Lemma not_truthy_empty s : negb (truthy s) = true <-> s = EmptyString.
Proof.
  unfold truthy. destruct (String.eqb_spec s ""); cbn; split; congruence.
Qed.

Lemma or_undefined_nonempty a b k :
  or_default (or_undefined a b) EmptyString = k -> k <> EmptyString ->
  a = Some k \/ b = Some k.
Proof.
  unfold or_undefined, or_default, or_else.
  destruct a as [x|]; [destruct (String.eqb_spec x "") as [->|Hx]|].
  - destruct b as [y|]; [|congruence].
    destruct (String.eqb_spec y ""); [congruence|]. intros <- _. auto.
  - destruct (String.eqb_spec x ""); [congruence|]. intros <- _. auto.
  - destruct b as [y|]; [|congruence].
    destruct (String.eqb_spec y ""); [congruence|]. intros <- _. auto.
Qed.

(** The two flows of [generateText], each with the condition it is
    taken under. *)
Lemma generateText_key_flow rt sv (env : Env) prompt :
  let apiKey := or_default (or_undefined (env !! "GOOGLE_API_KEY") (env !! "GEMINI_API_KEY"))
                  EmptyString in
  let modelName := or_default (env !! "GEMINI_API_MODEL") "gemini-1.5-flash" in
  apiKey <> EmptyString -> cloudrun.GoogleGenerativeAI sv = true ->
  cloudrun.generateText rt sv env prompt
  = (match cloudrun.gemini_text sv apiKey modelName prompt with
     | Throw e => Throw e
     | Return t =>
         let text := match t with Some s => s | None => EmptyString end in
         if negb (truthy text)
         then Throw (Error "Empty response from Gemini API key flow.")
         else Return text
     end, [cloudrun.AskedGemini apiKey modelName prompt]).
Proof.
  intros apiKey modelName Hk Hg. unfold cloudrun.generateText. fold apiKey.
  apply truthy_nonempty in Hk. rewrite Hk, Hg. reflexivity.
Qed.

Lemma generateText_adc_flow rt sv (env : Env) prompt :
  let apiKey := or_default (or_undefined (env !! "GOOGLE_API_KEY") (env !! "GEMINI_API_KEY"))
                  EmptyString in
  apiKey = EmptyString \/ cloudrun.GoogleGenerativeAI sv = false ->
  cloudrun.generateText rt sv env prompt
  = if negb (truthy (cloudrun.GCP_PROJECT_ID env)) then
      (Throw (Error "Missing GCP_PROJECT_ID. Set it in Cloud Run Variables & secrets."), [])
    else
      match cloudrun.getAccessToken sv with
      | Throw e => (Throw e, [cloudrun.AskedToken])
      | Return t =>
          let accessToken := match t with Some s => s | None => EmptyString end in
          if negb (truthy accessToken)
          then (Throw (Error "Could not obtain access token via ADC."), [cloudrun.AskedToken])
          else
            let req :=
              {| cloudrun.url := cloudrun.endpoint sv env;
                 cloudrun.authorization := "Bearer " +:+ accessToken;
                 cloudrun.content_type := "application/json";
                 cloudrun.request_body := cloudrun.generate_body prompt |} in
            (match cloudrun.fetch sv req with
             | Throw e => Throw e
             | Return r =>
                 let json := match cloudrun.json_body r with Some j => j | None => JObj [] end in
                 if negb (cloudrun.ok r)
                 then Throw (Error ("Vertex AI returned "
                                      +:+ String_of_nat (cloudrun.status_code r)))
                 else
                   match cloudrun.response_text rt json with
                   | Throw e => Throw e
                   | Return text =>
                       if negb (truthy text)
                       then Throw (Error "Vertex AI response did not include text.")
                       else Return text
                   end
             end, [cloudrun.AskedToken; cloudrun.Fetched req])
      end.
Proof.
  intros apiKey Hflow. unfold cloudrun.generateText. fold apiKey.
  assert (E : truthy apiKey && cloudrun.GoogleGenerativeAI sv = false).
  { destruct Hflow as [-> | ->]; [reflexivity | apply andb_false_r]. }
  rewrite E. reflexivity.
Qed.

Lemma generateText_nonempty rt sv (env : Env) prompt text :
  fst (cloudrun.generateText rt sv env prompt) = Return text -> text <> EmptyString.
Proof.
  assert (Hn : forall s, negb (truthy s) = false -> s <> EmptyString).
  { intros s H. apply truthy_nonempty. destruct (truthy s); [reflexivity|discriminate]. }
  unfold cloudrun.generateText.
  destruct (truthy _ && cloudrun.GoogleGenerativeAI sv); cbn [fst].
  - destruct (cloudrun.gemini_text sv _ _ _) as [t|]; [|discriminate].
    destruct (negb (truthy _)) eqn:Et; [discriminate|]. intros [= <-]. apply Hn, Et.
  - destruct (negb (truthy (cloudrun.GCP_PROJECT_ID env))); [discriminate|].
    destruct (cloudrun.getAccessToken sv) as [t|]; [|discriminate].
    destruct (negb (truthy _)); [discriminate|]. cbn [fst].
    destruct (cloudrun.fetch sv _) as [r|]; [|discriminate].
    destruct (negb (cloudrun.ok r)); [discriminate|].
    destruct (cloudrun.response_text rt _) as [tx|]; [|discriminate].
    destruct (negb (truthy tx)) eqn:Etx; [discriminate|]. intros [= <-]. apply Hn, Etx.
Qed.

(** X29. The order of [generateText].  With a non-empty API key (from
    GOOGLE_API_KEY, else GEMINI_API_KEY) and the library loaded, the
    library is asked and nothing else, whether or not a project is
    configured or a token could be had.  In every other case: without
    a project nothing is asked and the error names the missing
    variable; with a project the token is asked for first; without a
    usable token nothing follows and the call throws; with a token the
    one request goes out with that token as its bearer.  A text that is
    returned is never empty. *)
Theorem generateText_calls rt sv (env : Env) prompt :
  let apiKey := or_default (or_undefined (env !! "GOOGLE_API_KEY") (env !! "GEMINI_API_KEY"))
                  EmptyString in
  let run := cloudrun.generateText rt sv env prompt in
  (apiKey <> EmptyString -> cloudrun.GoogleGenerativeAI sv = true ->
     snd run = [cloudrun.AskedGemini apiKey
                  (or_default (env !! "GEMINI_API_MODEL") "gemini-1.5-flash") prompt] /\
     (env !! "GOOGLE_API_KEY" = Some apiKey \/
      unset_or_empty (env !! "GOOGLE_API_KEY") /\ env !! "GEMINI_API_KEY" = Some apiKey)) /\
  (apiKey = EmptyString \/ cloudrun.GoogleGenerativeAI sv = false ->
     (cloudrun.GCP_PROJECT_ID env = EmptyString ->
        run = (Throw (Error "Missing GCP_PROJECT_ID. Set it in Cloud Run Variables & secrets."),
               [])) /\
     (cloudrun.GCP_PROJECT_ID env <> EmptyString ->
        (forall token,
           cloudrun.getAccessToken sv = Return (Some token) -> token <> EmptyString ->
           snd run = [ cloudrun.AskedToken;
                       cloudrun.Fetched
                         {| cloudrun.url := cloudrun.endpoint sv env;
                            cloudrun.authorization := "Bearer " +:+ token;
                            cloudrun.content_type := "application/json";
                            cloudrun.request_body := cloudrun.generate_body prompt |} ]) /\
        ((forall token, cloudrun.getAccessToken sv = Return (Some token) ->
                        token = EmptyString) ->
           snd run = [cloudrun.AskedToken] /\ exists e, fst run = Throw e))) /\
  (forall text, fst run = Return text -> text <> EmptyString).
Proof.
  intros apiKey run. subst run. split; [|split].
  - intros Hk Hg. rewrite (generateText_key_flow rt sv env prompt Hk Hg). cbn [snd].
    split; [reflexivity|].
    subst apiKey. revert Hk. unfold or_undefined, or_default, or_else, unset_or_empty.
    destruct (env !! "GOOGLE_API_KEY") as [a|]; [destruct (String.eqb_spec a "") as [->|Ha]|].
    + destruct (env !! "GEMINI_API_KEY") as [b|]; [|congruence].
      destruct (String.eqb_spec b ""); [congruence|]. auto.
    + destruct (String.eqb_spec a ""); [congruence|]. auto.
    + destruct (env !! "GEMINI_API_KEY") as [b|]; [|congruence].
      destruct (String.eqb_spec b ""); [congruence|]. auto.
  - intros Hflow. rewrite (generateText_adc_flow rt sv env prompt Hflow). split.
    + intros Hp. rewrite Hp. reflexivity.
    + intros Hp. apply truthy_nonempty in Hp. rewrite Hp. cbn [negb]. split.
      * intros token Ht Hne. rewrite Ht. apply truthy_nonempty in Hne. rewrite Hne.
        reflexivity.
      * intros Hnone. destruct (cloudrun.getAccessToken sv) as [[tok|]|e]; cbn.
        -- rewrite (Hnone tok eq_refl). cbn. eauto.
        -- eauto.
        -- eauto.
  - apply generateText_nonempty.
Qed.

Lemma generateText_calls_witness :
  snd (cloudrun.generateText plain_runtime (key_services "A summary.")
         {[ "GEMINI_API_KEY" := "k-1"; "GCP_PROJECT_ID" := "station" ]} "Summarise.")
  = [cloudrun.AskedGemini "k-1" "gemini-1.5-flash" "Summarise."].
Proof.
  destruct (proj1 (generateText_calls plain_runtime (key_services "A summary.")
                     {[ "GEMINI_API_KEY" := "k-1"; "GCP_PROJECT_ID" := "station" ]}
                     "Summarise.")) as [Hcalls _].
  - vm_compute. discriminate.
  - reflexivity.
  - rewrite Hcalls. vm_compute. reflexivity.
Defined.

(** X30. What the analysis endpoint of the Cloud Run server answers
    once the script is accepted (not falsy, turned into a text that is
    not blank) and no dry run is set.  The calls are those of
    [generateText] on the prompt that ends with the script.  A text
    that comes back is sent with status 200.  Every failure gives one
    and the same response, status 500 with a fixed error text that
    carries nothing of the error: a missing project, a token that
    cannot be had, a request that is rejected, an HTTP error whatever
    its status and body, an answer without text or with parts that are
    no array, and a library that fails or returns nothing. *)
Theorem cloudrun_analyze_responses rt sv (env : Env) body text :
  ToBoolean (cloudrun.script_of body) = true ->
  cloudrun.String_of rt (cloudrun.script_of body) = Return text ->
  trim text <> EmptyString ->
  env !! "ANALYZE_DRY_RUN" <> Some "true" ->
  let apiKey := or_default (or_undefined (env !! "GOOGLE_API_KEY") (env !! "GEMINI_API_KEY"))
                  EmptyString in
  let prompt := String.concat newline (cloudrun.instructions ++ [text]) in
  let run := cloudrun.generateText rt sv env prompt in
  let answer := cloudrun.analyze_script rt sv env body in
  let failed := cloudrun.respond 500 cloudrun.analyze_failed in
  snd answer = snd run /\
  (forall out, fst run = Return out ->
     fst answer = cloudrun.respond 200 (JObj [ ("ok", JBool true); ("result", JStr out) ])) /\
  (forall e, fst run = Throw e -> fst answer = failed) /\
  (apiKey = EmptyString \/ cloudrun.GoogleGenerativeAI sv = false ->
   (cloudrun.GCP_PROJECT_ID env = EmptyString -> answer = (failed, [])) /\
   (cloudrun.GCP_PROJECT_ID env <> EmptyString ->
    ((forall token, cloudrun.getAccessToken sv = Return (Some token) -> token = EmptyString) ->
     answer = (failed, [cloudrun.AskedToken])) /\
    (forall token req,
       cloudrun.getAccessToken sv = Return (Some token) -> token <> EmptyString ->
       snd answer = [cloudrun.AskedToken; cloudrun.Fetched req] ->
       match cloudrun.fetch sv req with
       | Throw _ => fst answer = failed
       | Return r =>
           if cloudrun.ok r then
             match cloudrun.response_text rt
                     (match cloudrun.json_body r with Some j => j | None => JObj [] end) with
             | Return (String c out) =>
                 fst answer
                 = cloudrun.respond 200
                     (JObj [ ("ok", JBool true); ("result", JStr (String c out)) ])
             | Return EmptyString | Throw _ => fst answer = failed
             end
           else fst answer = failed
       end))) /\
  (apiKey <> EmptyString -> cloudrun.GoogleGenerativeAI sv = true ->
   forall m,
     snd answer = [cloudrun.AskedGemini apiKey m prompt] ->
     match cloudrun.gemini_text sv apiKey m prompt with
     | Throw _ | Return None | Return (Some EmptyString) => fst answer = failed
     | Return (Some out) =>
         fst answer = cloudrun.respond 200 (JObj [ ("ok", JBool true); ("result", JStr out) ])
     end).
Proof.
  intros Htruthy Htext Hblank Hdry apiKey prompt run answer failed.
  assert (E : answer
              = (match fst run with
                 | Return out =>
                     cloudrun.respond 200 (JObj [ ("ok", JBool true); ("result", JStr out) ])
                 | Throw _ => failed
                 end, snd run)).
  { subst answer. unfold cloudrun.analyze_script. rewrite Htruthy, Htext. cbn [negb].
    unfold cloudrun.blank. destruct (trim text) as [|c u]; [congruence|].
    cbn [String.length Nat.eqb]. rewrite bool_decide_eq_false_2 by exact Hdry.
    fold prompt. fold run. destruct run as [[out|e] calls]; reflexivity. }
  rewrite E. cbn [fst snd]. split; [reflexivity|].
  split; [intros out ->; reflexivity|]. split; [intros e ->; reflexivity|]. split.
  - intros Hflow. subst run.
    rewrite (generateText_adc_flow rt sv env prompt Hflow). split.
    + intros Hp. rewrite Hp. reflexivity.
    + intros Hp. apply truthy_nonempty in Hp. rewrite Hp. cbn [negb]. split.
      * intros Hnone. destruct (cloudrun.getAccessToken sv) as [[tok|]|e]; cbn.
        -- rewrite (Hnone tok eq_refl). reflexivity.
        -- reflexivity.
        -- reflexivity.
      * intros token req Ht Hne. rewrite Ht. apply truthy_nonempty in Hne. rewrite Hne.
        cbn [negb fst snd]. intros [= <-].
        destruct (cloudrun.fetch sv _) as [r|e]; [|reflexivity].
        destruct (cloudrun.ok r); [|reflexivity]. cbn [negb].
        destruct (cloudrun.response_text rt _) as [[|c out]|e]; reflexivity.
  - intros Hk Hg m. subst run.
    rewrite (generateText_key_flow rt sv env prompt Hk Hg). cbn [fst snd].
    intros [= <-]. fold apiKey.
    destruct (cloudrun.gemini_text sv apiKey _ prompt) as [[[|c out]|]|e]; reflexivity.
Qed.

Lemma cloudrun_analyze_responses_witness :
  cloudrun.analyze_script plain_runtime no_services ∅
    (Some (JObj [("script", JStr "Focus is a skill you can train.")]))
  = (cloudrun.respond 500 cloudrun.analyze_failed, []).
Proof.
  destruct (cloudrun_analyze_responses plain_runtime no_services ∅
              (Some (JObj [("script", JStr "Focus is a skill you can train.")]))
              "Focus is a skill you can train.")
    as (_ & _ & _ & Hadc & _).
  - reflexivity.
  - reflexivity.
  - vm_compute. discriminate.
  - vm_compute. discriminate.
  - destruct Hadc as [Hmissing _]; [left; reflexivity|].
    apply Hmissing. vm_compute. reflexivity.
Defined.

(** The two placeholder endpoints never report success: when they
    answer, the status is 400 (no prompt or text, or a blank one) or
    501, and the answer to a body without the field is the 400. *)
Lemma cloudrun_placeholders_never_succeed rt (env : Env) body resp :
  cloudrun.generate_image rt env body = Return resp \/
  cloudrun.generate_speech rt env body = Return resp ->
  status resp = 400%nat \/ status resp = 501%nat.
Proof.
  unfold cloudrun.generate_image, cloudrun.generate_speech, cloudrun.placeholder.
  intros [H|H]; revert H;
    (destruct (negb _); [intros [= <-]; auto|]);
    (destruct (cloudrun.String_of rt _); [|discriminate]);
    (destruct (cloudrun.blank _); intros [= <-]; auto).
Qed.
